(** * biz_tracker: mention extraction, aggregation, report values and the run

    A shallow embedding of [biz_tracker.py].  Python strings are sequences of
    Unicode code points; the regular expressions of [extract_coins] are
    embedded as the matchers they denote; dictionaries are association lists
    in insertion order (Python dictionaries iterate in that order, and the
    ranking of [generate_html] depends on it); the catalog is a JSON value,
    read as the code reads it, with the exceptions that the code raises on
    values of another type than it expects; console output, the HTTP
    request and the writing of the file are events of a trace, in a world
    that answers the request, the prints and the writing. *)

From Stdlib Require Import List Bool Arith ZArith NArith QArith Lia.
From Stdlib Require Import String Ascii Permutation Sorted.
Import ListNotations.

Set Implicit Arguments.
Close Scope Q_scope.
Open Scope nat_scope.

(** ** Python strings *)

Definition char := N.
Definition pystr := list char.

(** A string literal of the source, as the code points of its characters
    (the literals used below are ASCII). *)
Definition str (s : string) : pystr := map N_of_ascii (list_ascii_of_string s).

Fixpoint pystr_eqb (a b : pystr) : bool :=
  match a, b with
  | [], [] => true
  | x :: a', y :: b' => N.eqb x y && pystr_eqb a' b'
  | _, _ => false
  end.

(** Truthiness of a string: [if text], [x or y]. *)
Definition truthy (s : pystr) : bool :=
  match s with [] => false | _ :: _ => true end.

(** ** Dictionaries and sets, in insertion order *)

Definition dict (V : Type) := list (pystr * V).

Fixpoint dict_get {V} (k : pystr) (d : dict V) : option V :=
  match d with
  | [] => None
  | (k', v) :: r => if pystr_eqb k k' then Some v else dict_get k r
  end.

(** [k in d] *)
Definition dict_mem {V} (k : pystr) (d : dict V) : bool :=
  match dict_get k d with Some _ => true | None => false end.

Definition keys {V} (d : dict V) : list pystr := map fst d.

(** A [set()] of strings, kept as the duplicate-free list of its elements in
    the order they were first added. *)
Definition pyset := list pystr.

Definition set_mem (x : pystr) (s : pyset) : bool := existsb (pystr_eqb x) s.

(** [found.add(x)] *)
Definition set_add (x : pystr) (s : pyset) : pyset :=
  if set_mem x s then s else s ++ [x].

(** ** Stable sorting: [sorted(l, key=..., reverse=True)]

    Python's sort is stable, also with [reverse=True]: elements with equal
    keys keep their original order.  The stable sort of a list is unique, so
    insertion sort stands for it. *)
Section Sorting.
Variable A : Type.
Variable key : A -> Z.

Fixpoint insert_desc (x : A) (l : list A) : list A :=
  match l with
  | [] => [x]
  | y :: r => if (key x <? key y)%Z then y :: insert_desc x r
              else x :: y :: r
  end.

Fixpoint sorted_desc (l : list A) : list A :=
  match l with
  | [] => []
  | x :: r => insert_desc x (sorted_desc r)
  end.
End Sorting.

(** ** The tables *)

Definition COINS : dict pystr := Eval cbv in
  map (fun kv => (str (fst kv), str (snd kv)))
  [ ("BTC", "Bitcoin"); ("ETH", "Ethereum"); ("SOL", "Solana");
    ("XRP", "Ripple"); ("BNB", "BNB"); ("ADA", "Cardano");
    ("DOGE", "Dogecoin"); ("AVAX", "Avalanche"); ("DOT", "Polkadot");
    ("MATIC", "Polygon"); ("LINK", "Chainlink"); ("UNI", "Uniswap");
    ("ATOM", "Cosmos"); ("LTC", "Litecoin"); ("BCH", "Bitcoin Cash");
    ("NEAR", "NEAR Protocol"); ("ICP", "Internet Computer"); ("VET", "VeChain");
    ("FIL", "Filecoin"); ("HBAR", "Hedera"); ("ALGO", "Algorand");
    ("XLM", "Stellar"); ("ETC", "Ethereum Classic"); ("SAND", "The Sandbox");
    ("MANA", "Decentraland"); ("AXS", "Axie Infinity"); ("THETA", "Theta");
    ("EOS", "EOS"); ("XTZ", "Tezos"); ("FTM", "Fantom");
    ("CAKE", "PancakeSwap"); ("CRO", "Cronos"); ("GRT", "The Graph");
    ("ZEC", "Zcash"); ("DASH", "Dash"); ("XMR", "Monero");
    ("SHIB", "Shiba Inu"); ("PEPE", "Pepe"); ("WIF", "dogwifhat");
    ("BONK", "Bonk"); ("FLOKI", "Floki"); ("TRUMP", "TRUMP");
    ("TRX", "TRON"); ("SUI", "Sui"); ("SEI", "Sei");
    ("INJ", "Injective"); ("ARB", "Arbitrum"); ("OP", "Optimism");
    ("TON", "Toncoin"); ("APT", "Aptos"); ("STX", "Stacks");
    ("AAVE", "Aave"); ("CRV", "Curve"); ("MKR", "Maker");
    ("SNX", "Synthetix"); ("COMP", "Compound"); ("YFI", "Yearn Finance");
    ("SUSHI", "SushiSwap"); ("WLD", "Worldcoin"); ("FET", "Fetch.ai");
    ("RENDER", "Render"); ("TAO", "Bittensor"); ("OCEAN", "Ocean Protocol");
    ("JUP", "Jupiter"); ("RAY", "Raydium"); ("ORCA", "Orca");
    ("BOME", "Book of Meme"); ("POPCAT", "Popcat"); ("MEW", "Cat in a Dog World");
    ("PENDLE", "Pendle"); ("LDO", "Lido DAO"); ("RPL", "Rocket Pool");
    ("MOVE", "Movement"); ("EIGEN", "EigenLayer"); ("PYTH", "Pyth Network");
    ("JTO", "Jito"); ("NOT", "Notcoin"); ("BLUR", "Blur");
    ("IMX", "ImmutableX") ]%string.

Definition ALIASES : dict pystr := Eval cbv in
  map (fun kv => (str (fst kv), str (snd kv)))
  [ ("bitcoin", "BTC"); ("satoshi", "BTC"); ("sats", "BTC");
    ("ethereum", "ETH"); ("ether", "ETH"); ("vitalik", "ETH");
    ("solana", "SOL"); ("ripple", "XRP");
    ("dogecoin", "DOGE"); ("shiba", "SHIB"); ("shib", "SHIB");
    ("pepe", "PEPE"); ("cardano", "ADA");
    ("polygon", "MATIC"); ("avalanche", "AVAX");
    ("chainlink", "LINK"); ("litecoin", "LTC");
    ("monero", "XMR"); ("tron", "TRX");
    ("toncoin", "TON"); ("trump", "TRUMP");
    ("dogwifhat", "WIF"); ("bonk", "BONK");
    ("floki", "FLOKI"); ("render", "RENDER");
    ("bittensor", "TAO"); ("worldcoin", "WLD");
    ("arbitrum", "ARB"); ("optimism", "OP");
    ("injective", "INJ"); ("jupiter", "JUP") ]%string.

(** ** Character classes of the ASCII range *)

Definition is_ascii (c : char) : bool := (c <? 128)%N.
Definition is_AZ (c : char) : bool := ((65 <=? c) && (c <=? 90))%N.
Definition is_az (c : char) : bool := ((97 <=? c) && (c <=? 122))%N.
Definition is_09 (c : char) : bool := ((48 <=? c) && (c <=? 57))%N.

(** [str.lower] on an ASCII character. *)
Definition ascii_lower (c : char) : char := if is_AZ c then (c + 32)%N else c.

Section Extractor.

(** What Python's Unicode database and its hash function decide is a
    parameter of the model:
    - [uni_alnum c]: whether the non-ASCII code point [c] is alphanumeric
      (a word character for [\b] and [\w]);
    - [uni_lower before c after]: what [str.lower] puts for the non-ASCII
      character [c] that stands between [before] and [after] in the string
      (full Unicode lowering: it can give several characters, and for a
      capital sigma it looks at the context);
    - [set_rank s x]: the rank of [x] when the set built by the additions
      [s] is iterated, higher ranks first; it depends on the strings'
      hashes, which differ from one process to the next. *)
Variable uni_alnum : char -> bool.
Variable uni_lower : pystr -> char -> pystr -> pystr.
Variable set_rank : pyset -> pystr -> Z.

(** [\w] for a [str] pattern: [[a-zA-Z0-9_]] and every alphanumeric
    character of the Unicode database. *)
Definition is_word (c : char) : bool :=
  if is_ascii c then is_az c || is_AZ c || is_09 c || (c =? 95)%N
  else uni_alnum c.

Definition opt_word (o : option char) : bool :=
  match o with Some c => is_word c | None => false end.

(** [\b] between the character before the position and the one at it
    (each absent at an end of the string). *)
Definition word_boundary (prev next : option char) : bool :=
  xorb (opt_word prev) (opt_word next).

(** [text.lower()]: character by character, an ASCII character by
    [ascii_lower], any other by the Unicode lowering; [before] is the part
    of the string already passed. *)
Fixpoint lower_from (before s : pystr) : pystr :=
  match s with
  | [] => []
  | c :: r =>
      (if is_ascii c then [ascii_lower c] else uni_lower before c r)
      ++ lower_from (before ++ [c]) r
  end.

Definition lower (s : pystr) : pystr := lower_from [] s.

(** [list(found)] *)
Definition list_of_set (s : pyset) : list pystr :=
  sorted_desc (set_rank s) s.

(** *** [re.sub(r'<[^>]+>', ' ', text)] *)

(** After ["<"] and one character that is not [">"]: the number of
    characters up to and including the first [">"], if there is one
    ([[^>]+] is greedy and stops at the first [">"]; with no [">"] ahead
    every shorter attempt fails too). *)
Fixpoint tag_close (s : pystr) : option nat :=
  match s with
  | [] => None
  | c :: r => if (c =? 62)%N then Some 1%nat else option_map S (tag_close r)
  end.

(** Length of the match of [<[^>]+>] at the head of [s]. *)
Definition match_tag (s : pystr) : option nat :=
  match s with
  | c :: d :: r =>
      if (c =? 60)%N && negb (d =? 62)%N
      then option_map (fun n => S (S n)) (tag_close r)
      else None
  | _ => None
  end.

(** The scan of [re.sub]: [skip] counts the characters of the current
    match still to pass over. *)
Fixpoint sub_tags (skip : nat) (s : pystr) : pystr :=
  match s with
  | [] => []
  | c :: r =>
      match skip with
      | S k => sub_tags k r
      | O => match match_tag s with
             | Some n => 32%N :: sub_tags (n - 1) r
             | None => c :: sub_tags 0 r
             end
      end
  end.

Definition strip_tags (text : pystr) : pystr := sub_tags 0 text.

(** *** [re.search(r'\b' + re.escape(alias) + r'\b', lower)] *)

Fixpoint starts_with (p s : pystr) : bool :=
  match p, s with
  | [], _ => true
  | x :: p', y :: s' => N.eqb x y && starts_with p' s'
  | _ :: _, [] => false
  end.

(** The character before the end of a match of the literal [p] that
    starts after [prev]. *)
Definition last_of (prev : option char) (p : pystr) : option char :=
  match p with [] => prev | _ :: _ => Some (last p 0%N) end.

(** The pattern at one position: [prev] is the character before it.
    [re.escape] leaves an alias of the table, made of lower-case letters, as
    it is, and the pattern matches it as a literal. *)
Definition match_alias (alias : pystr) (prev : option char) (s : pystr) : bool :=
  word_boundary prev (hd_error s)
  && starts_with alias s
  && word_boundary (last_of prev alias) (nth_error s (List.length alias)).

Fixpoint search_from (alias : pystr) (prev : option char) (s : pystr) : bool :=
  match_alias alias prev s ||
  match s with
  | [] => false
  | c :: r => search_from alias (Some c) r
  end.

Definition search_alias (alias : pystr) (s : pystr) : bool :=
  search_from alias None s.

(** *** [re.findall(r'\b[A-Z]{2,8}\b', clean)] *)

(** The greedy repetition: how many of the first [bound] characters
    [[A-Z]] takes. *)
Fixpoint run_AZ (bound : nat) (s : pystr) : nat :=
  match bound, s with
  | S b, c :: r => if is_AZ c then S (run_AZ b r) else O
  | _, _ => O
  end.

(** Backtracking: the closing [\b] is tried after [k] letters, then after
    [k-1], down to the two that [{2,8}] asks for. *)
Fixpoint backtrack_AZ (k : nat) (s : pystr) : option nat :=
  match k with
  | S (S _ as k') =>
      if word_boundary (nth_error s k') (nth_error s k) then Some k
      else backtrack_AZ k' s
  | _ => None
  end.

(** Length of the match of the pattern at the head of [s]. *)
Definition match_symbol (prev : option char) (s : pystr) : option nat :=
  if word_boundary prev (hd_error s) then backtrack_AZ (run_AZ 8 s) s
  else None.

(** The scan of [re.findall]: matches do not overlap, the search goes on
    where the last match ended. *)
Fixpoint findall_from (skip : nat) (prev : option char) (s : pystr) : list pystr :=
  match s with
  | [] => []
  | c :: r =>
      match skip with
      | S k => findall_from k (Some c) r
      | O => match match_symbol prev s with
             | Some n => firstn n s :: findall_from (n - 1) (Some c) r
             | None => findall_from 0 (Some c) r
             end
      end
  end.

Definition findall_symbols (s : pystr) : list pystr := findall_from 0 None s.

(** *** [extract_coins] *)

Definition alias_pass (low : pystr) (found : pyset) : pyset :=
  fold_left (fun found (kv : pystr * pystr) =>
               let (alias, sym) := kv in
               if search_alias alias low then set_add sym found else found)
            ALIASES found.

Definition symbol_pass (clean : pystr) (found : pyset) : pyset :=
  fold_left (fun found word =>
               if dict_mem word COINS then set_add word found else found)
            (findall_symbols clean) found.

(** The argument is [None] or a string; [not text] holds for [None] and
    for the empty string. *)
Definition extract_coins (text : option pystr) : list pystr :=
  match text with
  | None => []
  | Some text =>
      if negb (truthy text) then []
      else
        let found : pyset := [] in
        let clean := strip_tags text in
        let low := lower clean in
        let found := alias_pass low found in
        let found := symbol_pass clean found in
        list_of_set found
  end.

End Extractor.

(** ** Exceptions *)

Inductive exn :=
| ConnectionError (cause : pystr)   (* requests.exceptions.ConnectionError *)
| Timeout (cause : pystr)           (* requests.exceptions.Timeout *)
| HTTPError (status : Z)            (* requests.exceptions.HTTPError *)
| JSONDecodeError (cause : pystr)   (* requests.exceptions.JSONDecodeError,
                                       a RequestException since requests 2.27 *)
| TypeError
| AttributeError
| ZeroDivisionError
| UnicodeEncodeError
| OSError (cause : pystr)
| OtherException (cause : pystr).   (* any other subclass of Exception that
                                       is no RequestException *)

(** [isinstance(e, requests.exceptions.RequestException)] *)
Definition is_RequestException (e : exn) : bool :=
  match e with
  | ConnectionError _ | Timeout _ | HTTPError _ | JSONDecodeError _ => true
  | TypeError | AttributeError | ZeroDivisionError | UnicodeEncodeError
  | OSError _ | OtherException _ => false
  end.

Inductive result (A : Type) :=
| Ok (a : A)
| Raise (e : exn).
Arguments Ok {A} a.
Arguments Raise {A} e.

Definition bind {A B} (r : result A) (k : A -> result B) : result B :=
  match r with Ok a => k a | Raise e => Raise e end.

Declare Scope result_scope.
Delimit Scope result_scope with result.
Notation "x <- r ;; k" := (bind r (fun x => k))
  (at level 61, r at next level, right associativity) : result_scope.

(** [mapM] with an index, for [for i, x in enumerate(l)]. *)
Fixpoint for_enumerate {A B} (f : nat -> A -> result B) (i : nat) (l : list A)
  : result (list B) :=
  match l with
  | [] => Ok []
  | x :: r =>
      (y <- f i x ;; ys <- for_enumerate f (S i) r ;; Ok (y :: ys))%result
  end.

(** ** JSON values

    What [resp.json()] returns: [None], a [bool], an [int], a [float] (by
    its exact value), a [str], a [list] or a [dict] (in insertion order,
    each key once).  The threads of the catalog are such values, and the
    code reads their fields without checking their types.  Python's decoder
    also accepts the literals [NaN] and [Infinity], which no JSON text has;
    they are not values of this type. *)
#[warnings="-register-all"]
Inductive json :=
| JNull
| JBool (b : bool)
| JInt (n : Z)
| JFloat (x : Q)
| JStr (s : pystr)
| JArray (items : list json)
| JObject (members : list (pystr * json)).

(** Truthiness: [if v], [v or w]. *)
Definition json_truthy (v : json) : bool :=
  match v with
  | JNull => false
  | JBool b => b
  | JInt n => negb (n =? 0)%Z
  | JFloat x => negb (Qnum x =? 0)%Z
  | JStr s => truthy s
  | JArray items => match items with [] => false | _ :: _ => true end
  | JObject members => match members with [] => false | _ :: _ => true end
  end.

(** [a or b] *)
Definition py_or (a b : json) : json := if json_truthy a then a else b.

(** [t.get(k, dflt)]: only a [dict] has the method. *)
Definition py_get (t : json) (k : pystr) (dflt : json) : result json :=
  match t with
  | JObject members =>
      Ok (match dict_get k members with Some v => v | None => dflt end)
  | _ => Raise AttributeError
  end.

(** The elements that [for x in v] and [list.extend(v)] take from [v]:
    the items of a list, the keys of a dict, the characters of a string;
    any other value is not iterable. *)
Definition py_iter (v : json) : result (list json) :=
  match v with
  | JArray items => Ok items
  | JObject members => Ok (map (fun kv => JStr (fst kv)) members)
  | JStr s => Ok (map (fun c => JStr [c]) s)
  | _ => Raise TypeError
  end.

(** The number that a [bool], an [int] or a [float] stands for in a
    comparison. *)
Definition num_of (v : json) : option Q :=
  match v with
  | JBool b => Some (if b then 1%Q else 0%Q)
  | JInt n => Some (inject_Z n)
  | JFloat x => Some x
  | _ => None
  end.

(** [a < b] on strings: by code points, a proper prefix first. *)
Fixpoint pystr_ltb (a b : pystr) : bool :=
  match a, b with
  | _, [] => false
  | [], _ :: _ => true
  | x :: a', y :: b' => (x <? y)%N || ((x =? y)%N && pystr_ltb a' b')
  end.

(** [a == b] *)
Fixpoint py_eq (a b : json) : bool :=
  match a, b with
  | JNull, JNull => true
  | JStr x, JStr y => pystr_eqb x y
  | JArray x, JArray y =>
      (fix all2 (x y : list json) : bool :=
         match x, y with
         | [], [] => true
         | u :: x', v :: y' => py_eq u v && all2 x' y'
         | _, _ => false
         end) x y
  | JObject x, JObject y =>
      (List.length x =? List.length y)
      && (fix sub (x : list (pystr * json)) : bool :=
            match x with
            | [] => true
            | (k, u) :: x' =>
                match dict_get k y with
                | Some v => py_eq u v
                | None => false
                end && sub x'
            end) x
  | _, _ =>
      match num_of a, num_of b with
      | Some p, Some q => Qeq_bool p q
      | _, _ => false
      end
  end.

(** [a < b]: numbers by value, strings by code points, lists by their
    first unequal items; any other pair raises a [TypeError]. *)
Fixpoint py_lt (a b : json) : result bool :=
  match a, b with
  | JStr x, JStr y => Ok (pystr_ltb x y)
  | JArray x, JArray y =>
      (fix lex (x y : list json) : result bool :=
         match x, y with
         | _, [] => Ok false
         | [], _ :: _ => Ok true
         | u :: x', v :: y' => if py_eq u v then lex x' y' else py_lt u v
         end) x y
  | _, _ =>
      match num_of a, num_of b with
      | Some p, Some q => Ok (negb (Qle_bool q p))
      | _, _ => Raise TypeError
      end
  end.

(** ** [list.sort(key=..., reverse=True)] on values of a JSON document

    The sort compares the keys with [<] and raises when a comparison does.
    It makes no comparison on fewer than two items; on more, it cannot
    place two keys that cannot be compared without comparing such keys, so
    it raises exactly when the list holds such keys, whatever the order of
    its comparisons.  Where all comparisons return, it is the stable
    descending sort, for which insertion sort stands again. *)
Section KeySorting.
Variable A : Type.
Variable key : A -> json.

Fixpoint insert_by (x : A) (l : list A) : result (list A) :=
  match l with
  | [] => Ok [x]
  | y :: r =>
      (below <- py_lt (key x) (key y) ;;
       if below : bool then (r' <- insert_by x r ;; Ok (y :: r'))
       else Ok (x :: y :: r))%result
  end.

Fixpoint sort_by (l : list A) : result (list A) :=
  match l with
  | [] => Ok []
  | x :: r => (r' <- sort_by r ;; insert_by x r')%result
  end.
End KeySorting.

(** ** Thread records and the aggregates *)

(** [coin_counts[sym]]: [{"count": ..., "threads": [...]}] *)
Record coin_stat := {
  count : Z;
  threads : list json
}.

(** An item of [hot_threads].  Its text is a string: see [display_text]. *)
Record hot_thread := {
  h_no : json;
  h_sub : pystr;
  h_coins : list pystr;
  h_replies : json
}.

(** [x or ""] as an item of [" ".join([...])]: the join raises a
    [TypeError] on an item that is no string. *)
Definition text_item (x : json) : result pystr :=
  match py_or x (JStr []) with
  | JStr s => Ok s
  | _ => Raise TypeError
  end.

(** [t.get("sub") or (t.get("com") or "")[:80]], after the join has
    passed: [sub] is [t.get("sub", "") or ""] and [com] is
    [t.get("com", "") or ""], both strings.  A subject that counts as true
    is the string [sub]; otherwise [sub] is empty and [t.get("com") or ""]
    is the string [com]. *)
Definition display_text (sub com : pystr) : pystr :=
  if truthy sub then sub else firstn 80 com.

(** The factory of the [defaultdict]. *)
Definition default_stat : coin_stat := {| count := 0; threads := [] |}.

(** [d[k] = f(d[k])] on a [defaultdict]: a missing key is first inserted,
    at the end, with the default. *)
Fixpoint dict_update {V} (k : pystr) (f : V -> V) (dflt : V) (d : dict V) : dict V :=
  match d with
  | [] => [(k, f dflt)]
  | (k', v) :: r =>
      if pystr_eqb k k' then (k', f v) :: r
      else (k', v) :: dict_update k f dflt r
  end.

(** [coin_counts[sym]["count"] += 1; coin_counts[sym]["threads"].append(no)] *)
Definition add_mention (no : json) (st : coin_stat) : coin_stat :=
  {| count := count st + 1; threads := threads st ++ [no] |}.

Definition record_mention (no : json) (coin_counts : dict coin_stat) (sym : pystr)
  : dict coin_stat :=
  dict_update sym (add_mention no) default_stat coin_counts.

Section Aggregator.
Variable uni_alnum : char -> bool.
Variable uni_lower : pystr -> char -> pystr -> pystr.
Variable set_rank : pyset -> pystr -> Z.

(** The body of the loop over the threads.  The first [t.get] raises an
    [AttributeError] when [t] is no dict; the later ones read the same
    dict. *)
Definition analyze_thread (acc : dict coin_stat * list hot_thread) (t : json)
  : result (dict coin_stat * list hot_thread) :=
  let (coin_counts, hot_threads) := acc in
  (sub <- (x <- py_get t (str "sub") (JStr []) ;; text_item x) ;;
   com <- (x <- py_get t (str "com") (JStr []) ;; text_item x) ;;
   let text := sub ++ 32%N :: com in
   let coins := extract_coins uni_alnum uni_lower set_rank (Some text) in
   no <- py_get t (str "no") JNull ;;
   let coin_counts := fold_left (record_mention no) coins coin_counts in
   match coins with
   | [] => Ok (coin_counts, hot_threads)
   | _ :: _ =>
       replies <- py_get t (str "replies") (JInt 0) ;;
       Ok (coin_counts,
           hot_threads ++ [ {| h_no := no;
                               h_sub := display_text sub com;
                               h_coins := coins;
                               h_replies := replies |} ])
   end)%result.

(** [for t in threads: ...] *)
Fixpoint analyze_loop (ts : list json) (acc : dict coin_stat * list hot_thread)
  : result (dict coin_stat * list hot_thread) :=
  match ts with
  | [] => Ok acc
  | t :: r => (acc <- analyze_thread acc t ;; analyze_loop r acc)%result
  end.

Definition analyze (ts : list json)
  : result (dict coin_stat * list hot_thread) :=
  (acc <- analyze_loop ts ([], []) ;;
   let (coin_counts, hot_threads) := acc : dict coin_stat * list hot_thread in
   hot_threads <- sort_by h_replies hot_threads ;;
   Ok (coin_counts, firstn 10 hot_threads))%result.
End Aggregator.

(** ** The derived values of [generate_html]

    The document is a fixed template around these values; the numbers are
    exact rationals here, where Python has floats. *)

(** [a / b] on integers: true division. *)
Definition truediv (a b : Z) : result Q :=
  if (b =? 0)%Z then Raise ZeroDivisionError
  else Ok (inject_Z a / inject_Z b)%Q.

Record coin_row := {
  r_index : nat;
  r_sym : pystr;
  r_full_name : pystr;
  r_count : Z;
  r_bar_w : Q;
  r_pct : Q
}.

Record heat_row := {
  hm_sym : pystr;
  hm_w : Q;
  hm_color : nat;
  hm_count : Z
}.

Record thread_item := {
  ti_tags : list pystr;
  ti_sub : pystr;
  ti_no : json;
  ti_replies : json
}.

Record report := {
  rp_thread_count : nat;
  rp_coin_count : nat;
  rp_total_mentions : Z;
  rp_top_sym : option pystr;
  rp_top_cnt : Z;
  rp_rows : list coin_row;
  rp_heatmap : list heat_row;
  rp_threads : list thread_item
}.

Definition stat_count (kv : pystr * coin_stat) : Z := count (snd kv).

(** [sum(v["count"] for v in coin_counts.values())] *)
Definition sum_counts (coin_counts : dict coin_stat) : Z :=
  fold_left Z.add (map stat_count coin_counts) 0%Z.

(** [l[0][1]["count"] if l else dflt] *)
Definition first_count (l : dict coin_stat) (dflt : Z) : Z :=
  match l with
  | [] => dflt
  | kv :: _ => stat_count kv
  end.

Definition leaderboard_row (total_mentions max_count : Z) (i : nat)
    (kv : pystr * coin_stat) : result coin_row :=
  let (sym, data) := kv in
  let count := count data in
  (pct <- (if negb (total_mentions =? 0)%Z
           then q <- truediv count total_mentions ;; Ok (q * 100)%Q
           else Ok 0%Q) ;;
   bar_w <- (q <- truediv count max_count ;; Ok (q * 100)%Q) ;;
   Ok {| r_index := i;
         r_sym := sym;
         r_full_name := match dict_get sym COINS with Some n => n | None => [] end;
         r_count := count;
         r_bar_w := bar_w;
         r_pct := pct |})%result.

Definition heatmap_row (hm_max : Z) (i : nat) (kv : pystr * coin_stat)
  : result heat_row :=
  let (sym, data) := kv in
  (w <- (q <- truediv (count data) hm_max ;; Ok (q * 100)%Q) ;;
   Ok {| hm_sym := sym;
         hm_w := w;
         hm_color := Nat.min i (10 - 1);
         hm_count := count data |})%result.

Definition thread_entry (t : hot_thread) : thread_item :=
  {| ti_tags := firstn 4 (h_coins t);
     ti_sub := firstn 70 (h_sub t);
     ti_no := h_no t;
     ti_replies := h_replies t |}.

Definition generate_html (coin_counts : dict coin_stat)
    (hot_threads : list hot_thread) (thread_count : nat) : result report :=
  let sorted_coins := sorted_desc stat_count coin_counts in
  let total_mentions := sum_counts coin_counts in
  let max_count := first_count sorted_coins 1 in
  let top10 := firstn 10 sorted_coins in
  (rows <- for_enumerate (leaderboard_row total_mentions max_count) 0 sorted_coins ;;
   let hm_max := first_count top10 1 in
   heat <- for_enumerate (heatmap_row hm_max) 0 top10 ;;
   Ok {| rp_thread_count := thread_count;
         rp_coin_count := List.length coin_counts;
         rp_total_mentions := total_mentions;
         rp_top_sym := option_map fst (hd_error sorted_coins);
         rp_top_cnt := first_count sorted_coins 0;
         rp_rows := rows;
         rp_heatmap := heat;
         rp_threads := map thread_entry hot_threads |})%result.

(** ** The run: [fetch_catalog] and [main] *)

(** [for page in catalog: threads.extend(page.get("threads", []))] *)
Fixpoint extend_threads (pages : list json) (threads : list json)
  : result (list json) :=
  match pages with
  | [] => Ok threads
  | page :: r =>
      (v <- py_get page (str "threads") (JArray []) ;;
       items <- py_iter v ;;
       extend_threads r (threads ++ items))%result
  end.

(** What the network answers to the one request of a run:
    [requests.get] raises, or returns a response with a status and a body.
    The body is what [resp.json()] does with it: it returns the value of
    the JSON text, or raises (a [JSONDecodeError] on a body that is no
    JSON). *)
Inductive http_outcome :=
| GetRaises (e : exn)
| GetReturns (status : Z) (body : result json).

(** The lines printed on the console. *)
Inductive message :=
| MsgRule                                     (* "=" * 50 *)
| MsgTitle                                    (* "  /biz/ Crypto Tracker" *)
| MsgFetching                                 (* fetching the catalog *)
| MsgFetched (n : nat)                        (* number of threads fetched *)
| MsgAnalyzing                                (* analysing the threads *)
| MsgNoCoins                                  (* no coin mention recognised *)
| MsgSummary (coins : nat) (mentions : Z)     (* coins recognised, mentions *)
| MsgTableHeader
| MsgTableRule                                (* "-" * 46 *)
| MsgTableRow (i : nat) (sym full_name : pystr) (count : Z) (bar : nat)
| MsgReportWritten (file : pystr)             (* the report was generated *)
| MsgNetworkError (e : exn)                   (* network error: str(e) *)
| MsgError (e : exn).                         (* error: str(e) *)

Inductive event :=
| Print (m : message)
| HttpGet (url : pystr) (timeout : Z)
| OpenFile (name : pystr)                     (* created or emptied *)
| WriteFile (name : pystr) (doc : report).

(** A computation appends its events to the trace and returns or raises. *)
Definition io (A : Type) := list event -> list event * result A.

Definition ret {A} (a : A) : io A := fun tr => (tr, Ok a).
Definition throw {A} (e : exn) : io A := fun tr => (tr, Raise e).
Definition emit (ev : event) : io unit := fun tr => (tr ++ [ev], Ok tt).
Definition lift {A} (r : result A) : io A := fun tr => (tr, r).

Definition io_bind {A B} (m : io A) (k : A -> io B) : io B :=
  fun tr =>
    match m tr with
    | (tr', Ok a) => k a tr'
    | (tr', Raise e) => (tr', Raise e)
    end.

(** [try: m  except ...: h(e)] *)
Definition try_except {A} (m : io A) (h : exn -> io A) : io A :=
  fun tr =>
    match m tr with
    | (tr', Ok a) => (tr', Ok a)
    | (tr', Raise e) => h e tr'
    end.

Declare Scope io_scope.
Delimit Scope io_scope with io.
Notation "x <- m ;; k" := (io_bind m (fun x => k))
  (at level 61, m at next level, right associativity) : io_scope.
Notation "m ;; k" := (io_bind m (fun _ => k))
  (at level 61, right associativity) : io_scope.

Definition catalog_url : pystr := Eval cbv in
  str "https://a.4cdn.org/biz/catalog.json".

Definition output_file : pystr := Eval cbv in str "index.html".

(** [resp.raise_for_status()] *)
Definition raise_for_status (status : Z) : io unit :=
  if ((400 <=? status) && (status <? 600))%Z then throw (HTTPError status)
  else ret tt.

(** The code points from U+D800 to U+DFFF, which UTF-8 does not encode. *)
Definition is_surrogate (c : char) : bool :=
  ((55296 <=? c) && (c <=? 57343))%N.

(** The characters that [f"{v}"] takes from the strings of the data.
    Only a value that is a string gives its own characters; the text of any
    other value (a number, [None], a list or dict with the [repr] of its
    items, which escapes a surrogate) holds no surrogate. *)
Definition json_text (v : json) : pystr :=
  match v with JStr s => s | _ => [] end.

(** The text that the data bring into the document: symbols, names, and
    the texts, ids and reply counts of the threads.  The template around
    them and the numbers hold no surrogate. *)
Definition report_text (doc : report) : pystr :=
  List.concat (map (fun r => r_sym r ++ r_full_name r) (rp_rows doc))
  ++ List.concat (map hm_sym (rp_heatmap doc))
  ++ List.concat (map (fun t => List.concat (ti_tags t) ++ ti_sub t
                                ++ json_text (ti_no t)
                                ++ json_text (ti_replies t))
                      (rp_threads doc))
  ++ match rp_top_sym doc with Some sym => sym | None => [] end.

(** What the file system answers to the writing of the document. *)
Inductive disk_answer :=
| DiskTakes                      (* the file is opened and takes the text *)
| OpenFails (cause : pystr)      (* [open] raises an [OSError] *)
| WriteFails (cause : pystr).    (* the file is opened, and writing or
                                    closing it raises an [OSError] *)

(** [with open(name, "w", encoding="utf-8") as f: f.write(doc)].
    Opening creates or empties the file.  Writing first encodes the
    document, and raises when the text holds a surrogate. *)
Definition write_document (disk : disk_answer) (name : pystr) (doc : report)
  : io unit :=
  match disk with
  | OpenFails cause => throw (OSError cause)
  | _ =>
      (emit (OpenFile name) ;;
       if existsb is_surrogate (report_text doc) then throw UnicodeEncodeError
       else match disk with
            | WriteFails cause => throw (OSError cause)
            | _ => emit (WriteFile name doc)
            end)%io
  end.

Section Run.
Variable uni_alnum : char -> bool.
Variable uni_lower : pystr -> char -> pystr -> pystr.
Variable set_rank : pyset -> pystr -> Z.

(** The world of a run: the answer of the network to its request; what
    the console answers to a line, [None] when it takes the line and else
    the exception that [print] raises (a [UnicodeEncodeError] where the
    encoding of the console lacks a character of the line, an [OSError]
    where the console is closed); and the answer of the file system. *)
Variable net : http_outcome.
Variable console : message -> option exn.
Variable disk : disk_answer.

(** [print(...)] *)
Definition print (m : message) : io unit :=
  match console m with
  | None => emit (Print m)
  | Some e => throw e
  end.

(** [requests.get(url, headers=HEADERS, timeout=20)] *)
Definition requests_get (url : pystr) (timeout : Z)
  : io (Z * result json) :=
  (emit (HttpGet url timeout) ;;
   match net with
   | GetRaises e => throw e
   | GetReturns status body => ret (status, body)
   end)%io.

Definition fetch_catalog : io (list json) :=
  (print MsgFetching ;;
   resp <- requests_get catalog_url 20 ;;
   raise_for_status (fst resp) ;;
   catalog <- lift (snd resp) ;;
   pages <- lift (py_iter catalog) ;;
   threads <- lift (extend_threads pages []) ;;
   print (MsgFetched (List.length threads)) ;;
   ret threads)%io.

Definition print_row (i : nat) (kv : pystr * coin_stat) : io unit :=
  let (sym, data) := kv in
  print (MsgTableRow i sym
           (match dict_get sym COINS with Some n => n | None => [] end)
           (count data)
           (Z.to_nat (Z.min (count data) 30))).

Fixpoint print_rows (i : nat) (l : dict coin_stat) : io unit :=
  match l with
  | [] => ret tt
  | kv :: r => (print_row i kv ;; print_rows (S i) r)%io
  end.

(** The body of the [try] block. *)
Definition main_body : io unit :=
  (threads <- fetch_catalog ;;
   print MsgAnalyzing ;;
   analysis <- lift (analyze uni_alnum uni_lower set_rank threads) ;;
   let (coin_counts, hot_threads) :=
     analysis : dict coin_stat * list hot_thread in
   match coin_counts with
   | [] => print MsgNoCoins
   | _ :: _ =>
       print (MsgSummary (List.length coin_counts) (sum_counts coin_counts)) ;;
       print MsgTableHeader ;;
       print MsgTableRule ;;
       let sorted_coins := sorted_desc stat_count coin_counts in
       print_rows 1 (firstn 20 sorted_coins) ;;
       html <- lift (generate_html coin_counts hot_threads (List.length threads)) ;;
       write_document disk output_file html ;;
       print (MsgReportWritten output_file)
   end)%io.

Definition main : io unit :=
  (print MsgRule ;;
   print MsgTitle ;;
   print MsgRule ;;
   try_except main_body
     (fun e =>
        if is_RequestException e
        then print (MsgNetworkError e)
        else (print (MsgError e) ;; throw e)))%io.

(** A run of the program: the events it performs and how it ends
    ([Ok]: [main] returns and the process exits with status 0;
    [Raise e]: [e] leaves [main], the interpreter prints the traceback and
    exits with a non-zero status). *)
Definition run : list event * result unit := main [].
End Run.

(** ** Vocabulary of the statements *)

Section Words.
Variable uni_alnum : char -> bool.

(** [w] stands in [s] as a whole word: no word character right before it
    and none right after it. *)
Definition whole_word_occ (w s : pystr) : Prop :=
  exists pre post,
    s = pre ++ w ++ post
    /\ opt_word uni_alnum (last_of None pre) = false
    /\ opt_word uni_alnum (hd_error post) = false.

(** Two to eight uppercase ASCII letters. *)
Definition symbol_token (w : pystr) : Prop :=
  2 <= List.length w <= 8 /\ forallb is_AZ w = true.
End Words.

(** The end of the text, or an ASCII character that is no word character:
    neither a letter, nor a digit, nor the underscore. *)
Definition ascii_delim (o : option char) : bool :=
  match o with
  | None => true
  | Some c =>
      is_ascii c && negb (is_az c || is_AZ c || is_09 c || (c =? 95)%N)
  end.

(** [s] starts with a tag, ["<"], one or more characters other than [">"],
    and [">"], and [rest] follows the tag. *)
Definition tag_prefix (s rest : pystr) : Prop :=
  exists body,
    body <> [] /\ ~ In 62%N body /\ s = 60%N :: body ++ 62%N :: rest.

Section Found.
Variable uni_alnum : char -> bool.

(** [sym] is the symbol of an alias that stands in [low] as a whole word. *)
Definition alias_symbol (low sym : pystr) : Prop :=
  exists alias, In (alias, sym) ALIASES /\ whole_word_occ uni_alnum alias low.

(** [sym] is a key of the coin table that stands in [clean] as a whole
    word of two to eight capitals. *)
Definition direct_symbol (clean sym : pystr) : Prop :=
  In sym (keys COINS) /\ symbol_token sym /\ whole_word_occ uni_alnum sym clean.
End Found.

(** The parameters at which the examples are evaluated: on ASCII text the
    first two are never consulted, and equal ranks leave a set in the order
    of its additions. *)
Definition no_alnum : char -> bool := fun _ => false.
Definition same_lower : pystr -> char -> pystr -> pystr := fun _ c _ => [c].
Definition equal_rank : pyset -> pystr -> Z := fun _ _ => 0%Z.


(** *** The fields of a thread *)

(** The value of the field [k] of [t], when [t] is an object with that
    field. *)
Definition field (t : json) (k : pystr) : option json :=
  match t with
  | JObject members => dict_get k members
  | _ => None
  end.

(** The text of a field: its string, and no text when the field is
    missing or holds no string. *)
Definition field_text (t : json) (k : pystr) : pystr :=
  match field t k with
  | Some (JStr s) => s
  | _ => []
  end.

Definition subject (t : json) : pystr := field_text t (str "sub").
Definition body_text (t : json) : pystr := field_text t (str "com").

(** The combined text of a thread: subject, a space, body. *)
Definition combined_text (t : json) : pystr :=
  subject t ++ 32%N :: body_text t.

(** The id of a thread, [None] when it has none, and the value of its
    reply count, 0 when it has none. *)
Definition thread_id (t : json) : json :=
  match field t (str "no") with Some v => v | None => JNull end.

Definition reply_value (t : json) : json :=
  match field t (str "replies") with Some v => v | None => JInt 0 end.

(** The integer of a value that is one. *)
Definition int_key (v : json) : Z :=
  match v with JInt r => r | _ => 0%Z end.

(** A field that can go into the combined text: missing, a string, or a
    value that counts as false ([null], [0], [false], an empty list or
    object). *)
Definition text_or_false (o : option json) : bool :=
  match o with
  | None => true
  | Some (JStr _) => true
  | Some v => negb (json_truthy v)
  end.

(** [t] has the shape of a thread: an object whose subject and body, where
    it has them, are strings or count as false. *)
Definition thread_shaped (t : json) : bool :=
  match t with
  | JObject _ =>
      text_or_false (field t (str "sub")) && text_or_false (field t (str "com"))
  | _ => false
  end.

(** A thread record: a value of the shape of a thread whose reply count,
    where it has one, is an integer. *)
Definition thread_record (t : json) : bool :=
  thread_shaped t
  && match field t (str "replies") with
     | Some (JInt _) | None => true
     | Some _ => false
     end.

(** What the loop of [analyze] raises on a value without that shape. *)
Definition shape_error (t : json) : exn :=
  match t with
  | JObject _ => TypeError
  | _ => AttributeError
  end.

(** [n] is the number of distinct elements of [l]. *)
Definition distinct_count {A} (l : list A) (n : nat) : Prop :=
  exists d, NoDup d /\ (forall x, In x d <-> In x l) /\ List.length d = n.

Section Mentions.
Variable uni_alnum : char -> bool.
Variable uni_lower : pystr -> char -> pystr -> pystr.
Variable set_rank : pyset -> pystr -> Z.

(** The symbols extracted from the combined text of a thread. *)
Definition coins_of (t : json) : list pystr :=
  extract_coins uni_alnum uni_lower set_rank (Some (combined_text t)).

(** The thread's text mentions [sym]. *)
Definition mentions (sym : pystr) (t : json) : bool :=
  set_mem sym (coins_of t).

(** The thread's text mentions some coin. *)
Definition mentions_any (t : json) : bool :=
  match coins_of t with
  | [] => false
  | _ :: _ => true
  end.

(** The record of a thread in the working list of hot threads. *)
Definition hot_record (t : json) : hot_thread :=
  {| h_no := thread_id t;
     h_sub := match subject t with
              | [] => firstn 80 (body_text t)
              | c :: s => c :: s
              end;
     h_coins := coins_of t;
     h_replies := reply_value t |}.

(** What one thread of that shape adds to the two aggregates. *)
Definition count_thread (acc : dict coin_stat * list hot_thread) (t : json)
  : dict coin_stat * list hot_thread :=
  (fold_left (record_mention (thread_id t)) (coins_of t) (fst acc),
   match coins_of t with
   | [] => snd acc
   | _ :: _ => snd acc ++ [hot_record t]
   end).
End Mentions.

(** [d[sym]] as a [defaultdict] reads it. *)
Definition stat_or_default (d : dict coin_stat) (sym : pystr) : coin_stat :=
  match dict_get sym d with Some st => st | None => default_stat end.

(** Sums of a list of integers and of a list of rationals. *)
Definition Zsum (l : list Z) : Z := fold_right Z.add 0%Z l.
Definition Qsum (l : list Q) : Q := fold_right Qplus 0%Q l.

(** The exception with which the request of a run fails in transport, if
    it does: [requests.get] raises a [RequestException] (connection failure,
    timeout), or the response carries an error status. *)
Definition transport_error (net : http_outcome) : option exn :=
  match net with
  | GetRaises e => if is_RequestException e then Some e else None
  | GetReturns status _ =>
      if ((400 <=? status) && (status <? 600))%Z then Some (HTTPError status)
      else None
  end.

(** A console that takes every line. *)
Definition utf8_console : message -> option exn := fun _ => None.

(** The events of every run up to the answer of the network. *)
Definition run_prefix : list event :=
  [ Print MsgRule; Print MsgTitle; Print MsgRule;
    Print MsgFetching; HttpGet catalog_url 20 ].

Definition is_write (ev : event) : bool :=
  match ev with WriteFile _ _ => true | _ => false end.

Definition is_request (ev : event) : bool :=
  match ev with HttpGet _ _ => true | _ => false end.

(** The leaderboard row of an item, when no division fails. *)
Definition row_of (total max_count : Z) (i : nat) (kv : pystr * coin_stat)
  : coin_row :=
  {| r_index := i;
     r_sym := fst kv;
     r_full_name := match dict_get (fst kv) COINS with
                    | Some n => n
                    | None => []
                    end;
     r_count := stat_count kv;
     r_bar_w := (inject_Z (stat_count kv) / inject_Z max_count * 100)%Q;
     r_pct := if (total =? 0)%Z then 0%Q
              else (inject_Z (stat_count kv) / inject_Z total * 100)%Q |}.

(** [a] is ranked no lower than [b]. *)
Definition ge_key {A} (key : A -> Z) (a b : A) : Prop := (key b <= key a)%Z.

(** ** Further vocabulary *)

(** The console line of one item of the ranking, at rank [i]. *)
Definition table_row (i : nat) (kv : pystr * coin_stat) : message :=
  MsgTableRow i (fst kv)
    (match dict_get (fst kv) COINS with Some n => n | None => [] end)
    (stat_count kv)
    (Z.to_nat (Z.min (stat_count kv) 30)).

(** [enumerate(l, i)] *)
Definition enumerate_from {A} (i : nat) (l : list A) : list (nat * A) :=
  combine (seq i (List.length l)) l.

(** The heat-map row of an item, when no division fails. *)
Definition heat_of (hm_max : Z) (i : nat) (kv : pystr * coin_stat) : heat_row :=
  {| hm_sym := fst kv;
     hm_w := (inject_Z (stat_count kv) / inject_Z hm_max * 100)%Q;
     hm_color := Nat.min i 9;
     hm_count := stat_count kv |}.

Definition is_table_row (ev : event) : bool :=
  match ev with Print (MsgTableRow _ _ _ _ _) => true | _ => false end.

(** What [fetch_catalog] returns or raises, from the answer of the
    network: the exception of the request, an [HTTPError] for an error
    status, the exception of the decoding, or what the loop over the pages
    of the catalog returns or raises. *)
Definition fetch_result (net : http_outcome) : result (list json) :=
  match net with
  | GetRaises e => Raise e
  | GetReturns status body =>
      if ((400 <=? status) && (status <? 600))%Z then Raise (HTTPError status)
      else (catalog <- body ;;
            pages <- py_iter catalog ;;
            extend_threads pages [])%result
  end.

(** The console lines of the ranking: the first twenty items, ranks from 1. *)
Definition table_events (coin_counts : dict coin_stat) : list event :=
  map (fun p => Print (table_row (fst p) (snd p)))
      (enumerate_from 1 (firstn 20 (sorted_desc stat_count coin_counts))).

(** A row of the console table has a rank from 1 to 20 and a bar of
    [min(count, 30)] glyphs (none for a count below 1). *)
Definition table_row_ok (ev : event) : Prop :=
  match ev with
  | Print (MsgTableRow i _ _ c bar) =>
      1 <= i <= 20 /\ bar = Z.to_nat (Z.min c 30) /\ bar <= 30
  | _ => True
  end.

(** Sample data on which the properties are evaluated: three threads, the
    mapping and the hot threads that aggregation returns for them (a tie
    for the first place in the mapping), and a catalog of two pages, the
    second without threads. *)
Definition sample_counts : dict coin_stat :=
  [ (str "ETH", {| count := 2; threads := [JInt 7; JInt 9] |});
    (str "SOL", {| count := 1; threads := [JInt 7] |});
    (str "BTC", {| count := 2; threads := [JInt 8; JInt 9] |}) ].

Definition sample_hot : list hot_thread :=
  [ {| h_no := JInt 9; h_sub := str "ETH or BTC?";
       h_coins := [str "ETH"; str "BTC"]; h_replies := JInt 12 |};
    {| h_no := JInt 7; h_sub := str "solana and ether";
       h_coins := [str "ETH"; str "SOL"]; h_replies := JInt 3 |};
    {| h_no := JInt 8; h_sub := str "just <i>BTC</i>";
       h_coins := [str "BTC"]; h_replies := JInt 0 |} ].

Definition sample_threads : list json :=
  [ JObject [ (str "no", JInt 7); (str "sub", JStr (str "solana and ether"));
              (str "replies", JInt 3) ];
    JObject [ (str "no", JInt 8); (str "com", JStr (str "just <i>BTC</i>")) ];
    JObject [ (str "no", JInt 9); (str "sub", JStr (str "ETH or BTC?"));
              (str "com", JNull); (str "replies", JInt 12) ] ].

Definition sample_net : http_outcome :=
  GetReturns 200
    (Ok (JArray [ JObject [ (str "page", JInt 1);
                            (str "threads", JArray sample_threads) ];
                  JObject [ (str "page", JInt 2) ] ])).

(** * Properties *)

(** ** Strings, sets and dictionaries *)

Lemma pystr_eqb_eq (a b : pystr) : pystr_eqb a b = true <-> a = b.
Proof.
  revert b; induction a as [|x a IH]; intros [|y b]; simpl;
    try (split; [discriminate | congruence]); try tauto.
  rewrite andb_true_iff, N.eqb_eq, IH. split.
  - intros [-> ->]; reflexivity.
  - intros H; inversion H; auto.
Qed.

Lemma pystr_eqb_refl (a : pystr) : pystr_eqb a a = true.
Proof. apply pystr_eqb_eq; reflexivity. Qed.

Lemma pystr_eqb_neq (a b : pystr) : pystr_eqb a b = false <-> a <> b.
Proof.
  rewrite <- pystr_eqb_eq. destruct (pystr_eqb a b); split; congruence.
Qed.

Lemma set_mem_In (x : pystr) (s : pyset) : set_mem x s = true <-> In x s.
Proof.
  unfold set_mem. rewrite existsb_exists. split.
  - intros [y [Hy E]]. apply pystr_eqb_eq in E. subst; assumption.
  - intros H. exists x. split; [assumption | apply pystr_eqb_refl].
Qed.

Lemma set_add_In (x y : pystr) (s : pyset) :
  In x (set_add y s) <-> x = y \/ In x s.
Proof.
  unfold set_add. destruct (set_mem y s) eqn:E.
  - apply set_mem_In in E. split; [auto | intros [-> | H]; assumption].
  - rewrite in_app_iff. simpl. intuition congruence.
Qed.

Lemma set_add_NoDup (y : pystr) (s : pyset) : NoDup s -> NoDup (set_add y s).
Proof.
  intros H. unfold set_add. destruct (set_mem y s) eqn:E; [assumption|].
  assert (~ In y s) as Hn by (rewrite <- set_mem_In; congruence).
  clear E. induction H as [|z s Hz Hs IH]; simpl.
  - constructor; [intros [] | constructor].
  - constructor.
    + rewrite in_app_iff. simpl. intros [H1 | [H1 | []]]; [tauto|].
      apply Hn. left. congruence.
    + apply IH. intros H1. apply Hn. right. assumption.
Qed.

Lemma dict_get_In_keys {V} (k : pystr) (d : dict V) :
  dict_mem k d = true <-> In k (keys d).
Proof.
  unfold dict_mem, keys. induction d as [|[k' v] d IH]; simpl.
  - split; [discriminate | tauto].
  - destruct (pystr_eqb k k') eqn:E.
    + apply pystr_eqb_eq in E. subst. tauto.
    + apply pystr_eqb_neq in E. rewrite IH. intuition congruence.
Qed.

Lemma In_firstn {A} (x : A) (n : nat) (l : list A) :
  In x (firstn n l) -> In x l.
Proof.
  revert l; induction n as [|n IH]; intros [|y l]; simpl; try tauto.
  intros [H | H]; [left; assumption | right; apply IH; assumption].
Qed.

(** ** The stable sort *)

Section SortingFacts.
Variable A : Type.
Variable key : A -> Z.

Lemma insert_desc_perm (x : A) (l : list A) :
  Permutation (insert_desc key x l) (x :: l).
Proof.
  induction l as [|y r IH]; simpl; [reflexivity|].
  destruct (key x <? key y)%Z; [|reflexivity].
  rewrite IH. apply perm_swap.
Qed.

Lemma sorted_desc_perm (l : list A) : Permutation (sorted_desc key l) l.
Proof.
  induction l as [|x r IH]; simpl; [reflexivity|].
  rewrite insert_desc_perm. constructor. assumption.
Qed.

Lemma insert_desc_sorted (x : A) (l : list A) :
  StronglySorted (ge_key key) l -> StronglySorted (ge_key key) (insert_desc key x l).
Proof.
  induction 1 as [|y r Hr IH Hy]; simpl.
  - repeat constructor.
  - destruct (key x <? key y)%Z eqn:E.
    + constructor; [assumption|].
      eapply Permutation_Forall;
        [apply Permutation_sym, insert_desc_perm|].
      constructor; [|assumption].
      apply Z.ltb_lt in E. unfold ge_key. lia.
    + apply Z.ltb_ge in E. constructor; [constructor; assumption|].
      constructor; [exact E|].
      rewrite Forall_forall in *. intros z Hz.
      specialize (Hy z Hz). unfold ge_key in *. lia.
Qed.

Lemma sorted_desc_sorted (l : list A) : StronglySorted (ge_key key) (sorted_desc key l).
Proof.
  induction l as [|x r IH]; simpl; [constructor|].
  apply insert_desc_sorted. assumption.
Qed.

(** Stability: the elements of any one key come out in the order they
    came in. *)
Lemma insert_desc_stable (k : Z) (x : A) (l : list A) :
  filter (fun a => (key a =? k)%Z) (insert_desc key x l)
  = filter (fun a => (key a =? k)%Z) (x :: l).
Proof.
  induction l as [|y r IH]; [reflexivity|].
  simpl insert_desc. destruct (key x <? key y)%Z eqn:E; [|reflexivity].
  apply Z.ltb_lt in E. simpl in *. rewrite IH.
  destruct (key x =? k)%Z eqn:Ex, (key y =? k)%Z eqn:Ey; try reflexivity.
  apply Z.eqb_eq in Ex, Ey. lia.
Qed.

Lemma sorted_desc_stable (k : Z) (l : list A) :
  filter (fun a => (key a =? k)%Z) (sorted_desc key l)
  = filter (fun a => (key a =? k)%Z) l.
Proof.
  induction l as [|x r IH]; [reflexivity|].
  simpl sorted_desc. rewrite insert_desc_stable. simpl. rewrite IH.
  reflexivity.
Qed.

Lemma StronglySorted_firstn (R : A -> A -> Prop) (n : nat) (l : list A) :
  StronglySorted R l -> StronglySorted R (firstn n l).
Proof.
  intros H. revert n. induction H as [|x l Hl IH Hx]; intros [|n]; simpl;
    try constructor.
  - apply IH.
  - rewrite Forall_forall in *. intros y Hy. apply Hx.
    eapply In_firstn; eassumption.
Qed.
End SortingFacts.

(** ** Tag stripping *)

Lemma sub_tags_skip (k : nat) (l rest : pystr) :
  k = List.length l -> sub_tags k (l ++ rest) = sub_tags 0 rest.
Proof.
  intros ->. induction l as [|c l IH]; [reflexivity | exact IH].
Qed.

Lemma tag_close_first (body rest : pystr) :
  ~ In 62%N body -> tag_close (body ++ 62%N :: rest) = Some (S (List.length body)).
Proof.
  induction body as [|c body IH]; intros Hn; simpl.
  - reflexivity.
  - destruct (c =? 62)%N eqn:E.
    + apply N.eqb_eq in E. subst c. exfalso. apply Hn. left. reflexivity.
    + rewrite IH; [reflexivity|]. intros H. apply Hn. right. exact H.
Qed.

Lemma sub_tags_cons (c : char) (r : pystr) :
  sub_tags 0 (c :: r)
  = match match_tag (c :: r) with
    | Some n => 32%N :: sub_tags (n - 1) r
    | None => c :: sub_tags 0 r
    end.
Proof. reflexivity. Qed.

Lemma match_tag_tag (d : char) (body rest : pystr) :
  d <> 62%N -> ~ In 62%N body ->
  match_tag (60%N :: d :: body ++ 62%N :: rest)
  = Some (S (S (S (List.length body)))).
Proof.
  intros Hd Hn. unfold match_tag. apply N.eqb_neq in Hd. rewrite Hd.
  cbn [N.eqb Pos.eqb andb negb]. rewrite tag_close_first by exact Hn.
  reflexivity.
Qed.

(** A tag is replaced by one space, and the scan goes on after it. *)
Lemma strip_tags_tag (s rest : pystr) :
  tag_prefix s rest -> strip_tags s = 32%N :: strip_tags rest.
Proof.
  intros [body [Hne [Hn ->]]]. destruct body as [|d body]; [congruence|].
  unfold strip_tags. cbn [app]. rewrite sub_tags_cons, match_tag_tag.
  - f_equal. cbn [Nat.sub].
    replace (d :: body ++ 62%N :: rest) with ((d :: body ++ [62%N]) ++ rest)
      by (simpl; rewrite <- app_assoc; reflexivity).
    apply sub_tags_skip. simpl. rewrite length_app, Nat.add_1_r. reflexivity.
  - intros ->. apply Hn. left. reflexivity.
  - intros H. apply Hn. right. exact H.
Qed.

Lemma tag_close_Some (s : pystr) (n : nat) :
  tag_close s = Some n ->
  exists body rest,
    s = body ++ 62%N :: rest /\ ~ In 62%N body /\ n = S (List.length body).
Proof.
  revert n; induction s as [|c r IH]; intros n; simpl; [discriminate|].
  destruct (c =? 62)%N eqn:E.
  - apply N.eqb_eq in E. subst c. intros H. inversion H.
    exists [], r. simpl. auto.
  - destruct (tag_close r) as [m|]; [|discriminate]. simpl. intros H.
    inversion H; subst n. destruct (IH m eq_refl) as [body [rest [-> [Hn ->]]]].
    exists (c :: body), rest. simpl. repeat split.
    apply N.eqb_neq in E. intros [H1 | H1]; [congruence | contradiction].
Qed.

Lemma match_tag_Some (s : pystr) (n : nat) :
  match_tag s = Some n -> exists rest, tag_prefix s rest.
Proof.
  unfold match_tag, tag_prefix. destruct s as [|c [|d r]]; try discriminate.
  destruct (c =? 60)%N eqn:Ec; [|discriminate].
  destruct (d =? 62)%N eqn:Ed; [discriminate|]. cbn [andb negb].
  destruct (tag_close r) as [m|] eqn:Et; [|discriminate]. intros _.
  apply tag_close_Some in Et as [body [rest [-> [Hn _]]]].
  apply N.eqb_eq in Ec. apply N.eqb_neq in Ed. subst c.
  exists rest, (d :: body). split; [discriminate | split; [|reflexivity]].
  intros [H | H]; [congruence | contradiction].
Qed.

(** Where no tag starts, the character is kept. *)
Lemma strip_tags_no_tag (c : char) (r : pystr) :
  (forall rest, ~ tag_prefix (c :: r) rest) ->
  strip_tags (c :: r) = c :: strip_tags r.
Proof.
  intros Hn. unfold strip_tags. rewrite sub_tags_cons.
  destruct (match_tag (c :: r)) as [n|] eqn:E; [|reflexivity].
  apply match_tag_Some in E as [rest H]. destruct (Hn rest H).
Qed.

(** Text without ["<"] is left as it is. *)
Lemma strip_tags_plain (s : pystr) : ~ In 60%N s -> strip_tags s = s.
Proof.
  unfold strip_tags. induction s as [|c r IH]; intros Hn; [reflexivity|].
  rewrite sub_tags_cons.
  assert (match_tag (c :: r) = None) as ->.
  { unfold match_tag. destruct r as [|d r']; [reflexivity|].
    assert ((c =? 60)%N = false) as ->; [|reflexivity].
    apply N.eqb_neq. intros ->. apply Hn. left. reflexivity. }
  rewrite IH; [reflexivity|]. intros H. apply Hn. right. exact H.
Qed.


(** ** The matchers of [extract_coins] *)

Section ExtractorFacts.
Variable uni_alnum : char -> bool.
Variable uni_lower : pystr -> char -> pystr -> pystr.
Variable set_rank : pyset -> pystr -> Z.

Local Abbreviation isw := (is_word uni_alnum).
Local Abbreviation optw := (opt_word uni_alnum).
Local Abbreviation wb := (word_boundary uni_alnum).

Lemma is_AZ_word (c : char) : is_AZ c = true -> isw c = true.
Proof.
  intros H. unfold is_word, is_ascii. rewrite H.
  unfold is_AZ in H. apply andb_true_iff in H as [_ H].
  apply N.leb_le in H.
  replace (c <? 128)%N with true by (symmetry; apply N.ltb_lt; lia).
  rewrite orb_true_r. reflexivity.
Qed.

Lemma is_az_word (c : char) : is_az c = true -> isw c = true.
Proof.
  intros H. unfold is_word, is_ascii. rewrite H.
  unfold is_az in H. apply andb_true_iff in H as [_ H].
  apply N.leb_le in H.
  replace (c <? 128)%N with true by (symmetry; apply N.ltb_lt; lia).
  reflexivity.
Qed.

Lemma forallb_AZ_word (w : pystr) :
  forallb is_AZ w = true -> forallb isw w = true.
Proof.
  rewrite !forallb_forall. intros H c Hc. apply is_AZ_word, H, Hc.
Qed.

Lemma word_boundary_after_word (c : char) (o : option char) :
  isw c = true -> wb (Some c) o = negb (optw o).
Proof. intros H. unfold word_boundary. simpl. rewrite H. reflexivity. Qed.

Lemma word_boundary_before_word (c : char) (o : option char) :
  isw c = true -> wb o (Some c) = negb (optw o).
Proof.
  intros H. unfold word_boundary. simpl. rewrite H.
  destruct (optw o); reflexivity.
Qed.

Lemma last_of_cons (prev : option char) (c : char) (r : pystr) :
  last_of prev (c :: r) = last_of (Some c) r.
Proof. destruct r; reflexivity. Qed.

Lemma last_of_snoc (prev : option char) (p : pystr) (c : char) :
  last_of prev (p ++ [c]) = Some c.
Proof.
  revert prev; induction p as [|x p IH]; intros prev; [reflexivity|].
  change ((x :: p) ++ [c]) with (x :: (p ++ [c])).
  rewrite last_of_cons. apply IH.
Qed.

Lemma nth_error_app_length (p post : pystr) :
  nth_error (p ++ post) (List.length p) = hd_error post.
Proof.
  induction p as [|x p IH]; simpl; [destruct post; reflexivity | exact IH].
Qed.

(** *** The alias pattern *)

Lemma starts_with_spec (p s : pystr) :
  starts_with p s = true <-> exists post, s = p ++ post.
Proof.
  revert s; induction p as [|x p IH]; intros s; simpl.
  - split; [intros _; exists s; reflexivity | reflexivity].
  - destruct s as [|y s].
    + split; [discriminate | intros [post H]; discriminate].
    + rewrite andb_true_iff, N.eqb_eq, IH. split.
      * intros [-> [post ->]]. exists post. reflexivity.
      * intros [post H]. inversion H. split; [reflexivity | exists post; reflexivity].
Qed.

Section OneAlias.
Variable alias : pystr.
Hypothesis alias_first : optw (hd_error alias) = true.
Hypothesis alias_last : optw (last_of None alias) = true.

Lemma match_alias_spec (prev : option char) (s : pystr) :
  match_alias uni_alnum alias prev s = true
  <-> optw prev = false
      /\ exists post, s = alias ++ post /\ optw (hd_error post) = false.
Proof.
  unfold match_alias. rewrite !andb_true_iff, starts_with_spec.
  destruct alias as [|a al] eqn:Ea; [discriminate alias_first|].
  rewrite <- Ea in *.
  assert (isw a = true) as Ha by (rewrite Ea in alias_first; exact alias_first).
  assert (exists z, last_of prev alias = Some z /\ isw z = true) as [z [Hz Hw]].
  { rewrite Ea in *. simpl in *. eexists; split; [reflexivity | exact alias_last]. }
  split.
  - intros [[Hb [post ->]] He].
    rewrite nth_error_app_length, Hz, word_boundary_after_word in He by assumption.
    rewrite Ea in Hb. simpl in Hb.
    rewrite word_boundary_before_word in Hb by assumption.
    apply negb_true_iff in Hb, He.
    split; [assumption | exists post; split; [reflexivity | assumption]].
  - intros [Hp [post [-> He]]].
    rewrite nth_error_app_length, Hz, word_boundary_after_word by assumption.
    rewrite He. split; [split; [|exists post; reflexivity] | reflexivity].
    rewrite Ea. simpl. rewrite word_boundary_before_word by assumption.
    rewrite Hp. reflexivity.
Qed.

Lemma search_from_eq (prev : option char) (s : pystr) :
  search_from uni_alnum alias prev s
  = match_alias uni_alnum alias prev s
    || match s with
       | [] => false
       | c :: r => search_from uni_alnum alias (Some c) r
       end.
Proof. destruct s; reflexivity. Qed.

Lemma search_from_spec (s : pystr) (prev : option char) :
  search_from uni_alnum alias prev s = true
  <-> exists pre post,
        s = pre ++ alias ++ post
        /\ optw (last_of prev pre) = false
        /\ optw (hd_error post) = false.
Proof.
  revert prev; induction s as [|c r IH]; intros prev;
    rewrite search_from_eq, orb_true_iff, match_alias_spec.
  - split.
    + intros [[Hp [post [E He]]] | H]; [|discriminate].
      exists [], post. auto.
    + intros [pre [post [E [Hp He]]]]. left.
      destruct pre; [|discriminate]. simpl in *. eauto.
  - rewrite IH. split.
    + intros [[Hp [post [E He]]] | [pre [post [E [Hp He]]]]].
      * exists [], post. auto.
      * exists (c :: pre), post. rewrite last_of_cons. subst r. auto.
    + intros [pre [post [E [Hp He]]]]. destruct pre as [|x pre].
      * left. simpl in *. eauto.
      * right. simpl in E. inversion E; subst. rewrite last_of_cons in Hp.
        exists pre, post. auto.
Qed.

(** [re.search] finds the pattern exactly when the alias stands in the
    string as a whole word. *)
Lemma search_alias_spec (s : pystr) :
  search_alias uni_alnum alias s = true <-> whole_word_occ uni_alnum alias s.
Proof. apply search_from_spec. Qed.
End OneAlias.

(** *** The symbol pattern *)

Lemma run_AZ_split (bound : nat) (s : pystr) :
  exists w post,
    s = w ++ post /\ List.length w = run_AZ bound s
    /\ forallb is_AZ w = true /\ run_AZ bound s <= bound.
Proof.
  revert s; induction bound as [|b IH]; intros s.
  - exists [], s. simpl. destruct s; auto.
  - destruct s as [|c r]; [exists [], []; simpl; auto with arith|].
    simpl. destruct (is_AZ c) eqn:Ec.
    + destruct (IH r) as [w [post [E [Hl [Hw Hb]]]]].
      exists (c :: w), post. simpl. rewrite Ec, Hw, Hl, <- E.
      auto with arith.
    + exists [], (c :: r). simpl. auto with arith.
Qed.

Lemma run_AZ_exact (w post : pystr) (bound : nat) :
  forallb is_AZ w = true -> optw (hd_error post) = false ->
  List.length w <= bound -> run_AZ bound (w ++ post) = List.length w.
Proof.
  revert bound; induction w as [|c w IH]; intros bound Hw Hp Hb.
  - simpl. destruct bound; [reflexivity|]. destruct post as [|d post]; [reflexivity|].
    simpl in *. destruct (is_AZ d) eqn:Ed; [|reflexivity].
    apply is_AZ_word in Ed. congruence.
  - simpl in *. apply andb_true_iff in Hw as [Hc Hw].
    destruct bound as [|b]; [lia|]. simpl. rewrite Hc.
    rewrite IH; auto with arith.
Qed.

Lemma nth_error_app_succ (w post : pystr) (c : char) :
  nth_error (w ++ c :: post) (S (List.length w)) = hd_error post.
Proof.
  induction w as [|x w IH]; simpl; [destruct post; reflexivity | exact IH].
Qed.

Lemma backtrack_AZ_eq (j : nat) (s : pystr) :
  backtrack_AZ uni_alnum (S (S j)) s
  = if wb (nth_error s (S j)) (nth_error s (S (S j))) then Some (S (S j))
    else backtrack_AZ uni_alnum (S j) s.
Proof. reflexivity. Qed.

Lemma backtrack_AZ_fails (w post : pystr) :
  forallb isw w = true -> optw (hd_error post) = true ->
  backtrack_AZ uni_alnum (List.length w) (w ++ post) = None.
Proof.
  revert post; induction w as [|c w IH] using rev_ind; intros post Hw Hp;
    [reflexivity|].
  rewrite forallb_app in Hw. apply andb_true_iff in Hw as [Hw Hc].
  simpl in Hc. rewrite andb_true_r in Hc.
  specialize (IH (c :: post) Hw Hc).
  rewrite length_app, Nat.add_comm, <- app_assoc. cbn [List.length Nat.add app].
  destruct (List.length w) as [|j] eqn:El; [reflexivity|].
  rewrite backtrack_AZ_eq, IH, <- El.
  rewrite nth_error_app_length, nth_error_app_succ. cbn [hd_error].
  rewrite word_boundary_after_word, Hp by assumption. reflexivity.
Qed.

Lemma backtrack_AZ_succeeds (w post : pystr) :
  forallb isw w = true -> 2 <= List.length w -> optw (hd_error post) = false ->
  backtrack_AZ uni_alnum (List.length w) (w ++ post) = Some (List.length w).
Proof.
  intros Hw Hl Hp. destruct w as [|c w _] using rev_ind; [simpl in Hl; lia|].
  rewrite forallb_app in Hw. apply andb_true_iff in Hw as [Hw Hc].
  simpl in Hc. rewrite andb_true_r in Hc.
  rewrite length_app, Nat.add_comm in *. rewrite <- app_assoc.
  cbn [List.length Nat.add app] in *.
  destruct (List.length w) as [|j] eqn:El; [lia|].
  rewrite backtrack_AZ_eq, <- El.
  rewrite nth_error_app_length, nth_error_app_succ. cbn [hd_error].
  rewrite word_boundary_after_word, Hp by assumption. reflexivity.
Qed.

Lemma backtrack_AZ_short (k : nat) (s : pystr) :
  k < 2 -> backtrack_AZ uni_alnum k s = None.
Proof. destruct k as [|[|k]]; [reflexivity | reflexivity | lia]. Qed.

(** The pattern matches at a position exactly when a whole word of two to
    eight capitals starts there, and it matches that word. *)
Lemma match_symbol_spec (prev : option char) (s : pystr) (n : nat) :
  match_symbol uni_alnum prev s = Some n
  <-> optw prev = false
      /\ exists w post,
           s = w ++ post /\ List.length w = n /\ symbol_token w
           /\ optw (hd_error post) = false.
Proof.
  unfold match_symbol, symbol_token. split.
  - destruct (wb prev (hd_error s)) eqn:Hb; [|discriminate].
    destruct (run_AZ_split 8 s) as [w [post [E [Hl [Hw H8]]]]].
    rewrite <- Hl. rewrite E at 1. intros H.
    destruct (optw (hd_error post)) eqn:Hp.
    { rewrite backtrack_AZ_fails in H; auto using forallb_AZ_word. discriminate. }
    destruct (Nat.lt_ge_cases (List.length w) 2) as [Hlt | Hge].
    { rewrite backtrack_AZ_short in H by assumption. discriminate. }
    rewrite backtrack_AZ_succeeds in H; auto using forallb_AZ_word.
    inversion H; subst n. split.
    + destruct w as [|c w]; [simpl in Hge; lia|]. rewrite E in Hb. simpl in *.
      apply andb_true_iff in Hw as [Hc _]. apply is_AZ_word in Hc.
      rewrite word_boundary_before_word in Hb by assumption.
      apply negb_true_iff in Hb. exact Hb.
    + exists w, post. repeat split; auto; lia.
  - intros [Hp [w [post [-> [<- [[Hl Hw] He]]]]]].
    assert (wb prev (hd_error (w ++ post)) = true) as ->.
    { destruct w as [|c w]; [simpl in Hl; lia|]. simpl in *.
      apply andb_true_iff in Hw as [Hc _]. apply is_AZ_word in Hc.
      rewrite word_boundary_before_word, Hp by assumption. reflexivity. }
    rewrite run_AZ_exact by (auto; lia).
    apply backtrack_AZ_succeeds; auto using forallb_AZ_word. lia.
Qed.

(** Two words that start at the same place are the same word. *)
Lemma whole_word_unique (w1 w2 post1 post2 : pystr) :
  w1 ++ post1 = w2 ++ post2 ->
  forallb isw w1 = true -> forallb isw w2 = true ->
  optw (hd_error post1) = false -> optw (hd_error post2) = false ->
  w1 = w2.
Proof.
  intros E H1 H2 P1 P2.
  destruct (app_eq_app _ _ _ _ E) as [l [[-> ->] | [-> ->]]];
    (destruct l as [|c l]; [rewrite app_nil_r; reflexivity|]); exfalso.
  - rewrite forallb_app in H1. apply andb_true_iff in H1 as [_ H1].
    simpl in *. apply andb_true_iff in H1 as [H1 _]. congruence.
  - rewrite forallb_app in H2. apply andb_true_iff in H2 as [_ H2].
    simpl in *. apply andb_true_iff in H2 as [H2 _]. congruence.
Qed.

Lemma findall_from_spec (s : pystr) :
  forall (skip : nat) (prev : option char),
    (0 < skip -> optw prev = true) ->
    forallb isw (firstn skip s) = true ->
    forall w,
      In w (findall_from uni_alnum skip prev s)
      <-> exists pre post,
            s = pre ++ w ++ post /\ symbol_token w
            /\ optw (last_of prev pre) = false
            /\ optw (hd_error post) = false.
Proof.
  induction s as [|c r IH]; intros skip prev Hprev Hskip w.
  - simpl. split; [tauto|].
    intros [pre [post [E [[[Hl _] _] _]]]].
    destruct pre; [|discriminate]. destruct w; [simpl in Hl; lia | discriminate].
  - destruct skip as [|k].
    + cbn [findall_from].
      destruct (match_symbol uni_alnum prev (c :: r)) as [n|] eqn:Em.
      * apply match_symbol_spec in Em as [Hp [w0 [post0 [E0 [Hn [Htok He0]]]]]].
        assert (firstn n (c :: r) = w0) as ->.
        { rewrite E0, <- Hn, firstn_app, Nat.sub_diag, firstn_all.
          simpl. apply app_nil_r. }
        destruct Htok as [Hl0 Hw0].
        destruct w0 as [|c0 w0]; [simpl in Hl0; lia|].
        simpl in E0. inversion E0; subst c0 r. clear E0.
        pose proof (forallb_AZ_word _ Hw0) as Hww0. simpl in Hww0.
        apply andb_true_iff in Hww0 as [Hc Hww0].
        simpl. rewrite IH; cycle 1.
        { intros _. exact Hc. }
        { subst n. simpl. rewrite Nat.sub_0_r, firstn_app, Nat.sub_diag, firstn_all.
          simpl. rewrite app_nil_r. exact Hww0. }
        split.
        -- intros [<- | [pre [post [E [Htok [Hpre Hpost]]]]]].
           ++ exists [], post0. unfold symbol_token. simpl. tauto.
           ++ exists (c :: pre), post. rewrite last_of_cons. simpl.
              rewrite E. auto.
        -- intros [pre [post [E [Htok [Hpre Hpost]]]]].
           destruct pre as [|x pre].
           ++ left. simpl in E. destruct Htok as [Hl Hw].
              symmetry. apply whole_word_unique with (post1 := post) (post2 := post0); auto.
              ** apply forallb_AZ_word; assumption.
              ** simpl. rewrite Hc. exact Hww0.
           ++ right. simpl in E. inversion E; subst x.
              rewrite last_of_cons in Hpre. exists pre, post. auto.
      * rewrite IH by (simpl; auto; intros H; inversion H). split.
        -- intros [pre [post [E [Htok [Hpre Hpost]]]]].
           exists (c :: pre), post. rewrite last_of_cons. simpl. rewrite E. auto.
        -- intros [pre [post [E [Htok [Hpre Hpost]]]]].
           destruct pre as [|x pre].
           ++ exfalso. simpl in *.
              assert (match_symbol uni_alnum prev (c :: r) = Some (List.length w)) as H.
              { apply match_symbol_spec. split; [assumption|].
                exists w, post. auto. }
              congruence.
           ++ simpl in E. inversion E; subst x.
              rewrite last_of_cons in Hpre. exists pre, post. auto.
    + cbn [findall_from]. simpl in Hskip.
      apply andb_true_iff in Hskip as [Hc Hskip].
      rewrite IH by (auto; intros _; exact Hc).
      specialize (Hprev (Nat.lt_0_succ k)). split.
      * intros [pre [post [E [Htok [Hpre Hpost]]]]].
        exists (c :: pre), post. rewrite last_of_cons. simpl. rewrite E. auto.
      * intros [pre [post [E [Htok [Hpre Hpost]]]]].
        destruct pre as [|x pre]; [simpl in Hpre; congruence|].
        simpl in E. inversion E; subst x.
        rewrite last_of_cons in Hpre. exists pre, post. auto.
Qed.

(** [re.findall] returns exactly the whole words of two to eight capitals. *)
Lemma findall_symbols_spec (s w : pystr) :
  In w (findall_symbols uni_alnum s)
  <-> symbol_token w /\ whole_word_occ uni_alnum w s.
Proof.
  unfold findall_symbols, whole_word_occ.
  rewrite findall_from_spec by (simpl; auto; intros H; inversion H).
  split.
  - intros [pre [post [E [Htok [Hpre Hpost]]]]]. split; [assumption|].
    exists pre, post. auto.
  - intros [Htok [pre [post [E [Hpre Hpost]]]]]. exists pre, post. auto.
Qed.

(** *** The two passes and the result *)

Lemma aliases_are_words (alias sym : pystr) :
  In (alias, sym) ALIASES ->
  optw (hd_error alias) = true /\ optw (last_of None alias) = true.
Proof.
  assert (forallb (fun kv : pystr * pystr =>
                     optw (hd_error (fst kv)) && optw (last_of None (fst kv)))
                  ALIASES = true) as H by (vm_compute; reflexivity).
  rewrite forallb_forall in H. intros Hin.
  apply H in Hin. apply andb_true_iff in Hin. exact Hin.
Qed.

Lemma alias_pass_In (low : pystr) (found : pyset) (sym : pystr) :
  In sym (alias_pass uni_alnum low found)
  <-> In sym found
      \/ exists alias, In (alias, sym) ALIASES
                       /\ search_alias uni_alnum alias low = true.
Proof.
  unfold alias_pass. revert found.
  induction ALIASES as [|[a s] al IH]; intros found; simpl.
  - split; [auto | intros [H | [alias [[] _]]]; exact H].
  - rewrite IH. destruct (search_alias uni_alnum a low) eqn:Es.
    + rewrite set_add_In. split.
      * intros [[-> | H] | [alias [Hin Hs]]]; eauto 6.
      * intros [H | [alias [[E | Hin] Hs]]]; eauto.
        inversion E; subst. auto.
    + split.
      * intros [H | [alias [Hin Hs]]]; eauto 6.
      * intros [H | [alias [[E | Hin] Hs]]]; eauto.
        inversion E; subst. congruence.
Qed.

Lemma alias_pass_NoDup (low : pystr) (found : pyset) :
  NoDup found -> NoDup (alias_pass uni_alnum low found).
Proof.
  unfold alias_pass. revert found.
  induction ALIASES as [|[a s] al IH]; intros found H; simpl; [exact H|].
  apply IH. destruct (search_alias uni_alnum a low); auto using set_add_NoDup.
Qed.

Lemma symbol_pass_In (clean : pystr) (found : pyset) (sym : pystr) :
  In sym (symbol_pass uni_alnum clean found)
  <-> In sym found
      \/ (In sym (findall_symbols uni_alnum clean) /\ In sym (keys COINS)).
Proof.
  unfold symbol_pass. revert found.
  induction (findall_symbols uni_alnum clean) as [|w ws IH]; intros found; simpl.
  - tauto.
  - rewrite IH. destruct (dict_mem w COINS) eqn:Ew.
    + apply dict_get_In_keys in Ew. rewrite set_add_In. split.
      * intros [[-> | H] | [H1 H2]]; auto.
      * intros [H | [[-> | H1] H2]]; auto.
    + assert (~ In w (keys COINS)) as Hn
        by (rewrite <- dict_get_In_keys; congruence).
      split.
      * intros [H | [H1 H2]]; auto.
      * intros [H | [[-> | H1] H2]]; auto. contradiction.
Qed.

Lemma symbol_pass_NoDup (clean : pystr) (found : pyset) :
  NoDup found -> NoDup (symbol_pass uni_alnum clean found).
Proof.
  unfold symbol_pass. revert found.
  induction (findall_symbols uni_alnum clean) as [|w ws IH]; intros found H;
    simpl; [exact H|].
  apply IH. destruct (dict_mem w COINS); auto using set_add_NoDup.
Qed.

Lemma list_of_set_perm (s : pyset) : Permutation (list_of_set set_rank s) s.
Proof. apply sorted_desc_perm. Qed.

Lemma truthy_nonempty (s : pystr) : truthy s = true <-> s <> [].
Proof. destruct s; simpl; split; congruence. Qed.

Lemma extract_coins_NoDup (text : option pystr) :
  NoDup (extract_coins uni_alnum uni_lower set_rank text).
Proof.
  unfold extract_coins. destruct text as [text|]; [|constructor].
  destruct (truthy text); simpl; [|constructor].
  eapply Permutation_NoDup; [apply Permutation_sym, list_of_set_perm|].
  apply symbol_pass_NoDup, alias_pass_NoDup. constructor.
Qed.

Lemma extract_coins_In (text sym : pystr) :
  In sym (extract_coins uni_alnum uni_lower set_rank (Some text))
  <-> text <> []
      /\ (alias_symbol uni_alnum (lower uni_lower (strip_tags text)) sym
          \/ direct_symbol uni_alnum (strip_tags text) sym).
Proof.
  unfold extract_coins, alias_symbol, direct_symbol.
  rewrite <- truthy_nonempty.
  destruct (truthy text); simpl; [|split; [tauto | intros [H _]; discriminate]].
  split.
  - intros H. apply (Permutation_in _ (list_of_set_perm _)) in H.
    apply (proj1 (symbol_pass_In _ _ _)) in H as [H | [H1 H2]].
    + apply (proj1 (alias_pass_In _ _ _)) in H as [[] | [alias [Hin Hs]]].
      split; [reflexivity|]. left. exists alias. split; [assumption|].
      destruct (aliases_are_words Hin).
      apply search_alias_spec; assumption.
    + apply (proj1 (findall_symbols_spec _ _)) in H1 as [Htok Hocc]. auto.
  - intros [_ H].
    apply (Permutation_in _ (Permutation_sym (list_of_set_perm _))).
    apply (proj2 (symbol_pass_In _ _ _)). destruct H as [[alias [Hin Hocc]] | [Hk [Htok Hocc]]].
    + left. apply (proj2 (alias_pass_In _ _ _)). right. exists alias. split; [assumption|].
      destruct (aliases_are_words Hin).
      apply search_alias_spec; assumption.
    + right. split; [|assumption]. apply (proj2 (findall_symbols_spec _ _)). auto.
Qed.

Lemma alias_values_are_coin_keys (alias sym : pystr) :
  In (alias, sym) ALIASES -> In sym (keys COINS).
Proof.
  assert (forallb (fun kv : pystr * pystr => dict_mem (snd kv) COINS) ALIASES
          = true) as H by (vm_compute; reflexivity).
  rewrite forallb_forall in H. intros Hin.
  apply H in Hin. apply dict_get_In_keys in Hin. exact Hin.
Qed.

Lemma extract_coins_keys (text : option pystr) (sym : pystr) :
  In sym (extract_coins uni_alnum uni_lower set_rank text) ->
  In sym (keys COINS).
Proof.
  destruct text as [text|]; [|intros []].
  intros H. apply extract_coins_In in H as [_ [[alias [Hin _]] | [Hk _]]].
  - eapply alias_values_are_coin_keys; eassumption.
  - exact Hk.
Qed.

(** C3 (what extraction returns): nothing for an absent or empty text;
    tag stripping puts one space for each tag and keeps every other
    character; for any other text the result has no duplicates and holds
    exactly the symbols of the alias pass over the lowered, tag-stripped text
    together with the whole-word runs of two to eight capitals of the
    tag-stripped text that are keys of the coin table. *)
Theorem extract_coins_spec (text : pystr) :
  extract_coins uni_alnum uni_lower set_rank None = []
  /\ extract_coins uni_alnum uni_lower set_rank (Some []) = []
  /\ (forall s rest, tag_prefix s rest -> strip_tags s = 32%N :: strip_tags rest)
  /\ (forall c r,
        (forall rest, ~ tag_prefix (c :: r) rest) ->
        strip_tags (c :: r) = c :: strip_tags r)
  /\ NoDup (extract_coins uni_alnum uni_lower set_rank (Some text))
  /\ forall sym,
       In sym (extract_coins uni_alnum uni_lower set_rank (Some text))
       <-> text <> []
           /\ ((exists alias,
                  In (alias, sym) ALIASES
                  /\ search_alias uni_alnum alias
                       (lower uni_lower (strip_tags text)) = true)
               \/ (In sym (keys COINS)
                   /\ symbol_token sym
                   /\ whole_word_occ uni_alnum sym (strip_tags text))).
Proof.
  split; [reflexivity | split; [reflexivity|]].
  split; [exact strip_tags_tag | split; [exact strip_tags_no_tag|]].
  split; [apply extract_coins_NoDup|].
  intros sym. rewrite extract_coins_In.
  unfold alias_symbol, direct_symbol. split.
  - intros [Hne [[alias [Hin Hocc]] | H]]; split; auto.
    left. exists alias. split; [assumption|].
    destruct (aliases_are_words Hin). apply search_alias_spec; assumption.
  - intros [Hne [[alias [Hin Hs]] | H]]; split; auto.
    left. exists alias. split; [assumption|].
    destruct (aliases_are_words Hin).
    apply (search_alias_spec alias); assumption.
Qed.
End ExtractorFacts.

(** *** Letter case *)

Section TextFacts.
Variable uni_alnum : char -> bool.
Variable uni_lower : pystr -> char -> pystr -> pystr.
Variable set_rank : pyset -> pystr -> Z.

Lemma is_word_ascii_lower (c : char) :
  is_word uni_alnum (ascii_lower c) = is_word uni_alnum c.
Proof.
  unfold ascii_lower. destruct (is_AZ c) eqn:E; [|reflexivity].
  rewrite (is_AZ_word uni_alnum c E). apply is_az_word.
  unfold is_AZ, is_az in *. apply andb_true_iff in E as [E1 E2].
  apply N.leb_le in E1, E2. apply andb_true_iff. split; apply N.leb_le; lia.
Qed.

Lemma last_of_map (f : char -> char) (p : pystr) :
  last_of None (map f p) = option_map f (last_of None p).
Proof.
  induction p as [|c p IH] using rev_ind; [reflexivity|].
  rewrite map_app. cbn [map]. rewrite !last_of_snoc. reflexivity.
Qed.

(** Lowering passes over a stretch of ASCII text without looking around. *)
Lemma lower_from_ascii_app (w rest : pystr) :
  forall before,
    forallb is_ascii w = true ->
    lower_from uni_lower before (w ++ rest)
    = map ascii_lower w ++ lower_from uni_lower (before ++ w) rest.
Proof.
  induction w as [|c w IH]; intros before H; simpl.
  - rewrite app_nil_r. reflexivity.
  - simpl in H. apply andb_true_iff in H as [Hc Hw].
    rewrite Hc, IH, <- app_assoc by exact Hw. reflexivity.
Qed.

(** What lowering makes of the part before a place ends with the lowering
    of that part's last character, when this one is ASCII. *)
Lemma lower_from_prefix (pre rest : pystr) :
  forall before,
    exists low_pre,
      lower_from uni_lower before (pre ++ rest)
      = low_pre ++ lower_from uni_lower (before ++ pre) rest
      /\ (pre = [] -> low_pre = [])
      /\ (forall d, last_of None pre = Some d -> is_ascii d = true ->
                    last_of None low_pre = Some (ascii_lower d)).
Proof.
  induction pre as [|c pre IH]; intros before.
  - exists []. simpl. rewrite app_nil_r. repeat split. discriminate.
  - destruct (IH (before ++ [c])) as [low' [E [Hnil Hlast]]].
    exists ((if is_ascii c then [ascii_lower c] else uni_lower before c (pre ++ rest))
            ++ low').
    cbn [lower_from app]. rewrite E, <- !app_assoc. cbn [app].
    split; [reflexivity | split; [discriminate|]].
    intros d Hd Ha. rewrite last_of_cons in Hd. destruct pre as [|c' pre'].
    + simpl in Hd. inversion Hd; subst d. rewrite Ha, (Hnil eq_refl).
      reflexivity.
    + assert (last_of None (c' :: pre') = Some d) as Hd'
        by (rewrite last_of_cons in *; exact Hd).
      specialize (Hlast d Hd' Ha).
      destruct low' as [|x low'] using rev_ind; [discriminate Hlast|].
      rewrite last_of_snoc in Hlast. rewrite app_assoc, last_of_snoc.
      exact Hlast.
Qed.

Lemma lower_from_ascii (s : pystr) :
  forall before,
    forallb is_ascii s = true ->
    lower_from uni_lower before s = map ascii_lower s.
Proof.
  induction s as [|c s IH]; intros before H; [reflexivity|].
  simpl in *. apply andb_true_iff in H as [Hc Hs]. rewrite Hc, IH by exact Hs.
  reflexivity.
Qed.

(** On ASCII text lowering is [ascii_lower] on every character. *)
Lemma lower_ascii (s : pystr) :
  forallb is_ascii s = true -> lower uni_lower s = map ascii_lower s.
Proof. apply lower_from_ascii. Qed.

Lemma whole_word_occ_lower (w s : pystr) :
  forallb is_ascii s = true ->
  whole_word_occ uni_alnum w s ->
  whole_word_occ uni_alnum (map ascii_lower w) (lower uni_lower s).
Proof.
  intros Ha [pre [post [E [Hp He]]]]. rewrite (lower_ascii _ Ha).
  exists (map ascii_lower pre), (map ascii_lower post).
  split; [subst s; rewrite !map_app; reflexivity|].
  rewrite last_of_map. split.
  - destruct (last_of None pre); [|reflexivity]. simpl in *.
    rewrite is_word_ascii_lower. exact Hp.
  - destruct post as [|c post]; [reflexivity|]. simpl in *.
    rewrite is_word_ascii_lower. exact He.
Qed.

(** The match does not look at the case of ASCII letters: a whole word of
    the tag-stripped text that is an alias up to the case of its letters
    puts the alias's symbol in the result. *)
Lemma alias_match_any_case (alias sym text w : pystr) :
  In (alias, sym) ALIASES ->
  forallb is_ascii (strip_tags text) = true ->
  text <> [] ->
  map ascii_lower w = alias ->
  whole_word_occ uni_alnum w (strip_tags text) ->
  In sym (extract_coins uni_alnum uni_lower set_rank (Some text)).
Proof.
  intros Hin Ha Hne <- Hocc.
  apply extract_coins_In. split; [exact Hne|]. left.
  exists (map ascii_lower w). split; [exact Hin|].
  apply whole_word_occ_lower; assumption.
Qed.
End TextFacts.

(** ** Alias matching *)

Lemma aliases_are_lower_case (alias sym : pystr) :
  In (alias, sym) ALIASES -> forallb is_az alias = true.
Proof.
  assert (forallb (fun kv : pystr * pystr => forallb is_az (fst kv)) ALIASES
          = true) as H by (vm_compute; reflexivity).
  rewrite forallb_forall in H. intros Hin. apply (H _ Hin).
Qed.

(** Only an ASCII letter becomes a lower-case ASCII letter by
    [ascii_lower]. *)
Lemma ascii_lower_az (c : char) :
  is_az (ascii_lower c) = true -> is_ascii c = true.
Proof.
  unfold ascii_lower, is_az, is_AZ, is_ascii.
  destruct ((65 <=? c) && (c <=? 90))%N eqn:E.
  - intros _. apply andb_true_iff in E as [_ E]. apply N.leb_le in E.
    apply N.ltb_lt. lia.
  - intros H. apply andb_true_iff in H as [_ H]. apply N.leb_le in H.
    apply N.ltb_lt. lia.
Qed.

Lemma lowered_word_ascii (w : pystr) :
  forallb is_az (map ascii_lower w) = true -> forallb is_ascii w = true.
Proof.
  induction w as [|c w IH]; [reflexivity|]. cbn [map forallb].
  intros H. apply andb_true_iff in H as [Hc Hw].
  rewrite (ascii_lower_az _ Hc), (IH Hw). reflexivity.
Qed.

Section AliasFacts.
Variable uni_alnum : char -> bool.
Variable uni_lower : pystr -> char -> pystr -> pystr.
Variable set_rank : pyset -> pystr -> Z.

Lemma ascii_delim_not_word (o : option char) :
  ascii_delim o = true -> opt_word uni_alnum o = false.
Proof.
  destruct o as [c|]; [|reflexivity]. unfold ascii_delim, opt_word, is_word.
  intros H. apply andb_true_iff in H as [Ha Hw]. rewrite Ha.
  apply negb_true_iff in Hw. exact Hw.
Qed.

Lemma ascii_delim_lower (c : char) :
  ascii_delim (Some c) = true ->
  is_word uni_alnum (ascii_lower c) = false.
Proof.
  intros H. rewrite is_word_ascii_lower.
  apply (ascii_delim_not_word (Some c) H).
Qed.

(** A word between ASCII delimiters is, lowered, a whole word of the
    lowered text, whatever the text is elsewhere. *)
Lemma whole_word_any_case (pre w post : pystr) :
  forallb is_ascii w = true ->
  ascii_delim (last_of None pre) = true ->
  ascii_delim (hd_error post) = true ->
  whole_word_occ uni_alnum (map ascii_lower w)
    (lower uni_lower (pre ++ w ++ post)).
Proof.
  intros Hw Hpre Hpost. unfold lower.
  destruct (lower_from_prefix uni_lower pre (w ++ post) [])
    as [low_pre [E [Hnil Hlast]]].
  rewrite E, (lower_from_ascii_app uni_lower w post _ Hw).
  exists low_pre, (lower_from uni_lower (([] ++ pre) ++ w) post).
  split; [reflexivity | split].
  - destruct pre as [|c pre'] using rev_ind; [rewrite (Hnil eq_refl); reflexivity|].
    clear IHpre'. rewrite last_of_snoc in Hpre.
    assert (is_ascii c = true) as Hc.
    { unfold ascii_delim in Hpre. apply andb_true_iff in Hpre as [Hc _]. exact Hc. }
    rewrite (Hlast c (last_of_snoc _ _ _) Hc). cbn [opt_word].
    apply ascii_delim_lower. exact Hpre.
  - destruct post as [|c post']; [reflexivity|]. cbn [hd_error] in Hpost.
    assert (is_ascii c = true) as Hc.
    { unfold ascii_delim in Hpost. apply andb_true_iff in Hpost as [Hc _]. exact Hc. }
    cbn [lower_from]. rewrite Hc. cbn [app hd_error opt_word].
    apply ascii_delim_lower. exact Hpost.
Qed.

(** On ASCII text, a whole word of the lowered text is the lowering of a
    whole word of the text. *)
Lemma whole_word_occ_of_lower (alias s : pystr) :
  forallb is_ascii s = true ->
  whole_word_occ uni_alnum alias (lower uni_lower s) ->
  exists w, map ascii_lower w = alias /\ whole_word_occ uni_alnum w s.
Proof.
  intros Ha [pre' [post' [E [Hp He]]]]. rewrite (lower_ascii _ _ Ha) in E.
  apply map_eq_app in E as [pre [rest [-> [<- E]]]].
  apply map_eq_app in E as [w [post [-> [<- <-]]]].
  exists w. split; [reflexivity|]. exists pre, post.
  split; [reflexivity|]. rewrite last_of_map in Hp. split.
  - destruct (last_of None pre); [|reflexivity]. cbn [option_map opt_word] in *.
    rewrite is_word_ascii_lower in Hp. exact Hp.
  - destruct post as [|c post]; [reflexivity|]. cbn [map hd_error opt_word] in *.
    rewrite is_word_ascii_lower in He. exact He.
Qed.

(** C2 (aliases match whole words, in any letter case): an alias of the
    table is found exactly when it stands in the lowered, tag-stripped text
    with no word character right before it and none right after it; so an
    alias that stands there only inside longer words is not found, and one
    that stands there as a whole word puts its symbol in the result.  The
    case of the letters does not matter: a word of the tag-stripped text
    that is the alias up to the case of its letters, between ends of the
    text or ASCII characters that are no word characters, is found and
    puts the symbol in the result; and in ASCII text the alias is found
    exactly when such a word stands in the tag-stripped text as a whole
    word. *)
Theorem alias_whole_word_match (alias sym text : pystr) :
  In (alias, sym) ALIASES ->
  let clean := strip_tags text in
  let low := lower uni_lower clean in
  (search_alias uni_alnum alias low = true <-> whole_word_occ uni_alnum alias low)
  /\ ((forall pre post,
         low = pre ++ alias ++ post ->
         opt_word uni_alnum (last_of None pre) = true
         \/ opt_word uni_alnum (hd_error post) = true) ->
      search_alias uni_alnum alias low = false)
  /\ (text <> [] -> whole_word_occ uni_alnum alias low ->
      In sym (extract_coins uni_alnum uni_lower set_rank (Some text)))
  /\ (forall pre w post,
         text <> [] ->
         clean = pre ++ w ++ post ->
         map ascii_lower w = alias ->
         ascii_delim (last_of None pre) = true ->
         ascii_delim (hd_error post) = true ->
         search_alias uni_alnum alias low = true
         /\ In sym (extract_coins uni_alnum uni_lower set_rank (Some text)))
  /\ (forallb is_ascii clean = true ->
      (search_alias uni_alnum alias low = true
       <-> exists w,
             map ascii_lower w = alias /\ whole_word_occ uni_alnum w clean)).
Proof.
  intros Hin clean low.
  destruct (aliases_are_words uni_alnum Hin) as [Hf Hl].
  pose proof (@search_alias_spec uni_alnum alias Hf Hl low) as Hspec.
  assert (text <> [] -> whole_word_occ uni_alnum alias low ->
          In sym (extract_coins uni_alnum uni_lower set_rank (Some text)))
    as Hfound.
  { intros Hne Hocc. apply extract_coins_In. split; [assumption|].
    left. exists alias. auto. }
  split; [exact Hspec | split; [|split; [exact Hfound | split]]].
  - intros Hemb. apply not_true_is_false. intros Es.
    apply Hspec in Es as [pre [post [E [Hp He]]]].
    destruct (Hemb pre post E); congruence.
  - intros pre w post Hne E Hw Hpre Hpost.
    assert (whole_word_occ uni_alnum alias low) as Hocc.
    { subst low. rewrite E, <- Hw. apply whole_word_any_case; try assumption.
      apply lowered_word_ascii. rewrite Hw.
      apply (aliases_are_lower_case Hin). }
    split; [apply Hspec; exact Hocc | apply Hfound; assumption].
  - intros Ha. rewrite Hspec. split.
    + apply whole_word_occ_of_lower. exact Ha.
    + intros [w [<- Hocc]]. apply whole_word_occ_lower; assumption.
Qed.
End AliasFacts.

(** ** Sorting by a key of the document *)

Lemma py_lt_int (a b : Z) : py_lt (JInt a) (JInt b) = Ok (a <? b)%Z.
Proof.
  cbn. unfold Qle_bool. cbn. rewrite !Z.mul_1_r, Z.ltb_antisym. reflexivity.
Qed.

Section KeySortingFacts.
Variable A : Type.
Variable key : A -> json.

Lemma insert_by_perm (x : A) (l : list A) :
  forall l', insert_by key x l = Ok l' -> Permutation l' (x :: l).
Proof.
  induction l as [|y r IH]; intros l' H; cbn [insert_by] in H.
  - injection H as <-. reflexivity.
  - destruct (py_lt (key x) (key y)) as [[|]|e]; cbn [bind] in H;
      [|injection H as <-; reflexivity | discriminate H].
    destruct (insert_by key x r) as [r'|e]; cbn [bind] in H; [|discriminate H].
    injection H as <-. rewrite (IH r' eq_refl). apply perm_swap.
Qed.

Lemma sort_by_perm (l : list A) :
  forall l', sort_by key l = Ok l' -> Permutation l' l.
Proof.
  induction l as [|x r IH]; intros l' H; cbn [sort_by] in H.
  - injection H as <-. constructor.
  - destruct (sort_by key r) as [r'|e]; cbn [bind] in H; [|discriminate H].
    rewrite (insert_by_perm _ _ H). constructor. apply IH. reflexivity.
Qed.

(** No comparison is made on fewer than two items. *)
Lemma sort_by_one (x : A) : sort_by key [x] = Ok [x].
Proof. reflexivity. Qed.

Variable k : A -> Z.

Lemma insert_by_int (x : A) (l : list A) :
  key x = JInt (k x) -> Forall (fun a => key a = JInt (k a)) l ->
  insert_by key x l = Ok (insert_desc k x l).
Proof.
  intros Hx Hl. induction Hl as [|y r Hy Hr IH]; [reflexivity|].
  cbn [insert_by insert_desc]. rewrite Hx, Hy, py_lt_int. cbn [bind].
  destruct (k x <? k y)%Z; [|reflexivity].
  rewrite IH. reflexivity.
Qed.

Lemma insert_desc_Forall (P : A -> Prop) (x : A) (l : list A) :
  P x -> Forall P l -> Forall P (insert_desc k x l).
Proof.
  intros Hx Hl. induction Hl as [|y r Hy Hr IH]; cbn [insert_desc].
  - constructor; [exact Hx | constructor].
  - destruct (k x <? k y)%Z; repeat (constructor; try assumption).
Qed.

Lemma sorted_desc_Forall (P : A -> Prop) (l : list A) :
  Forall P l -> Forall P (sorted_desc k l).
Proof.
  induction 1 as [|x r Hx Hr IH]; cbn [sorted_desc]; [constructor|].
  apply insert_desc_Forall; assumption.
Qed.

(** On integer keys the sort returns, with the stable descending sort by
    the integers. *)
Lemma sort_by_int (l : list A) :
  Forall (fun a => key a = JInt (k a)) l ->
  sort_by key l = Ok (sorted_desc k l).
Proof.
  induction 1 as [|x r Hx Hr IH]; [reflexivity|].
  cbn [sort_by sorted_desc]. rewrite IH. cbn [bind].
  apply insert_by_int; [exact Hx|]. apply sorted_desc_Forall. exact Hr.
Qed.
End KeySortingFacts.

Lemma sorted_desc_map {A B} (k : B -> Z) (f : A -> B) (l : list A) :
  sorted_desc k (map f l) = map f (sorted_desc (fun x => k (f x)) l).
Proof.
  induction l as [|x r IH]; [reflexivity|].
  cbn [map sorted_desc]. rewrite IH. clear IH.
  induction (sorted_desc (fun x => k (f x)) r) as [|y r' IH']; [reflexivity|].
  cbn [map insert_desc]. destruct (k (f x) <? k (f y))%Z; cbn [map].
  - rewrite IH'. reflexivity.
  - reflexivity.
Qed.

Lemma sorted_desc_ext {A} (k1 k2 : A -> Z) (l : list A) :
  (forall x, k1 x = k2 x) -> sorted_desc k1 l = sorted_desc k2 l.
Proof.
  intros H. induction l as [|x r IH]; [reflexivity|].
  cbn [sorted_desc]. rewrite IH. clear IH.
  induction (sorted_desc k2 r) as [|y r' IH']; [reflexivity|].
  cbn [insert_desc]. rewrite !H, IH'. reflexivity.
Qed.

Lemma StronglySorted_Forall2 {A B} (R : A -> A -> Prop) (R' : B -> B -> Prop)
    (Q : A -> B -> Prop) (l : list A) (l' : list B) :
  StronglySorted R l -> Forall2 Q l l' ->
  (forall a b a' b', R a b -> Q a a' -> Q b b' -> R' a' b') ->
  StronglySorted R' l'.
Proof.
  intros Hs Hq HR. induction Hq as [|a a' l l' Ha Hl IH]; [constructor|].
  apply StronglySorted_inv in Hs as [Hs Hall]. constructor; [apply IH, Hs|].
  clear IH Hs. induction Hl as [|b b' l l' Hb Hl IH]; [constructor|].
  inversion Hall; subst. constructor; [|apply IH; assumption].
  eapply HR; eassumption.
Qed.

(** ** The aggregator *)

Lemma dict_get_update {V} (k k' : pystr) (f : V -> V) (dflt : V) (d : dict V) :
  dict_get k' (dict_update k f dflt d)
  = if pystr_eqb k' k
    then Some (f (match dict_get k d with Some v => v | None => dflt end))
    else dict_get k' d.
Proof.
  induction d as [|[k0 v] d IH]; simpl.
  - destruct (pystr_eqb k' k); reflexivity.
  - destruct (pystr_eqb k k0) eqn:E; simpl.
    + apply pystr_eqb_eq in E. subst k0.
      destruct (pystr_eqb k' k); reflexivity.
    + rewrite IH. destruct (pystr_eqb k' k0) eqn:E0; [|reflexivity].
      apply pystr_eqb_eq in E0. subst k0.
      destruct (pystr_eqb k' k) eqn:E1; [|reflexivity].
      apply pystr_eqb_eq in E1. subst k'. rewrite pystr_eqb_refl in E.
      discriminate.
Qed.

(** One thread adds itself once to each of its symbols. *)
Lemma record_mentions_get (no : json) (coins : list pystr) :
  NoDup coins ->
  forall (d : dict coin_stat) (sym : pystr),
    dict_get sym (fold_left (record_mention no) coins d)
    = if set_mem sym coins then Some (add_mention no (stat_or_default d sym))
      else dict_get sym d.
Proof.
  induction 1 as [|c cs Hc Hcs IH]; intros d sym; [reflexivity|].
  simpl fold_left. rewrite IH. unfold record_mention, stat_or_default.
  rewrite dict_get_update. simpl set_mem.
  destruct (pystr_eqb sym c) eqn:E; simpl.
  - apply pystr_eqb_eq in E. subst c.
    destruct (set_mem sym cs) eqn:Em; [|reflexivity].
    apply set_mem_In in Em. contradiction.
  - reflexivity.
Qed.

(** Reading a text field for the join. *)
Lemma text_item_get (members : list (pystr * json)) (k : pystr) :
  (x <- py_get (JObject members) k (JStr []) ;; text_item x)%result
  = if text_or_false (dict_get k members)
    then Ok (field_text (JObject members) k)
    else Raise TypeError.
Proof.
  unfold py_get, text_item, field_text, field, py_or, text_or_false.
  cbn [bind].
  destruct (dict_get k members) as [v|]; [|reflexivity].
  destruct v as [|b|n|x|s|items|ms]; cbn [json_truthy negb]; try reflexivity.
  - destruct b; reflexivity.
  - destruct (n =? 0)%Z; reflexivity.
  - destruct (Qnum x =? 0)%Z; reflexivity.
  - destruct s; reflexivity.
  - destruct items; reflexivity.
  - destruct ms; reflexivity.
Qed.

Section AggregatorFacts.
Variable uni_alnum : char -> bool.
Variable uni_lower : pystr -> char -> pystr -> pystr.
Variable set_rank : pyset -> pystr -> Z.

Local Abbreviation coins := (coins_of uni_alnum uni_lower set_rank).
Local Abbreviation step := (count_thread uni_alnum uni_lower set_rank).
Local Abbreviation hot_of := (hot_record uni_alnum uni_lower set_rank).
Local Abbreviation aggregate := (analyze uni_alnum uni_lower set_rank).
Local Abbreviation mentioning sym := (filter (mentions uni_alnum uni_lower set_rank sym)).
Local Abbreviation with_coins := (filter (mentions_any uni_alnum uni_lower set_rank)).

Lemma coins_NoDup (t : json) : NoDup (coins t).
Proof. apply extract_coins_NoDup. Qed.

(** The body of the loop: it returns on a value with the shape of a
    thread, and raises on any other. *)
Lemma analyze_thread_eq (acc : dict coin_stat * list hot_thread) (t : json) :
  analyze_thread uni_alnum uni_lower set_rank acc t
  = if thread_shaped t then Ok (step acc t) else Raise (shape_error t).
Proof.
  destruct acc as [d h]. unfold analyze_thread.
  destruct t as [|b|n|x|s|items|members]; try reflexivity.
  rewrite !text_item_get. unfold thread_shaped, field.
  destruct (text_or_false (dict_get (str "sub") members)); [|reflexivity].
  cbn [bind andb].
  destruct (text_or_false (dict_get (str "com") members)); [|reflexivity].
  cbn [bind py_get].
  unfold count_thread, hot_record, coins_of, combined_text, subject, body_text,
    thread_id, reply_value, field, display_text.
  cbn [fst snd]. unfold pystr, char.
  match goal with
  | |- context [extract_coins ?a ?b ?c ?txt] =>
      destruct (extract_coins a b c txt) as [|c0 cs]
  end; [reflexivity|].
  cbn [bind].
  destruct (field_text (JObject members) (str "sub")); reflexivity.
Qed.

Lemma analyze_loop_shaped (ts : list json) :
  forall acc,
    forallb thread_shaped ts = true ->
    analyze_loop uni_alnum uni_lower set_rank ts acc = Ok (fold_left step ts acc).
Proof.
  induction ts as [|t ts IH]; intros acc H; [reflexivity|].
  cbn [forallb] in H. apply andb_prop in H as [Ht Hts].
  cbn [analyze_loop fold_left]. rewrite analyze_thread_eq, Ht. cbn [bind].
  apply IH. exact Hts.
Qed.

Lemma analyze_loop_Ok (ts : list json) :
  forall acc r,
    analyze_loop uni_alnum uni_lower set_rank ts acc = Ok r ->
    forallb thread_shaped ts = true /\ r = fold_left step ts acc.
Proof.
  induction ts as [|t ts IH]; intros acc r H.
  - injection H as <-. split; reflexivity.
  - cbn [analyze_loop] in H. rewrite analyze_thread_eq in H.
    cbn [forallb fold_left].
    destruct (thread_shaped t); cbn [bind] in H; [|discriminate H].
    apply IH in H as [H1 H2]. split; [exact H1 | exact H2].
Qed.

(** The loop raises at the first value without the shape of a thread. *)
Lemma analyze_loop_raises (pre post : list json) (t : json) :
  forall acc,
    forallb thread_shaped pre = true ->
    thread_shaped t = false ->
    analyze_loop uni_alnum uni_lower set_rank (pre ++ t :: post) acc
    = Raise (shape_error t).
Proof.
  induction pre as [|p pre IH]; intros acc Hpre Ht.
  - cbn [app analyze_loop]. rewrite analyze_thread_eq, Ht. reflexivity.
  - cbn [forallb] in Hpre. apply andb_prop in Hpre as [Hp Hpre].
    cbn [app analyze_loop]. rewrite analyze_thread_eq, Hp. cbn [bind].
    apply IH; assumption.
Qed.

(** The counts after the loop, from the counts before it. *)
Lemma fold_counts (ts : list json) (sym : pystr) :
  forall (acc : dict coin_stat * list hot_thread),
    dict_get sym (fst (fold_left step ts acc))
    = match mentioning sym ts with
      | [] => dict_get sym (fst acc)
      | _ :: _ =>
          Some {| count := count (stat_or_default (fst acc) sym)
                           + Z.of_nat (List.length (mentioning sym ts));
                  threads := threads (stat_or_default (fst acc) sym)
                             ++ map thread_id (mentioning sym ts) |}
      end.
Proof.
  induction ts as [|t ts IH]; intros acc; [reflexivity|].
  cbn [fold_left filter]. rewrite IH. clear IH.
  assert (dict_get sym (fst (step acc t))
          = if mentions uni_alnum uni_lower set_rank sym t
            then Some (add_mention (thread_id t) (stat_or_default (fst acc) sym))
            else dict_get sym (fst acc)) as Hget.
  { unfold count_thread. cbn [fst]. apply record_mentions_get, coins_NoDup. }
  unfold stat_or_default at 1 2. rewrite Hget.
  destruct (mentions uni_alnum uni_lower set_rank sym t).
  - destruct (mentioning sym ts) as [|t' hits]; unfold add_mention; simpl.
    + reflexivity.
    + f_equal. f_equal; [lia | rewrite <- app_assoc; reflexivity].
  - reflexivity.
Qed.

(** The working list after the loop. *)
Lemma fold_hot (ts : list json) :
  forall (acc : dict coin_stat * list hot_thread),
    snd (fold_left step ts acc) = snd acc ++ map hot_of (with_coins ts).
Proof.
  induction ts as [|t ts IH]; intros acc; cbn [fold_left filter].
  - cbn [map]. rewrite app_nil_r. reflexivity.
  - rewrite IH. unfold count_thread, mentions_any. cbn [snd].
    destruct (coins t); cbn [map]; [reflexivity|].
    rewrite <- app_assoc. reflexivity.
Qed.

(** What [analyze] returns, when it returns. *)
Lemma analyze_Ok (ts : list json) (cc : dict coin_stat) (hot : list hot_thread) :
  aggregate ts = Ok (cc, hot) ->
  forallb thread_shaped ts = true
  /\ cc = fst (fold_left step ts ([], []))
  /\ exists ranked,
       sort_by h_replies (map hot_of (with_coins ts)) = Ok ranked
       /\ hot = firstn 10 ranked.
Proof.
  unfold analyze. intros H.
  destruct (analyze_loop uni_alnum uni_lower set_rank ts ([], [])) as [[d h]|e] eqn:E;
    cbn [bind] in H; [|discriminate H].
  apply analyze_loop_Ok in E as [Hs E].
  assert (h = map hot_of (with_coins ts)) as ->.
  { change h with (snd (d, h)). rewrite E, fold_hot. reflexivity. }
  assert (d = fst (fold_left step ts ([], []))) as Hd by (rewrite <- E; reflexivity).
  destruct (sort_by h_replies (map hot_of (with_coins ts))) as [ranked|e];
    cbn [bind] in H; [|discriminate H].
  injection H as <- <-. split; [exact Hs | split; [exact Hd|]].
  exists ranked. split; reflexivity.
Qed.

(** [analyze] returns on threads of the right shape whose sort returns. *)
Lemma analyze_returns (ts : list json) (ranked : list hot_thread) :
  forallb thread_shaped ts = true ->
  sort_by h_replies (map hot_of (with_coins ts)) = Ok ranked ->
  aggregate ts = Ok (fst (fold_left step ts ([], [])), firstn 10 ranked).
Proof.
  intros Hs Hsort. unfold analyze. rewrite (analyze_loop_shaped _ _ Hs).
  cbn [bind].
  destruct (fold_left step ts ([], [])) as [d h] eqn:E.
  assert (h = map hot_of (with_coins ts)) as ->.
  { change h with (snd (d, h)). rewrite <- E, fold_hot. reflexivity. }
  rewrite Hsort. reflexivity.
Qed.

(** [analyze] returns on thread records. *)
Lemma analyze_records_return (ts : list json) :
  forallb thread_record ts = true ->
  forallb thread_shaped ts = true
  /\ aggregate ts
     = Ok (fst (fold_left step ts ([], [])),
           firstn 10 (sorted_desc (fun h => int_key (h_replies h))
                        (map hot_of (with_coins ts)))).
Proof.
  intros Hrec.
  assert (forallb thread_shaped ts = true) as Hs.
  { rewrite forallb_forall in *. intros t Ht.
    specialize (Hrec t Ht). apply andb_prop in Hrec as [H _]. exact H. }
  split; [exact Hs|]. apply (analyze_returns _ Hs).
  apply (sort_by_int h_replies (fun h => int_key (h_replies h))).
  apply Forall_forall. intros h Hh. apply in_map_iff in Hh as [t [<- Ht]].
  apply filter_In in Ht as [Ht _]. rewrite forallb_forall in Hrec.
  specialize (Hrec t Ht). apply andb_prop in Hrec as [_ Hr].
  cbn [h_replies hot_record]. unfold reply_value.
  destruct (field t (str "replies")) as [[]|]; try discriminate Hr; reflexivity.
Qed.

Lemma analyze_get (ts : list json) (cc : dict coin_stat) (hot : list hot_thread)
    (sym : pystr) :
  aggregate ts = Ok (cc, hot) ->
  dict_get sym cc
  = match mentioning sym ts with
    | [] => None
    | _ :: _ =>
        Some {| count := Z.of_nat (List.length (mentioning sym ts));
                threads := map thread_id (mentioning sym ts) |}
    end.
Proof.
  intros H. apply analyze_Ok in H as [_ [-> _]]. rewrite fold_counts. reflexivity.
Qed.

(** The text decides the mention. *)
Lemma mentions_text (sym : pystr) (t : json) :
  mentions uni_alnum uni_lower set_rank sym t = true
  <-> alias_symbol uni_alnum
        (lower uni_lower (strip_tags (subject t ++ 32%N :: body_text t))) sym
      \/ direct_symbol uni_alnum
           (strip_tags (subject t ++ 32%N :: body_text t)) sym.
Proof.
  unfold mentions, coins_of, combined_text.
  rewrite set_mem_In, extract_coins_In. split; [tauto|].
  intros H. split; [|exact H]. destruct (subject t); discriminate.
Qed.

Lemma distinct_count_unique {A} (l : list A) (n m : nat) :
  distinct_count l n -> distinct_count l m -> n = m.
Proof.
  intros [d1 [N1 [E1 <-]]] [d2 [N2 [E2 <-]]].
  apply Permutation_length, NoDup_Permutation; try assumption.
  intros x. rewrite E1, E2. tauto.
Qed.

(** C1, as amended (counts are per record of the sequence): aggregation
    returns on every sequence of thread records.  A thread's text mentions
    a symbol exactly when an alias of the symbol, or the symbol itself in
    capitals, stands as a whole word in its subject, a space and its body,
    tags removed.  Whenever aggregation returns, the entry of a symbol
    counts the records of the sequence whose text mentions it, each once
    however often its text names the symbol; its list of thread ids holds
    the ids of those records in order, so the count is the length of that
    list; a symbol that no thread mentions has no entry; and in a sequence
    without a repeated record the count is the number of distinct threads
    that mention the symbol. *)
Theorem count_is_number_of_mentioning_threads (ts : list json) (sym : pystr) :
  let hits := filter (mentions uni_alnum uni_lower set_rank sym) ts in
  (forallb thread_record ts = true ->
   exists cc hot, analyze uni_alnum uni_lower set_rank ts = Ok (cc, hot))
  /\ (forall t,
        mentions uni_alnum uni_lower set_rank sym t = true
        <-> alias_symbol uni_alnum
              (lower uni_lower (strip_tags (subject t ++ 32%N :: body_text t))) sym
            \/ direct_symbol uni_alnum
                 (strip_tags (subject t ++ 32%N :: body_text t)) sym)
  /\ forall cc hot,
       analyze uni_alnum uni_lower set_rank ts = Ok (cc, hot) ->
       match dict_get sym cc with
       | Some st =>
           hits <> []
           /\ count st = Z.of_nat (List.length hits)
           /\ threads st = map thread_id hits
           /\ count st = Z.of_nat (List.length (threads st))
       | None => hits = []
       end
       /\ (NoDup ts ->
           forall n, distinct_count hits n ->
                     count (stat_or_default cc sym) = Z.of_nat n).
Proof.
  intros hits. split; [|split; [intros t; apply mentions_text|]].
  { intros Hrec. destruct (analyze_records_return _ Hrec) as [_ H].
    eexists _, _. exact H. }
  intros cc hot Hrun. split.
  - rewrite (analyze_get _ sym Hrun). fold hits.
    destruct hits as [|t hits']; [reflexivity|].
    cbn [count threads]. rewrite length_map.
    repeat split; try reflexivity. discriminate.
  - intros Hnd n Hn.
    assert (distinct_count hits (List.length hits)) as Hh.
    { exists hits. split; [apply NoDup_filter; exact Hnd|].
      split; [tauto | reflexivity]. }
    rewrite (distinct_count_unique Hn Hh).
    unfold stat_or_default. rewrite (analyze_get _ sym Hrun). fold hits.
    destruct hits; reflexivity.
Qed.

(** C4 (the hot threads): on every sequence of thread records aggregation
    returns, and its list of hot threads has at most ten records, sorted by
    reply count from high to low.  They are the records of the first ten
    threads of a ranking of exactly the threads with a non-empty extraction
    result, sorted by reply count from high to low (0 for a thread without
    the field), threads with equal reply counts in the order of the
    sequence; each record carries the id, the reply count and the
    extraction result of its thread. *)
Theorem hot_threads_sorted_top10 (ts : list json) :
  forallb thread_record ts = true ->
  let replies t :=
    match field t (str "replies") with Some (JInt r) => r | _ => 0%Z end in
  let candidates :=
    filter (fun t => match extract_coins uni_alnum uni_lower set_rank
                             (Some (subject t ++ 32%N :: body_text t)) with
                     | [] => false
                     | _ :: _ => true
                     end) ts in
  exists cc hot,
    analyze uni_alnum uni_lower set_rank ts = Ok (cc, hot)
    /\ List.length hot <= 10
    /\ StronglySorted
         (fun a b => exists x y, h_replies a = JInt x /\ h_replies b = JInt y
                                 /\ (y <= x)%Z) hot
    /\ exists ranked : list json,
         Permutation ranked candidates
         /\ StronglySorted (fun a b => (replies b <= replies a)%Z) ranked
         /\ (forall r : Z,
               filter (fun t => (replies t =? r)%Z) ranked
               = filter (fun t => (replies t =? r)%Z) candidates)
         /\ Forall2
              (fun t h =>
                 h_no h = match field t (str "no") with
                          | Some v => v
                          | None => JNull
                          end
                 /\ h_replies h = JInt (replies t)
                 /\ h_coins h = extract_coins uni_alnum uni_lower set_rank
                                  (Some (subject t ++ 32%N :: body_text t)))
              (firstn 10 ranked) hot.
Proof.
  intros Hrec replies candidates.
  change candidates with (with_coins ts).
  destruct (analyze_records_return _ Hrec) as [_ Hrun].
  eexists _, _. split; [exact Hrun|]. clear Hrun.
  assert (forall t, In t (with_coins ts) -> reply_value t = JInt (replies t)) as Hk.
  { intros t Ht. apply filter_In in Ht as [Ht _].
    rewrite forallb_forall in Hrec. specialize (Hrec t Ht).
    apply andb_prop in Hrec as [_ Hr].
    unfold reply_value. subst replies. cbv beta.
    destruct (field t (str "replies")) as [[]|]; try discriminate Hr; reflexivity. }
  rewrite sorted_desc_map.
  rewrite (sorted_desc_ext (fun t => int_key (h_replies (hot_of t))) replies).
  2:{ intros t. cbn [h_replies hot_record]. subst replies. cbv beta.
      unfold reply_value.
      destruct (field t (str "replies")) as [[]|]; reflexivity. }
  rewrite firstn_map.
  assert (Forall2
            (fun t h =>
               h_no h = match field t (str "no") with
                        | Some v => v
                        | None => JNull
                        end
               /\ h_replies h = JInt (replies t)
               /\ h_coins h = extract_coins uni_alnum uni_lower set_rank
                                (Some (subject t ++ 32%N :: body_text t)))
            (firstn 10 (sorted_desc replies (with_coins ts)))
            (map hot_of (firstn 10 (sorted_desc replies (with_coins ts)))))
    as Hitems.
  { assert (forall t, In t (firstn 10 (sorted_desc replies (with_coins ts))) ->
                      In t (with_coins ts)) as Hin.
    { intros t Ht. apply In_firstn in Ht.
      apply (Permutation_in _ (sorted_desc_perm replies _)). exact Ht. }
    induction (firstn 10 (sorted_desc replies (with_coins ts))) as [|t l IH];
      cbn [map]; constructor.
    - cbn [h_no h_replies h_coins hot_record].
      split; [reflexivity | split; [|reflexivity]].
      apply Hk, Hin. left. reflexivity.
    - apply IH. intros t' Ht'. apply Hin. right. exact Ht'. }
  assert (StronglySorted (fun a b => (replies b <= replies a)%Z)
            (sorted_desc replies (with_coins ts))) as Hsorted
      by apply (sorted_desc_sorted replies).
  split; [rewrite length_map; apply firstn_le_length | split].
  - apply (@StronglySorted_firstn _ _ 10) in Hsorted.
    eapply StronglySorted_Forall2; [exact Hsorted | exact Hitems |].
    intros a b a' b' Hab [_ [Ha _]] [_ [Hb _]].
    exists (replies a), (replies b). auto.
  - exists (sorted_desc replies (with_coins ts)).
    split; [apply sorted_desc_perm | split; [exact Hsorted | split]].
    + intros r. apply (sorted_desc_stable replies).
    + exact Hitems.
Qed.

(** C7 (the display text): aggregation returns on every sequence of
    thread records; whenever it returns, the working list holds one record
    for each thread with a non-empty extraction result, in the order of the
    threads, the hot threads are the first ten of the sorted working list,
    and the record's text is the subject when there is a non-empty one,
    else the first 80 characters of the body, the empty string when there
    is no body either. *)
Theorem hot_thread_display_text (ts : list json) :
  (forallb thread_record ts = true ->
   exists cc hot, analyze uni_alnum uni_lower set_rank ts = Ok (cc, hot))
  /\ forall cc hot,
       analyze uni_alnum uni_lower set_rank ts = Ok (cc, hot) ->
       exists working ranked,
         sort_by h_replies working = Ok ranked
         /\ hot = firstn 10 ranked
         /\ Forall2
              (fun t h =>
                 h_no h = match field t (str "no") with
                          | Some v => v
                          | None => JNull
                          end
                 /\ h_coins h = coins t
                 /\ h_replies h = match field t (str "replies") with
                                  | Some v => v
                                  | None => JInt 0
                                  end
                 /\ h_sub h = match field t (str "sub") with
                              | Some (JStr (c :: s)) => c :: s
                              | _ => firstn 80 (match field t (str "com") with
                                                | Some (JStr body) => body
                                                | _ => []
                                                end)
                              end)
              (with_coins ts) working.
Proof.
  split.
  { intros Hrec. destruct (analyze_records_return _ Hrec) as [_ H].
    eexists _, _. exact H. }
  intros cc hot Hrun. apply analyze_Ok in Hrun as [_ [_ [ranked [Hsort ->]]]].
  exists (map hot_of (with_coins ts)), ranked.
  split; [exact Hsort | split; [reflexivity|]]. clear Hsort.
  induction (with_coins ts) as [|t l IH]; cbn [map]; constructor; [|exact IH].
  split; [reflexivity | split; [reflexivity | split; [reflexivity|]]].
  cbn [h_sub hot_record]. unfold subject, body_text, field_text.
  destruct (field t (str "sub")) as [[| | | |[|c s]| |]|]; reflexivity.
Qed.

(** C9 (only known symbols): every alias resolves to a key of the coin
    table, so extraction returns keys of the coin table only, and so do the
    aggregate mapping and the symbol lists of the hot threads. *)
Theorem symbols_are_coin_keys :
  (forall alias sym, In (alias, sym) ALIASES -> In sym (keys COINS))
  /\ (forall (text : option pystr) sym,
        In sym (extract_coins uni_alnum uni_lower set_rank text) ->
        In sym (keys COINS))
  /\ (forall ts cc hot sym,
        analyze uni_alnum uni_lower set_rank ts = Ok (cc, hot) ->
        In sym (keys cc) ->
        In sym (keys COINS))
  /\ (forall ts cc hot h sym,
        analyze uni_alnum uni_lower set_rank ts = Ok (cc, hot) ->
        In h hot ->
        In sym (h_coins h) -> In sym (keys COINS)).
Proof.
  split; [apply alias_values_are_coin_keys|].
  split; [apply extract_coins_keys|]. split.
  - intros ts cc hot sym Hrun Hin. apply dict_get_In_keys in Hin.
    unfold dict_mem in Hin. rewrite (analyze_get _ sym Hrun) in Hin.
    destruct (mentioning sym ts) as [|t hits] eqn:E; [discriminate Hin|].
    assert (In t (mentioning sym ts)) as Ht by (rewrite E; left; reflexivity).
    apply filter_In in Ht as [_ Ht]. apply set_mem_In in Ht.
    eapply extract_coins_keys. exact Ht.
  - intros ts cc hot h sym Hrun Hh Hsym.
    apply analyze_Ok in Hrun as [_ [_ [ranked [Hsort ->]]]].
    apply In_firstn in Hh.
    apply (Permutation_in _ (sort_by_perm _ _ Hsort)) in Hh.
    apply in_map_iff in Hh as [t [<- _]].
    eapply extract_coins_keys. exact Hsym.
Qed.
End AggregatorFacts.

(** ** The derived values of the report *)

Lemma fold_left_Zadd (l : list Z) (a : Z) :
  fold_left Z.add l a = (a + Zsum l)%Z.
Proof.
  revert a; induction l as [|x l IH]; intros a; simpl; [lia|].
  rewrite IH. lia.
Qed.

Lemma sum_counts_Zsum (d : dict coin_stat) :
  sum_counts d = Zsum (map stat_count d).
Proof. unfold sum_counts. rewrite fold_left_Zadd. reflexivity. Qed.

Lemma Zsum_perm (l l' : list Z) : Permutation l l' -> Zsum l = Zsum l'.
Proof. induction 1; simpl; lia. Qed.

Lemma truediv_Ok (a b : Z) :
  b <> 0%Z -> truediv a b = Ok (inject_Z a / inject_Z b)%Q.
Proof. intros H. unfold truediv. apply Z.eqb_neq in H. rewrite H. reflexivity. Qed.

Lemma truediv_zero (a : Z) : truediv a 0 = Raise ZeroDivisionError.
Proof. reflexivity. Qed.

(** The percentage of a count: [count / total * 100 if total else 0]. *)
Lemma leaderboard_row_Ok (total max_count : Z) (i : nat) (kv : pystr * coin_stat) :
  max_count <> 0%Z ->
  leaderboard_row total max_count i kv
  = Ok {| r_index := i;
          r_sym := fst kv;
          r_full_name := match dict_get (fst kv) COINS with
                         | Some n => n
                         | None => []
                         end;
          r_count := stat_count kv;
          r_bar_w := (inject_Z (stat_count kv) / inject_Z max_count * 100)%Q;
          r_pct := if (total =? 0)%Z then 0%Q
                   else (inject_Z (stat_count kv) / inject_Z total * 100)%Q |}.
Proof.
  intros Hm. destruct kv as [sym data]. unfold leaderboard_row, stat_count.
  cbn [fst snd]. rewrite (truediv_Ok _ Hm).
  destruct (total =? 0)%Z eqn:Et; cbn [negb bind].
  - reflexivity.
  - apply Z.eqb_neq in Et. rewrite (truediv_Ok _ Et). reflexivity.
Qed.

Lemma leaderboard_row_zero (total : Z) (i : nat) (kv : pystr * coin_stat) :
  leaderboard_row total 0 i kv = Raise ZeroDivisionError.
Proof.
  destruct kv as [sym data]. unfold leaderboard_row.
  destruct (total =? 0)%Z eqn:Et; cbn [negb bind]; [reflexivity|].
  apply Z.eqb_neq in Et. rewrite (truediv_Ok _ Et). reflexivity.
Qed.

Lemma heatmap_row_Ok (hm_max : Z) (i : nat) (kv : pystr * coin_stat) :
  hm_max <> 0%Z ->
  heatmap_row hm_max i kv
  = Ok {| hm_sym := fst kv;
          hm_w := (inject_Z (stat_count kv) / inject_Z hm_max * 100)%Q;
          hm_color := Nat.min i 9;
          hm_count := stat_count kv |}.
Proof.
  intros Hm. destruct kv as [sym data]. unfold heatmap_row, stat_count.
  cbn [fst snd]. rewrite (truediv_Ok _ Hm). reflexivity.
Qed.

Lemma for_enumerate_Ok {A B} (f : nat -> A -> result B) (g : nat -> A -> B)
    (l : list A) :
  (forall i x, f i x = Ok (g i x)) ->
  forall i, exists ys,
    for_enumerate f i l = Ok ys /\ Forall2 (fun x y => exists j, y = g j x) l ys.
Proof.
  intros Hf. induction l as [|x l IH]; intros i; simpl.
  - exists []. split; [reflexivity | constructor].
  - rewrite Hf. destruct (IH (S i)) as [ys [E F]]. simpl. rewrite E. simpl.
    exists (g i x :: ys). split; [reflexivity|].
    constructor; [exists i; reflexivity | exact F].
Qed.

(** The first of the sorted items carries the largest count. *)
Lemma first_count_sorted_max (d : dict coin_stat) (dflt : Z) :
  let m := first_count (sorted_desc stat_count d) dflt in
  (forall kv, In kv d -> (stat_count kv <= m)%Z)
  /\ (d <> [] -> exists kv, In kv d /\ stat_count kv = m).
Proof.
  intros m. subst m.
  pose proof (sorted_desc_sorted stat_count d) as Hs.
  pose proof (sorted_desc_perm stat_count d) as Hp.
  destruct (sorted_desc stat_count d) as [|kv0 rest] eqn:E.
  - apply Permutation_nil in Hp. subst d. split; [intros kv [] | congruence].
  - simpl. split.
    + intros kv Hin. apply (Permutation_in _ (Permutation_sym Hp)) in Hin.
      inversion Hs as [|? ? _ Hall]; subst.
      destruct Hin as [<- | Hin]; [lia|].
      rewrite Forall_forall in Hall. apply Hall in Hin. exact Hin.
    + intros _. exists kv0. split; [|reflexivity].
      apply (Permutation_in _ Hp). left. reflexivity.
Qed.

Lemma first_count_firstn (l : dict coin_stat) (dflt : Z) (n : nat) :
  first_count (firstn (S n) l) dflt = first_count l dflt.
Proof. destruct l; reflexivity. Qed.

Lemma Qsum_percentages (total : Z) (l : list Z) :
  total <> 0%Z ->
  (Qsum (map (fun c => inject_Z c / inject_Z total * 100) l)
   == inject_Z (Zsum l) / inject_Z total * 100)%Q.
Proof.
  intros Ht.
  assert (~ (inject_Z total == 0)%Q) as Hq.
  { intros H. apply Ht. unfold Qeq in H. simpl in H. lia. }
  induction l as [|c l IH]; simpl.
  - field. exact Hq.
  - rewrite IH, inject_Z_plus. field. exact Hq.
Qed.

Lemma generate_html_rows (cc : dict coin_stat) (hot : list hot_thread) (n : nat) :
  let total := sum_counts cc in
  let sorted := sorted_desc stat_count cc in
  let max_count := first_count sorted 1 in
  max_count <> 0%Z ->
  exists rep,
    generate_html cc hot n = Ok rep
    /\ rp_total_mentions rep = total
    /\ Forall2 (fun kv row => exists i, row = row_of total max_count i kv)
         sorted (rp_rows rep).
Proof.
  intros total sorted max_count Hm. unfold generate_html.
  fold sorted. fold total. fold max_count.
  destruct (for_enumerate_Ok (leaderboard_row total max_count)
              (row_of total max_count) sorted
              (fun i kv => leaderboard_row_Ok total i kv Hm) 0)
    as [rows [Er Fr]].
  rewrite Er. cbn [bind].
  assert (first_count (firstn 10 sorted) 1 = max_count) as ->
    by apply first_count_firstn.
  destruct (for_enumerate_Ok (heatmap_row max_count)
              (fun i kv => {| hm_sym := fst kv;
                              hm_w := (inject_Z (stat_count kv)
                                       / inject_Z max_count * 100)%Q;
                              hm_color := Nat.min i 9;
                              hm_count := stat_count kv |})
              (firstn 10 sorted)
              (fun i kv => heatmap_row_Ok i kv Hm) 0)
    as [heat [Eh _]].
  rewrite Eh. cbn [bind].
  eexists. split; [reflexivity|]. cbn [rp_total_mentions rp_rows].
  split; [reflexivity | exact Fr].
Qed.

Lemma generate_html_zero_max (cc : dict coin_stat) (hot : list hot_thread) (n : nat) :
  first_count (sorted_desc stat_count cc) 1 = 0%Z ->
  generate_html cc hot n = Raise ZeroDivisionError.
Proof.
  intros Hm. unfold generate_html. rewrite Hm.
  destruct (sorted_desc stat_count cc) as [|kv rest]; [discriminate Hm|].
  cbn [for_enumerate]. rewrite leaderboard_row_zero. reflexivity.
Qed.

(** What aggregation returns has counts of at least 1. *)
Lemma positive_counts_max (cc : dict coin_stat) :
  Forall (fun kv => (0 < stat_count kv)%Z) cc ->
  first_count (sorted_desc stat_count cc) 1 <> 0%Z.
Proof.
  intros Hpos. destruct cc as [|kv0 cc'] eqn:E; [simpl; lia|].
  rewrite <- E in *.
  destruct (first_count_sorted_max cc 1) as [_ Hex].
  destruct Hex as [kv [Hin Hm]]; [subst; discriminate|].
  rewrite Forall_forall in Hpos. apply Hpos in Hin. lia.
Qed.

Lemma rows_percent_sum (total max_count : Z) (l : dict coin_stat)
    (rows : list coin_row) :
  total <> 0%Z ->
  Forall2 (fun kv row => exists i, row = row_of total max_count i kv) l rows ->
  (Qsum (map r_pct rows)
   == inject_Z (Zsum (map stat_count l)) / inject_Z total * 100)%Q.
Proof.
  intros Hne Fr. rewrite <- (Qsum_percentages _ Hne).
  assert ((total =? 0)%Z = false) as Et by (apply Z.eqb_neq; exact Hne).
  induction Fr as [|kv row l rows [i ->] _ IH]; simpl; [reflexivity|].
  rewrite Et, IH. reflexivity.
Qed.

Lemma rows_percent_zero (max_count : Z) (l : dict coin_stat)
    (rows : list coin_row) :
  Forall2 (fun kv row => exists i, row = row_of 0 max_count i kv) l rows ->
  Forall (fun row => r_pct row = 0%Q) rows.
Proof.
  induction 1 as [|kv row l rows [i ->] _ IH]; constructor; [reflexivity | exact IH].
Qed.

(** C8 (the derived values, in exact arithmetic): when the report is
    produced, the total is the sum of all counts; each row's percentage is
    count / total * 100, and 0 when the total is 0; the percentages sum to
    100 when the total is positive; each row's bar width is
    count / max-count * 100, where max-count is the largest count. *)
Theorem report_derived_values (cc : dict coin_stat) (hot : list hot_thread)
    (n : nat) (rep : report) :
  generate_html cc hot n = Ok rep ->
  let total := Zsum (map stat_count cc) in
  let sorted := sorted_desc stat_count cc in
  let max_count := first_count sorted 1 in
  rp_total_mentions rep = total
  /\ Permutation sorted cc
  /\ (forall kv, In kv cc -> (stat_count kv <= max_count)%Z)
  /\ (cc <> [] -> exists kv, In kv cc /\ stat_count kv = max_count)
  /\ Forall2
       (fun kv row =>
          r_sym row = fst kv
          /\ r_count row = stat_count kv
          /\ r_pct row = (if (total =? 0)%Z then 0
                          else inject_Z (r_count row) / inject_Z total * 100)%Q
          /\ r_bar_w row = (inject_Z (r_count row) / inject_Z max_count * 100)%Q)
       sorted (rp_rows rep)
  /\ ((0 < total)%Z -> (Qsum (map r_pct (rp_rows rep)) == 100)%Q)
  /\ (total = 0%Z -> Forall (fun row => r_pct row = 0%Q) (rp_rows rep)).
Proof.
  intros Hgen total sorted max_count.
  assert (max_count <> 0%Z) as Hm.
  { intros H0. rewrite (generate_html_zero_max cc hot n H0) in Hgen.
    discriminate Hgen. }
  destruct (generate_html_rows cc hot n Hm) as [rep' [E [Ht Fr]]].
  rewrite E in Hgen. inversion Hgen; subst rep'. clear Hgen E.
  rewrite sum_counts_Zsum in Ht, Fr. fold total in Ht, Fr.
  fold sorted in Fr. fold max_count in Fr.
  assert (Zsum (map stat_count sorted) = total) as Hsum.
  { apply Zsum_perm, Permutation_map, sorted_desc_perm. }
  split; [exact Ht|]. split; [apply sorted_desc_perm|].
  destruct (first_count_sorted_max cc 1) as [Hmax Hex].
  split; [exact Hmax|]. split; [exact Hex|].
  split; [|split].
  - clear Hsum Hmax Hex Hm. clearbody sorted max_count.
    induction Fr as [|kv row l rows [i ->] _ IH]; [constructor|].
    constructor; [|exact IH]. repeat split.
  - intros Hpos. assert (total <> 0%Z) as Hne by lia.
    rewrite (rows_percent_sum Hne Fr), Hsum. field.
    intros H. apply Hne. unfold Qeq in H. simpl in H. lia.
  - intros H0. rewrite H0 in Fr. eapply rows_percent_zero. exact Fr.
Qed.

(** C10, as amended (no division by zero unless the largest count is 0):
    for every mapping whose divisor [max_count] is not 0 the report is
    produced.  The divisor is 1 for the empty mapping and the largest count
    otherwise, and the heat map divides by the same number. *)
Theorem generate_html_no_zero_division (cc : dict coin_stat)
    (hot : list hot_thread) (n : nat) :
  first_count (sorted_desc stat_count cc) 1 <> 0%Z ->
  first_count (firstn 10 (sorted_desc stat_count cc)) 1
  = first_count (sorted_desc stat_count cc) 1
  /\ exists rep, generate_html cc hot n = Ok rep.
Proof.
  intros Hm. split; [apply first_count_firstn|].
  destruct (generate_html_rows cc hot n Hm) as [rep [E _]].
  exists rep. exact E.
Qed.

Lemma generate_html_no_zero_division_witness :
  first_count
    (sorted_desc stat_count [(str "BTC", {| count := 2; threads := [JInt 1; JInt 2] |})])
    1 <> 0%Z
  /\ (first_count
        (firstn 10
           (sorted_desc stat_count
              [(str "BTC", {| count := 2; threads := [JInt 1; JInt 2] |})])) 1
      = first_count
          (sorted_desc stat_count
             [(str "BTC", {| count := 2; threads := [JInt 1; JInt 2] |})]) 1
      /\ exists rep,
           generate_html
             [(str "BTC", {| count := 2; threads := [JInt 1; JInt 2] |})]
             [] 2 = Ok rep).
Proof.
  assert (first_count
            (sorted_desc stat_count
               [(str "BTC", {| count := 2; threads := [JInt 1; JInt 2] |})])
            1 <> 0%Z) as H by (simpl; discriminate).
  split; [exact H|].
  exact (generate_html_no_zero_division
           [(str "BTC", {| count := 2; threads := [JInt 1; JInt 2] |})] [] 2 H).
Defined.

(** C10 as stated fails: a mapping whose only count is 0 is divided by its
    largest count, 0. *)
Lemma generate_html_divides_by_zero :
  generate_html [(str "BTC", {| count := 0; threads := [] |})] [] 1
  = Raise ZeroDivisionError.
Proof. reflexivity. Qed.

(** The empty mapping: both divisors fall back to 1 and nothing is divided. *)
Lemma generate_html_empty (hot : list hot_thread) (n : nat) :
  first_count (sorted_desc stat_count []) 1 = 1%Z
  /\ first_count (firstn 10 (sorted_desc stat_count [])) 1 = 1%Z
  /\ exists rep, generate_html [] hot n = Ok rep /\ rp_rows rep = []
                 /\ rp_heatmap rep = [].
Proof.
  split; [reflexivity | split; [reflexivity|]].
  eexists. split; [reflexivity | split; reflexivity].
Qed.

Lemma report_derived_values_witness :
  generate_html
    [(str "BTC", {| count := 3; threads := [] |});
     (str "ETH", {| count := 1; threads := [] |})] [] 4
  = Ok {| rp_thread_count := 4;
          rp_coin_count := 2;
          rp_total_mentions := 4;
          rp_top_sym := Some (str "BTC");
          rp_top_cnt := 3;
          rp_rows :=
            [ {| r_index := 0; r_sym := str "BTC"; r_full_name := str "Bitcoin";
                 r_count := 3;
                 r_bar_w := (inject_Z 3 / inject_Z 3 * 100)%Q;
                 r_pct := (inject_Z 3 / inject_Z 4 * 100)%Q |};
              {| r_index := 1; r_sym := str "ETH"; r_full_name := str "Ethereum";
                 r_count := 1;
                 r_bar_w := (inject_Z 1 / inject_Z 3 * 100)%Q;
                 r_pct := (inject_Z 1 / inject_Z 4 * 100)%Q |} ];
          rp_heatmap :=
            [ {| hm_sym := str "BTC"; hm_w := (inject_Z 3 / inject_Z 3 * 100)%Q;
                 hm_color := 0; hm_count := 3 |};
              {| hm_sym := str "ETH"; hm_w := (inject_Z 1 / inject_Z 3 * 100)%Q;
                 hm_color := 1; hm_count := 1 |} ];
          rp_threads := [] |}
  /\ (Qsum [ (inject_Z 3 / inject_Z 4 * 100)%Q;
             (inject_Z 1 / inject_Z 4 * 100)%Q ] == 100)%Q.
Proof.
  split; [reflexivity|].
  pose proof (@report_derived_values
                [(str "BTC", {| count := 3; threads := [] |});
                 (str "ETH", {| count := 1; threads := [] |})] [] 4 _ eq_refl)
    as H.
  cbv zeta in H. destruct H as [_ [_ [_ [_ [_ [H _]]]]]].
  apply H. reflexivity.
Defined.

(** ** What aggregation hands to the report *)

Lemma dict_update_Forall {V} (P : pystr * V -> Prop) (k : pystr) (f : V -> V)
    (dflt : V) (d : dict V) :
  (forall k' v, P (k', v) -> P (k', f v)) -> P (k, f dflt) ->
  Forall P d -> Forall P (dict_update k f dflt d).
Proof.
  intros Hf Hd. induction 1 as [|[k0 v] d Hkv Hall IH]; simpl.
  - constructor; [exact Hd | constructor].
  - destruct (pystr_eqb k k0); constructor; auto.
Qed.

Lemma enumerate_from_cons {A} (i : nat) (x : A) (l : list A) :
  enumerate_from i (x :: l) = (i, x) :: enumerate_from (S i) l.
Proof. reflexivity. Qed.

Section PipelineFacts.
Variable uni_alnum : char -> bool.
Variable uni_lower : pystr -> char -> pystr -> pystr.
Variable set_rank : pyset -> pystr -> Z.


(** The console takes every line; the file system answers as it will. *)
Variable console : message -> option exn.
Hypothesis console_takes : forall m, console m = None.
Variable disk : disk_answer.

Local Abbreviation aggregate := (analyze uni_alnum uni_lower set_rank).
Local Abbreviation program net := (run uni_alnum uni_lower set_rank net console disk).
Local Abbreviation body net := (main_body uni_alnum uni_lower set_rank net console disk).

(** Every count of the aggregate mapping is at least 1. *)
Lemma analyze_counts_positive (ts : list json) (cc : dict coin_stat)
    (hot : list hot_thread) :
  aggregate ts = Ok (cc, hot) ->
  Forall (fun kv => (0 < stat_count kv)%Z) cc.
Proof.
  intros Hrun. apply analyze_Ok in Hrun as [_ [-> _]].
  assert (forall acc,
             Forall (fun kv => (0 < stat_count kv)%Z) (fst acc) ->
             Forall (fun kv => (0 < stat_count kv)%Z)
               (fst (fold_left (count_thread uni_alnum uni_lower set_rank) ts acc)))
    as H; [|apply H; constructor].
  induction ts as [|t ts IH]; intros [d h] Hd; [exact Hd|].
  cbn [fold_left]. apply IH. unfold count_thread. cbn [fst]. clear IH.
  revert d Hd.
  induction (coins_of uni_alnum uni_lower set_rank t) as [|c cs IHc];
    intros d Hd; [exact Hd|].
  cbn [fold_left]. apply IHc. unfold record_mention.
  apply dict_update_Forall; [| |exact Hd];
    unfold stat_count, add_mention, default_stat; cbn [snd count]; intros; lia.
Qed.

(** The report of what aggregation returns is always produced: the run
    divides by no zero. *)
Lemma generate_html_after_analyze (ts : list json) (cc : dict coin_stat)
    (hot : list hot_thread) (n : nat) :
  aggregate ts = Ok (cc, hot) ->
  exists rep, generate_html cc hot n = Ok rep.
Proof.
  intros Hrun.
  destruct (generate_html_rows cc hot n
              (positive_counts_max (analyze_counts_positive _ Hrun)))
    as [rep [E _]].
  exists rep. exact E.
Qed.

(** ** The run *)

Lemma print_eq (m : message) (tr : list event) :
  print console m tr = (tr ++ [Print m], Ok tt).
Proof. unfold print. rewrite console_takes. reflexivity. Qed.

Lemma fetch_catalog_eq (net : http_outcome) (tr : list event) :
  fetch_catalog net console tr
  = (tr ++ [Print MsgFetching; HttpGet catalog_url 20]
        ++ match fetch_result net with
           | Ok ts => [Print (MsgFetched (List.length ts))]
           | Raise _ => []
           end,
     fetch_result net).
Proof.
  unfold fetch_catalog, requests_get, raise_for_status, fetch_result, io_bind.
  rewrite print_eq. unfold emit, throw, ret, lift.
  destruct net as [e | status [catalog | e]]; cbn [fst snd].
  - rewrite <- app_assoc. reflexivity.
  - destruct ((400 <=? status) && (status <? 600))%Z; cbn [bind];
      [rewrite <- app_assoc; reflexivity|].
    destruct (py_iter catalog) as [pages | e]; cbn [bind];
      [|rewrite <- app_assoc; reflexivity].
    destruct (extend_threads pages []) as [ts | e];
      [rewrite print_eq|]; repeat rewrite <- app_assoc; reflexivity.
  - destruct ((400 <=? status) && (status <? 600))%Z; cbn [bind];
      repeat rewrite <- app_assoc; reflexivity.
Qed.

Lemma print_rows_eq (l : dict coin_stat) :
  forall i tr,
    print_rows console i l tr
    = (tr ++ map (fun p => Print (table_row (fst p) (snd p))) (enumerate_from i l),
       Ok tt).
Proof.
  induction l as [|[sym data] l IH]; intros i tr.
  - simpl. rewrite app_nil_r. reflexivity.
  - rewrite enumerate_from_cons. cbn [print_rows map fst snd].
    unfold io_bind, print_row. rewrite print_eq, IH, <- app_assoc. reflexivity.
Qed.

(** The [try] block, by what the fetch, the aggregation, the report and
    the file system return or raise. *)
Lemma main_body_eq (net : http_outcome) (tr : list event) :
  body net tr
  = match fetch_result net with
    | Raise e => (tr ++ [Print MsgFetching; HttpGet catalog_url 20], Raise e)
    | Ok ts =>
        let tr1 := tr ++ [ Print MsgFetching; HttpGet catalog_url 20;
                           Print (MsgFetched (List.length ts));
                           Print MsgAnalyzing ] in
        match aggregate ts with
        | Raise e => (tr1, Raise e)
        | Ok ([], _) => (tr1 ++ [Print MsgNoCoins], Ok tt)
        | Ok (kv :: cc', hot) =>
            let cc := kv :: cc' in
            let tr2 := tr1 ++ [ Print (MsgSummary (List.length cc) (sum_counts cc));
                                Print MsgTableHeader; Print MsgTableRule ]
                           ++ table_events cc in
            match generate_html cc hot (List.length ts) with
            | Raise e => (tr2, Raise e)
            | Ok rep =>
                match disk with
                | OpenFails cause => (tr2, Raise (OSError cause))
                | _ =>
                    if existsb is_surrogate (report_text rep)
                    then (tr2 ++ [OpenFile output_file], Raise UnicodeEncodeError)
                    else match disk with
                         | WriteFails cause =>
                             (tr2 ++ [OpenFile output_file], Raise (OSError cause))
                         | _ =>
                             (tr2 ++ [ OpenFile output_file;
                                       WriteFile output_file rep;
                                       Print (MsgReportWritten output_file) ],
                              Ok tt)
                         end
                end
            end
        end
    end.
Proof.
  unfold main_body, io_bind at 1. rewrite fetch_catalog_eq.
  destruct (fetch_result net) as [ts | e]; [|rewrite app_nil_r; reflexivity].
  unfold io_bind at 1. rewrite print_eq. unfold io_bind at 1, lift at 1.
  destruct (aggregate ts) as [[cc hot] | e];
    [|repeat rewrite <- app_assoc; reflexivity].
  cbv zeta. destruct cc as [|kv cc'].
  - rewrite print_eq. repeat rewrite <- app_assoc. reflexivity.
  - set (cc := kv :: cc'). unfold io_bind. rewrite !print_eq, print_rows_eq.
    fold (table_events cc). unfold lift.
    destruct (generate_html cc hot (List.length ts)) as [rep | e];
      [|repeat rewrite <- app_assoc; reflexivity].
    unfold write_document, io_bind, emit, throw.
    destruct disk as [|cause|cause];
      destruct (existsb is_surrogate (report_text rep));
      try rewrite print_eq; repeat rewrite <- app_assoc; reflexivity.
Qed.

(** The run, by what the [try] block does: its exception is printed, and
    raised again unless it is a request exception. *)
Lemma run_eq (net : http_outcome) :
  program net
  = match body net [Print MsgRule; Print MsgTitle; Print MsgRule] with
    | (tr, Ok _) => (tr, Ok tt)
    | (tr, Raise e) =>
        if is_RequestException e
        then (tr ++ [Print (MsgNetworkError e)], Ok tt)
        else (tr ++ [Print (MsgError e)], Raise e)
    end.
Proof.
  unfold run, main, io_bind, try_except. rewrite !print_eq. cbn [app].
  destruct (body net [Print MsgRule; Print MsgTitle; Print MsgRule])
    as [tr [[]|e]]; [reflexivity|].
  destruct (is_RequestException e); rewrite print_eq; unfold throw; reflexivity.
Qed.

Lemma transport_error_fetch (net : http_outcome) (e : exn) :
  transport_error net = Some e ->
  fetch_result net = Raise e /\ is_RequestException e = true.
Proof.
  unfold transport_error, fetch_result. destruct net as [e0 | status body].
  - destruct (is_RequestException e0) eqn:Er; [|discriminate].
    intros H. injection H as <-. split; [reflexivity | exact Er].
  - destruct ((400 <=? status) && (status <? 600))%Z; [|discriminate].
    intros H. injection H as <-. split; reflexivity.
Qed.

(** C5, as amended (a transport error ends the run, cleanly): when the
    request fails in transport, the run makes that one request, prints the
    cause as a network error, writes no document and returns normally. *)
Theorem transport_error_is_reported (net : http_outcome) (e : exn) :
  transport_error net = Some e ->
  let (trace, res) := program net in
  trace = run_prefix ++ [Print (MsgNetworkError e)]
  /\ List.length (filter is_request trace) = 1
  /\ filter is_write trace = []
  /\ res = Ok tt.
Proof.
  intros Ht. apply transport_error_fetch in Ht as [Hf He].
  rewrite run_eq, main_body_eq, Hf, He. cbn. auto.
Qed.

(** C6 (no coins, no document): when the catalog is fetched and aggregation
    returns an empty mapping, the run reports that no coin was recognised,
    writes no document and returns normally. *)
Theorem no_coins_no_document (net : http_outcome) (ts : list json)
    (hot : list hot_thread) :
  fetch_result net = Ok ts ->
  analyze uni_alnum uni_lower set_rank ts = Ok ([], hot) ->
  let (trace, res) := program net in
  trace = run_prefix
          ++ [ Print (MsgFetched (List.length ts));
               Print MsgAnalyzing; Print MsgNoCoins ]
  /\ filter is_write trace = []
  /\ res = Ok tt.
Proof.
  intros Hf Hcc. rewrite run_eq, main_body_eq, Hf. cbv zeta. rewrite Hcc.
  cbn. auto.
Qed.

(** An exception that is no request exception is printed and raised
    again: the run ends with it. *)
Lemma other_exception_is_reraised (status : Z) (e : exn) :
  ((400 <=? status) && (status <? 600))%Z = false ->
  is_RequestException e = false ->
  program (GetReturns status (Raise e))
  = (run_prefix ++ [Print (MsgError e)], Raise e).
Proof.
  intros Hs He. rewrite run_eq, main_body_eq. unfold fetch_result.
  rewrite Hs. cbn [bind]. rewrite He. reflexivity.
Qed.
End PipelineFacts.

Lemma transport_error_is_reported_witness :
  transport_error (GetRaises (ConnectionError (str "connection refused")))
  = Some (ConnectionError (str "connection refused"))
  /\ let (trace, res) :=
       run no_alnum same_lower equal_rank
         (GetRaises (ConnectionError (str "connection refused")))
         utf8_console DiskTakes in
     trace = run_prefix
             ++ [Print (MsgNetworkError (ConnectionError (str "connection refused")))]
     /\ List.length (filter is_request trace) = 1
     /\ filter is_write trace = []
     /\ res = Ok tt.
Proof.
  split; [reflexivity|].
  exact (@transport_error_is_reported no_alnum same_lower equal_rank
           utf8_console (fun _ => eq_refl) DiskTakes
           (GetRaises (ConnectionError (str "connection refused"))) _ eq_refl).
Defined.

(** C5 as stated fails: after a timeout of the request the exception is
    caught and [main] returns, so the process exits with status 0. *)
Lemma transport_error_exits_cleanly :
  run no_alnum same_lower equal_rank
    (GetRaises (Timeout (str "read timed out"))) utf8_console DiskTakes
  = (run_prefix ++ [Print (MsgNetworkError (Timeout (str "read timed out")))],
     Ok tt)
  /\ ~ (exists e,
          snd (run no_alnum same_lower equal_rank
                 (GetRaises (Timeout (str "read timed out")))
                 utf8_console DiskTakes) = Raise e).
Proof.
  split; [reflexivity|]. intros [e H]. discriminate H.
Qed.

(** C6 on the empty catalog. *)
Lemma no_coins_no_document_witness :
  fetch_result (GetReturns 200 (Ok (JArray []))) = Ok []
  /\ analyze no_alnum same_lower equal_rank [] = Ok ([], [])
  /\ let (trace, res) :=
       run no_alnum same_lower equal_rank (GetReturns 200 (Ok (JArray [])))
         utf8_console DiskTakes in
     trace = run_prefix
             ++ [ Print (MsgFetched 0); Print MsgAnalyzing; Print MsgNoCoins ]
     /\ filter is_write trace = []
     /\ res = Ok tt.
Proof.
  split; [reflexivity | split; [reflexivity|]].
  exact (@no_coins_no_document no_alnum same_lower equal_rank
           utf8_console (fun _ => eq_refl) DiskTakes
           (GetReturns 200 (Ok (JArray []))) [] [] eq_refl eq_refl).
Defined.

(** ** The scenarios of the specification, evaluated *)

(** C2 on the text of the specification: the alias is found in the word
    "Ether", written with a capital, and is no whole word in
    "ethernet". *)
Lemma alias_whole_word_match_witness :
  In (str "ether", str "ETH") ALIASES
  /\ (search_alias no_alnum (str "ether")
        (lower same_lower (strip_tags (str "Ether on ethernet"))) = true
      /\ In (str "ETH")
            (extract_coins no_alnum same_lower equal_rank
               (Some (str "Ether on ethernet"))))
  /\ ~ whole_word_occ no_alnum (str "ether")
         (lower same_lower (strip_tags (str "fast ethernet")))
  /\ search_alias no_alnum (str "ether")
       (lower same_lower (strip_tags (str "fast ethernet"))) = false.
Proof.
  assert (In (str "ether", str "ETH") ALIASES) as H
    by (do 4 right; left; reflexivity).
  split; [exact H|]. split.
  - destruct (@alias_whole_word_match no_alnum same_lower equal_rank
                (str "ether") (str "ETH") (str "Ether on ethernet") H)
      as [_ [_ [_ [Hcase _]]]].
    apply (Hcase [] (str "Ether") (str " on ethernet"));
      [discriminate | reflexivity | reflexivity | reflexivity | reflexivity].
  - destruct (@alias_whole_word_match no_alnum same_lower equal_rank
                (str "ether") (str "ETH") (str "fast ethernet") H)
      as [Hspec _].
    assert (search_alias no_alnum (str "ether")
              (lower same_lower (strip_tags (str "fast ethernet"))) = false)
      as Hs by (vm_compute; reflexivity).
    split; [|exact Hs].
    intros Hocc. apply Hspec in Hocc. rewrite Hs in Hocc. discriminate Hocc.
Defined.

Example extract_symbol :
  extract_coins no_alnum same_lower equal_rank (Some (str "BTC to the moon "))
  = [str "BTC"].
Proof. vm_compute. reflexivity. Qed.

Example extract_two_aliases_one_symbol :
  extract_coins no_alnum same_lower equal_rank
    (Some (str " I think Ethereum will pump, vitalik said so"))
  = [str "ETH"].
Proof. vm_compute. reflexivity. Qed.

Example extract_alias_inside_word :
  search_alias no_alnum (str "ether")
    (lower same_lower (strip_tags (str "ethernet cables"))) = false
  /\ extract_coins no_alnum same_lower equal_rank (Some (str "ethernet cables")) = [].
Proof. split; vm_compute; reflexivity. Qed.

Example extract_unknown_capitals :
  extract_coins no_alnum same_lower equal_rank (Some (str " XYZABC is not a coin")) = [].
Proof. vm_compute. reflexivity. Qed.

Example extract_ignores_tags :
  extract_coins no_alnum same_lower equal_rank
    (Some (str "<a href=BTC>up</a> SOL and solana, not BTC_ or ETH2"))
  = [str "SOL"].
Proof. vm_compute. reflexivity. Qed.

Example analyze_sample :
  analyze no_alnum same_lower equal_rank sample_threads
  = Ok (sample_counts, sample_hot).
Proof. vm_compute. reflexivity. Qed.

Example analyze_counts_a_thread_once :
  analyze no_alnum same_lower equal_rank
    [ JObject [ (str "no", JInt 1); (str "sub", JStr (str "BTC BTC and bitcoin"));
                (str "com", JStr (str "<b>BTC</b> sats"));
                (str "replies", JInt 5) ] ]
  = Ok ( [ (str "BTC", {| count := 1; threads := [JInt 1] |}) ],
         [ {| h_no := JInt 1; h_sub := str "BTC BTC and bitcoin";
              h_coins := [str "BTC"]; h_replies := JInt 5 |} ] ).
Proof. vm_compute. reflexivity. Qed.

Example analyze_orders_by_replies :
  option_map (fun r => map h_no (snd r))
    (match analyze no_alnum same_lower equal_rank
             [ JObject [ (str "no", JInt 1); (str "sub", JStr (str "SOL"));
                         (str "replies", JInt 2) ];
               JObject [ (str "no", JInt 2); (str "com", JStr (str "nothing here"));
                         (str "replies", JInt 50) ];
               JObject [ (str "no", JInt 3); (str "sub", JStr (str "SOL again"));
                         (str "replies", JInt 10) ];
               JObject [ (str "no", JInt 4); (str "sub", JStr []);
                         (str "com", JStr (str "tron"));
                         (str "replies", JInt 2) ] ] with
     | Ok r => Some r
     | Raise _ => None
     end)
  = Some [JInt 3; JInt 1; JInt 4].
Proof. vm_compute. reflexivity. Qed.

(** A subject that is a number: the join raises. *)
Example analyze_subject_not_text :
  analyze no_alnum same_lower equal_rank
    [ JObject [ (str "no", JInt 1); (str "sub", JInt 5) ] ]
  = Raise TypeError.
Proof. vm_compute. reflexivity. Qed.

(** A thread that is no object: [t.get] raises. *)
Example analyze_thread_not_object :
  analyze no_alnum same_lower equal_rank [JStr (str "BTC")]
  = Raise AttributeError.
Proof. vm_compute. reflexivity. Qed.

(** A reply count of [null] passes while nothing is compared with it, and
    makes the sort raise as soon as there are two hot threads. *)
Example analyze_null_replies :
  analyze no_alnum same_lower equal_rank
    [ JObject [ (str "no", JInt 1); (str "sub", JStr (str "BTC"));
                (str "replies", JNull) ] ]
  = Ok ( [ (str "BTC", {| count := 1; threads := [JInt 1] |}) ],
         [ {| h_no := JInt 1; h_sub := str "BTC";
              h_coins := [str "BTC"]; h_replies := JNull |} ] )
  /\ analyze no_alnum same_lower equal_rank
       [ JObject [ (str "no", JInt 1); (str "sub", JStr (str "BTC"));
                   (str "replies", JNull) ];
         JObject [ (str "no", JInt 2); (str "sub", JStr (str "ETH"));
                   (str "replies", JInt 3) ] ]
     = Raise TypeError.
Proof. split; vm_compute; reflexivity. Qed.

(** * Further properties of the code *)

(** ** Tag stripping *)

Lemma tag_close_None (s : pystr) : tag_close s = None <-> ~ In 62%N s.
Proof.
  induction s as [|c r IH]; simpl; [tauto|].
  destruct (c =? 62)%N eqn:E.
  - apply N.eqb_eq in E. split; [discriminate | intros H; destruct H; auto].
  - apply N.eqb_neq in E. destruct (tag_close r); simpl.
    + split; [discriminate|]. intros H. exfalso.
      assert (~ In 62%N r) as Hr by tauto.
      apply IH in Hr. discriminate Hr.
    + split; [|reflexivity]. intros _ [H | H]; [congruence|].
      apply (proj1 IH eq_refl). exact H.
Qed.

Lemma match_tag_needs_close (s : pystr) :
  ~ In 62%N s -> match_tag s = None.
Proof.
  intros Hn. destruct (match_tag s) as [n|] eqn:E; [|reflexivity].
  apply match_tag_Some in E as [rest [body [_ [_ ->]]]].
  exfalso. apply Hn. right. apply in_or_app. right. left. reflexivity.
Qed.

Lemma match_tag_not_open (c : char) (r : pystr) :
  c <> 60%N -> match_tag (c :: r) = None.
Proof.
  intros Hc. unfold match_tag. destruct r; [reflexivity|].
  apply N.eqb_neq in Hc. rewrite Hc. reflexivity.
Qed.

(** Without a [">"] there is no tag to strip. *)
Lemma strip_tags_no_close (s : pystr) : ~ In 62%N s -> strip_tags s = s.
Proof.
  unfold strip_tags. induction s as [|c r IH]; intros Hn; [reflexivity|].
  rewrite sub_tags_cons, (match_tag_needs_close _ Hn).
  rewrite IH; [reflexivity|]. intros H. apply Hn. right. exact H.
Qed.

Lemma match_tag_after_strip (c : char) (r : pystr) :
  match_tag (c :: r) = None -> match_tag (c :: strip_tags r) = None.
Proof.
  intros Hm. destruct (N.eq_dec c 60) as [-> | Hc];
    [|apply match_tag_not_open; exact Hc].
  destruct r as [|d r']; [reflexivity|].
  destruct (N.eq_dec d 62) as [-> | Hd].
  - unfold strip_tags. rewrite sub_tags_cons.
    rewrite (@match_tag_not_open 62%N r') by discriminate. reflexivity.
  - unfold match_tag in Hm. apply N.eqb_neq in Hd. rewrite Hd in Hm.
    cbn [N.eqb Pos.eqb andb negb] in Hm.
    destruct (tag_close r') eqn:Et; [discriminate Hm|].
    apply tag_close_None in Et.
    rewrite strip_tags_no_close; [|].
    + unfold match_tag. rewrite Hd. cbn [N.eqb Pos.eqb andb negb].
      apply tag_close_None in Et. rewrite Et. reflexivity.
    + apply N.eqb_neq in Hd. intros [H | H]; [congruence | contradiction].
Qed.

Lemma strip_tags_suffixes (n : nat) :
  forall s, List.length s <= n ->
  forall pre t, strip_tags s = pre ++ t -> match_tag t = None.
Proof.
  induction n as [|n IH]; intros s Hl pre t E.
  - destruct s; [|simpl in Hl; lia]. destruct pre; [|discriminate].
    simpl in E. subst t. reflexivity.
  - destruct s as [|c r].
    { destruct pre; [|discriminate]. simpl in E. subst t. reflexivity. }
    simpl in Hl. destruct (match_tag (c :: r)) as [m|] eqn:Em.
    + destruct (match_tag_Some _ Em) as [rest Htag].
      rewrite (strip_tags_tag Htag) in E.
      assert (List.length rest <= n) as Hr.
      { destruct Htag as [body [_ [_ Es]]].
        apply (f_equal (@List.length char)) in Es. simpl in Es.
        rewrite length_app in Es. simpl in Es. unfold pystr, char in *. lia. }
      destruct pre as [|x pre].
      * simpl in E. subst t. apply match_tag_not_open. discriminate.
      * inversion E. eapply IH; eassumption.
    + assert (strip_tags (c :: r) = c :: strip_tags r) as Es.
      { unfold strip_tags. rewrite sub_tags_cons, Em. reflexivity. }
      rewrite Es in E. destruct pre as [|x pre].
      * simpl in E. subst t. apply match_tag_after_strip. exact Em.
      * inversion E. eapply (IH r); [lia | eassumption].
Qed.

Lemma strip_tags_fixed (s : pystr) :
  (forall pre t, s = pre ++ t -> match_tag t = None) -> strip_tags s = s.
Proof.
  unfold strip_tags. induction s as [|c r IH]; intros H; [reflexivity|].
  rewrite sub_tags_cons, (H [] (c :: r) eq_refl). rewrite IH; [reflexivity|].
  intros pre t E. apply (H (c :: pre)). rewrite E. reflexivity.
Qed.

Lemma sub_tags_length (s : pystr) :
  forall skip, List.length (sub_tags skip s) <= List.length s.
Proof.
  induction s as [|c r IH]; intros skip; [simpl; lia|].
  destruct skip as [|k].
  - rewrite sub_tags_cons. destruct (match_tag (c :: r)); simpl.
    + specialize (IH (n - 1)). lia.
    + specialize (IH 0). lia.
  - simpl. specialize (IH k). lia.
Qed.

(** X1 (the cleaned text holds no tag): at no place of the tag-stripped
    text does a tag start, so stripping it again changes nothing; and
    stripping never makes the text longer. *)
Theorem strip_tags_leaves_no_tag (text : pystr) :
  (forall pre s rest, strip_tags text = pre ++ s -> ~ tag_prefix s rest)
  /\ strip_tags (strip_tags text) = strip_tags text
  /\ List.length (strip_tags text) <= List.length text.
Proof.
  pose proof (@strip_tags_suffixes (List.length text) text (Nat.le_refl _)) as Hs.
  split; [|split].
  - intros pre s rest E [body [Hne [Hn Es]]].
    specialize (Hs pre s E). subst s.
    destruct body as [|d body]; [congruence|]. cbn [app] in Hs.
    rewrite match_tag_tag in Hs; [discriminate Hs | |].
    + intros ->. apply Hn. left. reflexivity.
    + intros H. apply Hn. right. exact H.
  - apply strip_tags_fixed. exact Hs.
  - apply sub_tags_length.
Qed.

Lemma sub_tags_In (c : char) (s : pystr) :
  forall skip, In c (sub_tags skip s) -> c = 32%N \/ In c s.
Proof.
  induction s as [|x r IH]; intros skip H; [destruct H|].
  destruct skip as [|k].
  - rewrite sub_tags_cons in H. destruct (match_tag (x :: r)).
    + destruct H as [H | H]; [left; congruence|].
      destruct (IH _ H); [left | right; right]; assumption.
    + destruct H as [H | H]; [right; left; exact H|].
      destruct (IH _ H); [left | right; right]; assumption.
  - simpl in H. destruct (IH _ H); [left | right; right]; assumption.
Qed.

Lemma strip_tags_forallb (p : char -> bool) (s : pystr) :
  p 32%N = true -> forallb p s = true -> forallb p (strip_tags s) = true.
Proof.
  intros Hsp Hs. rewrite forallb_forall in *. intros c Hc.
  destruct (sub_tags_In _ _ _ Hc) as [-> | H]; [exact Hsp | apply Hs, H].
Qed.

(** ** Extraction and the case of letters *)

Section CaseFacts.
Variable uni_alnum : char -> bool.
Variable uni_lower : pystr -> char -> pystr -> pystr.
Variable set_rank : pyset -> pystr -> Z.

(** X2 (aliases are matched in any letter case): in ASCII text, a whole
    word of the tag-stripped text that equals an alias once its capitals
    are lowered puts the alias's symbol in the result. *)
Theorem alias_found_in_any_case (alias sym text w : pystr) :
  In (alias, sym) ALIASES ->
  forallb is_ascii text = true ->
  map ascii_lower w = alias ->
  whole_word_occ uni_alnum w (strip_tags text) ->
  In sym (extract_coins uni_alnum uni_lower set_rank (Some text)).
Proof.
  intros Hin Ha Hw Hocc. apply extract_coins_In. split.
  - intros ->. destruct Hocc as [pre [post [E _]]].
    destruct pre; [|discriminate E]. destruct w; [|discriminate E].
    simpl in Hw. subst alias.
    destruct (aliases_are_words uni_alnum Hin) as [H _]. discriminate H.
  - left. exists alias. split; [exact Hin|]. subst alias.
    apply whole_word_occ_lower; [|exact Hocc].
    apply strip_tags_forallb; [reflexivity | exact Ha].
Qed.

(** X3 (tickers are matched in capitals only): a text without a capital
    ASCII letter yields exactly the symbols of the aliases it names; a
    ticker written in lower case is not matched by the symbol pass. *)
Theorem no_capitals_only_aliases (text : pystr) :
  forallb (fun c => negb (is_AZ c)) text = true ->
  forall sym,
    In sym (extract_coins uni_alnum uni_lower set_rank (Some text))
    <-> text <> []
        /\ alias_symbol uni_alnum (lower uni_lower (strip_tags text)) sym.
Proof.
  intros Hlow sym. rewrite extract_coins_In. split; [|tauto].
  intros [Hne [H | [_ [[Hl Haz] [pre [post [E _]]]]]]]; [tauto | exfalso].
  apply (strip_tags_forallb (fun c => negb (is_AZ c)) text eq_refl) in Hlow.
  rewrite E, !forallb_app in Hlow.
  apply andb_true_iff in Hlow as [_ Hlow].
  apply andb_true_iff in Hlow as [Hlow _].
  destruct sym as [|c sym]; [simpl in Hl; lia|]. simpl in Haz, Hlow.
  apply andb_true_iff in Haz as [Hc _]. rewrite Hc in Hlow. discriminate Hlow.
Qed.
End CaseFacts.

Lemma alias_found_in_any_case_witness :
  In (str "ethereum", str "ETH") ALIASES
  /\ forallb is_ascii (str "<b>Buy</b> ETHEREUM now") = true
  /\ map ascii_lower (str "ETHEREUM") = str "ethereum"
  /\ whole_word_occ no_alnum (str "ETHEREUM")
       (strip_tags (str "<b>Buy</b> ETHEREUM now"))
  /\ In (str "ETH")
        (extract_coins no_alnum same_lower equal_rank
           (Some (str "<b>Buy</b> ETHEREUM now"))).
Proof.
  assert (In (str "ethereum", str "ETH") ALIASES) as H1
    by (do 3 right; left; reflexivity).
  assert (whole_word_occ no_alnum (str "ETHEREUM")
            (strip_tags (str "<b>Buy</b> ETHEREUM now"))) as H4.
  { exists (str " Buy  "), (str " now"). split; [reflexivity | split; reflexivity]. }
  split; [exact H1 | split; [reflexivity | split; [reflexivity | split; [exact H4|]]]].
  exact (@alias_found_in_any_case no_alnum same_lower equal_rank
           (str "ethereum") (str "ETH") (str "<b>Buy</b> ETHEREUM now")
           (str "ETHEREUM") H1 eq_refl eq_refl H4).
Defined.

Lemma no_capitals_only_aliases_witness :
  forallb (fun c => negb (is_AZ c)) (str "sol and btc, i mean solana") = true
  /\ forall sym,
       In sym (extract_coins no_alnum same_lower equal_rank
                 (Some (str "sol and btc, i mean solana")))
       <-> str "sol and btc, i mean solana" <> []
           /\ alias_symbol no_alnum
                (lower same_lower (strip_tags (str "sol and btc, i mean solana")))
                sym.
Proof.
  split; [reflexivity|].
  exact (@no_capitals_only_aliases no_alnum same_lower equal_rank
           (str "sol and btc, i mean solana") eq_refl).
Defined.

(** ** The aggregate mapping as a dictionary *)

Lemma keys_dict_update {V} (k : pystr) (f : V -> V) (dflt : V) (d : dict V) :
  keys (dict_update k f dflt d) = if dict_mem k d then keys d else keys d ++ [k].
Proof.
  unfold dict_mem, keys. induction d as [|[k0 v] d IH]; simpl; [reflexivity|].
  destruct (pystr_eqb k k0); simpl; [reflexivity|].
  rewrite IH. destruct (dict_get k d); reflexivity.
Qed.

Lemma dict_update_NoDup {V} (k : pystr) (f : V -> V) (dflt : V) (d : dict V) :
  NoDup (keys d) -> NoDup (keys (dict_update k f dflt d)).
Proof.
  intros H. rewrite keys_dict_update. destruct (dict_mem k d) eqn:E; [exact H|].
  assert (~ In k (keys d)) as Hn by (rewrite <- dict_get_In_keys; congruence).
  clear E. induction H as [|x l Hx Hl IH]; simpl.
  - constructor; [intros [] | constructor].
  - constructor.
    + rewrite in_app_iff. simpl. intros [H1 | [H1 | []]]; [tauto|].
      apply Hn. left. congruence.
    + apply IH. intros H1. apply Hn. right. exact H1.
Qed.

Lemma dict_get_In {V} (k : pystr) (v : V) (d : dict V) :
  NoDup (keys d) -> (In (k, v) d <-> dict_get k d = Some v).
Proof.
  unfold keys. induction d as [|[k0 v0] d IH]; simpl; intros Hnd.
  - split; [tauto | discriminate].
  - inversion Hnd as [|? ? Hk Hd]; subst. destruct (pystr_eqb k k0) eqn:E.
    + apply pystr_eqb_eq in E. subst k0. split.
      * intros [H | H]; [congruence|]. exfalso. apply Hk.
        apply in_map_iff. exists (k, v). auto.
      * intros H. left. congruence.
    + apply pystr_eqb_neq in E. rewrite <- (IH Hd). split.
      * intros [H | H]; [congruence | exact H].
      * auto.
Qed.

Lemma sum_counts_record_mention (no : json) (d : dict coin_stat) (sym : pystr) :
  sum_counts (record_mention no d sym) = (sum_counts d + 1)%Z.
Proof.
  rewrite !sum_counts_Zsum. unfold record_mention.
  induction d as [|[k0 v] d IH]; simpl; [reflexivity|].
  destruct (pystr_eqb sym k0); simpl.
  - unfold stat_count at 1 3. simpl. lia.
  - rewrite IH. lia.
Qed.

Section AggregateFacts.
Variable uni_alnum : char -> bool.
Variable uni_lower : pystr -> char -> pystr -> pystr.
Variable set_rank : pyset -> pystr -> Z.

Local Abbreviation coins := (coins_of uni_alnum uni_lower set_rank).
Local Abbreviation step := (count_thread uni_alnum uni_lower set_rank).
Local Abbreviation aggregate := (analyze uni_alnum uni_lower set_rank).
Local Abbreviation hot_of := (hot_record uni_alnum uni_lower set_rank).
Local Abbreviation mentioning sym := (filter (mentions uni_alnum uni_lower set_rank sym)).
Local Abbreviation with_coins := (filter (mentions_any uni_alnum uni_lower set_rank)).

Lemma aggregate_stat (ts : list json) (cc : dict coin_stat)
    (hot : list hot_thread) (sym : pystr) :
  aggregate ts = Ok (cc, hot) ->
  stat_or_default cc sym
  = {| count := Z.of_nat (List.length (mentioning sym ts));
       threads := map thread_id (mentioning sym ts) |}.
Proof.
  intros Hrun. unfold stat_or_default. rewrite (@analyze_get _ _ _ _ _ _ sym Hrun).
  destruct (mentioning sym ts); reflexivity.
Qed.

Lemma aggregate_key (ts : list json) (cc : dict coin_stat)
    (hot : list hot_thread) (sym : pystr) :
  aggregate ts = Ok (cc, hot) ->
  (In sym (keys cc) <-> exists t, In t ts /\ In sym (coins t)).
Proof.
  intros Hrun. rewrite <- dict_get_In_keys. unfold dict_mem.
  rewrite (@analyze_get _ _ _ _ _ _ sym Hrun). split.
  - destruct (mentioning sym ts) as [|t hits] eqn:E; [discriminate|]. intros _.
    assert (In t (mentioning sym ts)) as Ht by (rewrite E; left; reflexivity).
    apply filter_In in Ht as [Ht Hm]. exists t. split; [exact Ht|].
    apply set_mem_In. exact Hm.
  - intros [t [Ht Hs]].
    assert (In t (mentioning sym ts)) as Hin.
    { apply filter_In. split; [exact Ht|]. apply set_mem_In. exact Hs. }
    destruct (mentioning sym ts); [destruct Hin | reflexivity].
Qed.

Lemma fold_keys_NoDup (ts : list json) :
  forall acc, NoDup (keys (fst acc)) ->
              NoDup (keys (fst (fold_left step ts acc))).
Proof.
  induction ts as [|t ts IH]; intros [d h] Hd; [exact Hd|].
  cbn [fold_left]. apply IH. unfold count_thread. cbn [fst] in *.
  revert d Hd. induction (coins t) as [|c cs IHc]; intros d Hd; [exact Hd|].
  cbn [fold_left]. apply IHc. apply dict_update_NoDup. exact Hd.
Qed.

Lemma aggregate_NoDup (ts : list json) (cc : dict coin_stat)
    (hot : list hot_thread) :
  aggregate ts = Ok (cc, hot) -> NoDup (keys cc).
Proof.
  intros Hrun. apply analyze_Ok in Hrun as [_ [-> _]].
  apply fold_keys_NoDup. constructor.
Qed.

(** X4 (one entry per symbol): the mapping that aggregation returns has no
    key twice, its keys are exactly the symbols that the extraction of
    some thread returned, and looking a symbol up finds its one entry. *)
Theorem aggregate_mapping_keys (ts : list json) (cc : dict coin_stat)
    (hot : list hot_thread) :
  analyze uni_alnum uni_lower set_rank ts = Ok (cc, hot) ->
  NoDup (keys cc)
  /\ (forall sym,
        In sym (keys cc)
        <-> exists t, In t ts /\ In sym (coins t))
  /\ (forall sym st,
        In (sym, st) cc
        <-> dict_get sym cc = Some st).
Proof.
  intros Hrun.
  split; [apply (aggregate_NoDup _ Hrun) | split].
  - intros sym. apply (aggregate_key _ sym Hrun).
  - intros sym st. apply dict_get_In, (aggregate_NoDup _ Hrun).
Qed.

Lemma fold_sum_counts (ts : list json) :
  forall acc,
    sum_counts (fst (fold_left step ts acc))
    = (sum_counts (fst acc) + Z.of_nat (List.length (flat_map coins ts)))%Z.
Proof.
  induction ts as [|t ts IH]; intros [d h]; [simpl; lia|].
  cbn [fold_left flat_map]. rewrite IH, length_app, Nat2Z.inj_add.
  unfold count_thread. cbn [fst].
  assert (forall cs d0,
             sum_counts (fold_left (record_mention (thread_id t)) cs d0)
             = (sum_counts d0 + Z.of_nat (List.length cs))%Z) as H.
  { induction cs as [|c cs IHc]; intros d0; [simpl; lia|].
    cbn [fold_left]. rewrite IHc, sum_counts_record_mention.
    cbn [List.length]. lia. }
  rewrite H. lia.
Qed.

(** X5 (total mentions): the counts of the mapping that aggregation
    returns add up to the number of pairs of a thread and a symbol
    extracted from it. *)
Theorem total_mentions_counts_pairs (ts : list json) (cc : dict coin_stat)
    (hot : list hot_thread) :
  analyze uni_alnum uni_lower set_rank ts = Ok (cc, hot) ->
  sum_counts cc = Z.of_nat (List.length (flat_map coins ts)).
Proof.
  intros Hrun. apply analyze_Ok in Hrun as [_ [-> _]].
  rewrite fold_sum_counts. reflexivity.
Qed.

Lemma with_coins_nil (ts : list json) :
  with_coins ts = [] <-> Forall (fun t => coins t = []) ts.
Proof.
  induction ts as [|t ts IH]; simpl.
  - split; [constructor | reflexivity].
  - unfold mentions_any at 1. destruct (coins t) eqn:E.
    + rewrite IH. split; [constructor; assumption|].
      intros H. inversion H; assumption.
    + split; [discriminate|]. intros H. inversion H; subst. congruence.
Qed.

Lemma aggregate_fst_nil (ts : list json) (cc : dict coin_stat)
    (hot : list hot_thread) :
  aggregate ts = Ok (cc, hot) ->
  (cc = [] <-> Forall (fun t => coins t = []) ts).
Proof.
  intros Hrun. split.
  - intros E. apply Forall_forall. intros t Ht.
    destruct (coins t) as [|c cs] eqn:Ec; [reflexivity|]. exfalso.
    assert (In c (keys cc)) as H.
    { apply (aggregate_key _ c Hrun). exists t. split; [exact Ht|].
      rewrite Ec. left. reflexivity. }
    rewrite E in H. destruct H.
  - intros H. destruct cc as [|[k v] d] eqn:E; [reflexivity|].
    exfalso.
    assert (In k (keys cc)) as Hk by (rewrite E; left; reflexivity).
    rewrite <- E in Hrun.
    apply (aggregate_key _ k Hrun) in Hk as [t [Ht Hc]].
    rewrite Forall_forall in H. rewrite (H t Ht) in Hc. destruct Hc.
Qed.

Lemma aggregate_hot_length (ts : list json) (cc : dict coin_stat)
    (hot : list hot_thread) :
  aggregate ts = Ok (cc, hot) ->
  List.length hot = Nat.min 10 (List.length (with_coins ts)).
Proof.
  intros Hrun. apply analyze_Ok in Hrun as [_ [_ [ranked [Hsort ->]]]].
  rewrite length_firstn, (Permutation_length (sort_by_perm _ _ Hsort)), length_map.
  reflexivity.
Qed.

Lemma aggregate_snd_nil (ts : list json) (cc : dict coin_stat)
    (hot : list hot_thread) :
  aggregate ts = Ok (cc, hot) ->
  (hot = [] <-> with_coins ts = []).
Proof.
  intros Hrun. pose proof (aggregate_hot_length _ Hrun) as Hlen. split.
  - intros ->. destruct (with_coins ts); [reflexivity | discriminate Hlen].
  - intros E. rewrite E in Hlen. destruct hot; [reflexivity | discriminate Hlen].
Qed.

(** X6 (no coins, no hot threads): the mapping that aggregation returns is
    empty exactly when the hot-thread list is, which is when no thread
    mentions a coin; and the list holds as many records as threads mention
    a coin, up to ten. *)
Theorem empty_mapping_iff_no_hot_thread (ts : list json) (cc : dict coin_stat)
    (hot : list hot_thread) :
  analyze uni_alnum uni_lower set_rank ts = Ok (cc, hot) ->
  (cc = [] <-> hot = [])
  /\ (hot = [] <-> Forall (fun t => coins t = []) ts)
  /\ List.length hot = Nat.min 10 (List.length (with_coins ts)).
Proof.
  intros Hrun. split; [|split].
  - rewrite (aggregate_fst_nil _ Hrun), (aggregate_snd_nil _ Hrun), with_coins_nil.
    tauto.
  - rewrite (aggregate_snd_nil _ Hrun). apply with_coins_nil.
  - apply (aggregate_hot_length _ Hrun).
Qed.

(** X7 (the two results agree): every hot thread lists at least one
    symbol, none twice, and each symbol it lists has an entry in the
    mapping whose thread ids include this thread's id. *)
Theorem hot_threads_are_counted (ts : list json) (cc : dict coin_stat)
    (hot : list hot_thread) :
  analyze uni_alnum uni_lower set_rank ts = Ok (cc, hot) ->
  Forall
    (fun h =>
       h_coins h <> []
       /\ NoDup (h_coins h)
       /\ forall sym,
            In sym (h_coins h) ->
            exists st,
              dict_get sym cc = Some st
              /\ In (h_no h) (threads st)
              /\ (1 <= count st)%Z)
    hot.
Proof.
  intros Hrun. apply Forall_forall. intros h Hh.
  pose proof (fun sym => @analyze_get _ _ _ _ _ _ sym Hrun) as Hget.
  apply analyze_Ok in Hrun as [_ [_ [ranked [Hsort ->]]]].
  apply In_firstn in Hh.
  apply (Permutation_in _ (sort_by_perm _ _ Hsort)) in Hh.
  apply in_map_iff in Hh as [t [<- Ht]].
  apply filter_In in Ht as [Ht Hany]. cbn [h_coins h_no hot_record].
  split; [|split].
  - unfold mentions_any in Hany. destruct (coins t); [discriminate | discriminate].
  - apply extract_coins_NoDup.
  - intros sym Hs.
    assert (In t (mentioning sym ts)) as Hin.
    { apply filter_In. split; [exact Ht|]. apply set_mem_In. exact Hs. }
    rewrite Hget.
    destruct (mentioning sym ts) as [|t0 hits] eqn:E; [destruct Hin|].
    eexists. split; [reflexivity|]. cbn [threads count]. split.
    + apply in_map. exact Hin.
    + simpl. lia.
Qed.

(** X8 (aggregation is additive): where aggregation returns on two
    sequences of threads and on the one followed by the other, the entry
    of a symbol over the whole has the sum of the two counts and the two
    lists of thread ids, one after the other (a missing entry counting as
    0 and no ids). *)
Theorem analyze_app (ts1 ts2 : list json) (cc1 cc2 cc : dict coin_stat)
    (hot1 hot2 hot : list hot_thread) (sym : pystr) :
  analyze uni_alnum uni_lower set_rank ts1 = Ok (cc1, hot1) ->
  analyze uni_alnum uni_lower set_rank ts2 = Ok (cc2, hot2) ->
  analyze uni_alnum uni_lower set_rank (ts1 ++ ts2) = Ok (cc, hot) ->
  stat_or_default cc sym
  = {| count := (count (stat_or_default cc1 sym)
                 + count (stat_or_default cc2 sym))%Z;
       threads := threads (stat_or_default cc1 sym)
                  ++ threads (stat_or_default cc2 sym) |}.
Proof.
  intros H1 H2 H.
  rewrite (aggregate_stat _ sym H1), (aggregate_stat _ sym H2),
    (aggregate_stat _ sym H).
  cbn [count threads].
  rewrite filter_app, length_app, map_app, Nat2Z.inj_add. reflexivity.
Qed.
End AggregateFacts.

(** ** The iteration order of the set does not matter *)




Section OrderFacts.
Variable uni_alnum : char -> bool.
Variable uni_lower : pystr -> char -> pystr -> pystr.
Variables rank1 rank2 : pyset -> pystr -> Z.




End OrderFacts.

(** ** The report *)

Lemma enumerate_from_fst {A} (l : list A) :
  forall i, map fst (enumerate_from i l) = seq i (List.length l).
Proof.
  induction l as [|x l IH]; intros i; [reflexivity|].
  rewrite enumerate_from_cons. simpl. rewrite IH. reflexivity.
Qed.

Lemma enumerate_from_snd {A} (l : list A) :
  forall i, map snd (enumerate_from i l) = l.
Proof.
  induction l as [|x l IH]; intros i; [reflexivity|].
  rewrite enumerate_from_cons. simpl. rewrite IH. reflexivity.
Qed.

Lemma enumerate_from_firstn {A} (n : nat) :
  forall (l : list A) i,
    firstn n (enumerate_from i l) = enumerate_from i (firstn n l).
Proof.
  induction n as [|n IH]; intros l i; [reflexivity|].
  destruct l as [|x l]; [reflexivity|].
  rewrite enumerate_from_cons. simpl firstn. rewrite enumerate_from_cons, IH.
  reflexivity.
Qed.

Lemma enumerate_from_bound {A} (l : list A) :
  forall i j x, In (j, x) (enumerate_from i l) -> i <= j < i + List.length l.
Proof.
  induction l as [|y l IH]; intros i j x H; [destruct H|].
  rewrite enumerate_from_cons in H. destruct H as [H | H].
  - inversion H; subst. simpl. lia.
  - apply IH in H. simpl. lia.
Qed.

Lemma for_enumerate_map {A B} (f : nat -> A -> result B) (g : nat -> A -> B)
    (l : list A) :
  (forall i x, f i x = Ok (g i x)) ->
  forall i,
    for_enumerate f i l
    = Ok (map (fun p => g (fst p) (snd p)) (enumerate_from i l)).
Proof.
  intros Hf. induction l as [|x l IH]; intros i; [reflexivity|].
  rewrite enumerate_from_cons. cbn [for_enumerate map fst snd].
  rewrite Hf, IH. reflexivity.
Qed.

(** The report, when the largest count is not 0. *)
Lemma generate_html_value (cc : dict coin_stat) (hot : list hot_thread) (n : nat) :
  let total := sum_counts cc in
  let sorted := sorted_desc stat_count cc in
  let max_count := first_count sorted 1 in
  max_count <> 0%Z ->
  generate_html cc hot n
  = Ok {| rp_thread_count := n;
          rp_coin_count := List.length cc;
          rp_total_mentions := total;
          rp_top_sym := option_map fst (hd_error sorted);
          rp_top_cnt := first_count sorted 0;
          rp_rows := map (fun p => row_of total max_count (fst p) (snd p))
                         (enumerate_from 0 sorted);
          rp_heatmap := map (fun p => heat_of max_count (fst p) (snd p))
                            (enumerate_from 0 (firstn 10 sorted));
          rp_threads := map thread_entry hot |}.
Proof.
  intros total sorted max_count Hm. unfold generate_html.
  fold sorted. fold total. fold max_count.
  rewrite (for_enumerate_map (leaderboard_row total max_count)
             (row_of total max_count) sorted
             (fun i kv => leaderboard_row_Ok total i kv Hm)).
  cbn [bind].
  assert (first_count (firstn 10 sorted) 1 = max_count) as ->
    by apply first_count_firstn.
  rewrite (for_enumerate_map (heatmap_row max_count) (heat_of max_count)
             (firstn 10 sorted) (fun i kv => heatmap_row_Ok i kv Hm)).
  reflexivity.
Qed.

Lemma generate_html_Ok_max (cc : dict coin_stat) (hot : list hot_thread)
    (n : nat) (rep : report) :
  generate_html cc hot n = Ok rep ->
  first_count (sorted_desc stat_count cc) 1 <> 0%Z.
Proof.
  intros Hgen H0. rewrite (generate_html_zero_max cc hot n H0) in Hgen.
  discriminate Hgen.
Qed.

Lemma generate_html_inv (cc : dict coin_stat) (hot : list hot_thread)
    (n : nat) (rep : report) :
  generate_html cc hot n = Ok rep ->
  let total := sum_counts cc in
  let sorted := sorted_desc stat_count cc in
  let max_count := first_count sorted 1 in
  max_count <> 0%Z
  /\ rep = {| rp_thread_count := n;
              rp_coin_count := List.length cc;
              rp_total_mentions := total;
              rp_top_sym := option_map fst (hd_error sorted);
              rp_top_cnt := first_count sorted 0;
              rp_rows := map (fun p => row_of total max_count (fst p) (snd p))
                             (enumerate_from 0 sorted);
              rp_heatmap := map (fun p => heat_of max_count (fst p) (snd p))
                                (enumerate_from 0 (firstn 10 sorted));
              rp_threads := map thread_entry hot |}.
Proof.
  intros Hgen total sorted max_count.
  pose proof (generate_html_Ok_max _ _ _ Hgen) as Hm.
  split; [exact Hm|].
  rewrite (generate_html_value cc hot n Hm) in Hgen.
  injection Hgen as Hgen. symmetry. exact Hgen.
Qed.

Lemma StronglySorted_same_keys {A B} (k1 : A -> Z) (k2 : B -> Z) (l1 : list A) :
  forall l2 : list B,
    map k1 l1 = map k2 l2 ->
    StronglySorted (ge_key k1) l1 -> StronglySorted (ge_key k2) l2.
Proof.
  induction l1 as [|x l1 IH]; intros [|y l2] E H; try discriminate E;
    [constructor|].
  simpl in E. inversion E as [[Ex El]]. inversion H as [|? ? Hs Hall]; subst.
  constructor; [apply IH; assumption|].
  apply Forall_forall. intros z Hz. unfold ge_key.
  assert (In (k2 z) (map k1 l1)) as Hin by (rewrite El; apply in_map; exact Hz).
  apply in_map_iff in Hin as [w [Hw Hwin]].
  rewrite Forall_forall in Hall. specialize (Hall w Hwin). unfold ge_key in Hall.
  lia.
Qed.

(** X10 (the leaderboard): when the report is produced it has one row for
    each symbol of the mapping, row [i] carries the index [i], the rows
    are in the order of their counts from high to low, and each row shows
    its symbol's count and the symbol's name in the coin table, or no name
    for a symbol the table does not have. *)
Theorem leaderboard_rows (cc : dict coin_stat) (hot : list hot_thread)
    (n : nat) (rep : report) :
  generate_html cc hot n = Ok rep ->
  rp_coin_count rep = List.length cc
  /\ List.length (rp_rows rep) = List.length cc
  /\ map r_index (rp_rows rep) = seq 0 (List.length cc)
  /\ StronglySorted (ge_key r_count) (rp_rows rep)
  /\ Permutation (map (fun r => (r_sym r, r_count r)) (rp_rows rep))
                 (map (fun kv => (fst kv, stat_count kv)) cc)
  /\ Forall (fun r => r_full_name r
                      = match dict_get (r_sym r) COINS with
                        | Some name => name
                        | None => []
                        end)
            (rp_rows rep).
Proof.
  intros Hgen. destruct (generate_html_inv _ _ _ Hgen) as [Hm ->]. clear Hgen. cbn [rp_coin_count rp_rows].
  pose proof (sorted_desc_perm stat_count cc) as Hp.
  set (sorted := sorted_desc stat_count cc) in *.
  assert (List.length sorted = List.length cc) as Hl
    by (apply Permutation_length; exact Hp).
  split; [reflexivity|]. split.
  { rewrite length_map. unfold enumerate_from.
    rewrite length_combine, length_seq, Hl. apply Nat.min_id. }
  split.
  { rewrite map_map. cbn [r_index row_of].
    rewrite <- (map_map fst (fun i => i)), map_id, enumerate_from_fst, Hl.
    reflexivity. }
  split.
  { apply StronglySorted_same_keys with (k1 := stat_count) (l1 := sorted);
      [|apply sorted_desc_sorted].
    rewrite map_map. cbn [r_count row_of].
    rewrite <- (map_map snd stat_count), enumerate_from_snd. reflexivity. }
  split.
  { rewrite map_map. cbn [r_sym r_count row_of].
    rewrite <- (map_map snd (fun kv => (fst kv, stat_count kv))),
      enumerate_from_snd.
    apply Permutation_map. exact Hp. }
  apply Forall_forall. intros r Hr. apply in_map_iff in Hr as [p [<- _]].
  reflexivity.
Qed.

Lemma percent_bounds (c m : Z) :
  (0 < c <= m)%Z ->
  (0 < inject_Z c / inject_Z m * 100 /\ inject_Z c / inject_Z m * 100 <= 100)%Q.
Proof.
  intros [Hc Hm].
  assert (0 < inject_Z m)%Q as Hqm.
  { change (inject_Z 0 < inject_Z m)%Q. rewrite <- Zlt_Qlt. lia. }
  split.
  - apply Qmult_lt_0_compat; [|reflexivity].
    apply Qlt_shift_div_l; [exact Hqm|]. rewrite Qmult_0_l.
    change (inject_Z 0 < inject_Z c)%Q. rewrite <- Zlt_Qlt. exact Hc.
  - setoid_replace 100%Q with (1 * 100)%Q at 2 by reflexivity.
    apply Qmult_le_compat_r; [|discriminate].
    apply Qle_shift_div_r; [exact Hqm|]. rewrite Qmult_1_l.
    rewrite <- Zle_Qle. exact Hm.
Qed.

Lemma Zsum_member_le (l : list Z) (x : Z) :
  Forall (fun y => (0 < y)%Z) l -> In x l -> (0 < x <= Zsum l)%Z.
Proof.
  induction 1 as [|y l Hy Hl IH]; intros Hin; [destruct Hin|].
  assert (0 <= Zsum l)%Z as Hs.
  { clear IH Hin. induction Hl; simpl; lia. }
  simpl. destruct Hin as [-> | Hin]; [lia|]. specialize (IH Hin). lia.
Qed.

(** X11 (bars and percentages fit): when every count is positive, as
    aggregation returns them, every bar width and every percentage of the
    leaderboard is above 0 and at most 100, and the first row's bar is
    full. *)
Theorem leaderboard_values_in_range (cc : dict coin_stat)
    (hot : list hot_thread) (n : nat) (rep : report) :
  Forall (fun kv => (0 < stat_count kv)%Z) cc ->
  generate_html cc hot n = Ok rep ->
  Forall (fun r => (0 < r_bar_w r /\ r_bar_w r <= 100
                    /\ 0 < r_pct r /\ r_pct r <= 100)%Q)
         (rp_rows rep)
  /\ match rp_rows rep with
     | [] => cc = []
     | r :: _ => (r_bar_w r == 100)%Q
     end.
Proof.
  intros Hpos Hgen. destruct (generate_html_inv _ _ _ Hgen) as [Hm ->].
  clear Hgen. cbn [rp_rows].
  pose proof (sorted_desc_perm stat_count cc) as Hp.
  destruct (first_count_sorted_max cc 1) as [Hmax Hex].
  rewrite sum_counts_Zsum.
  set (sorted := sorted_desc stat_count cc) in *.
  set (max_count := first_count sorted 1) in *.
  split.
  - apply Forall_forall. intros r Hr. apply in_map_iff in Hr as [[i kv] [<- Hin]].
    cbn [fst snd r_bar_w r_pct row_of].
    assert (In kv cc) as Hkv.
    { apply (Permutation_in _ Hp). rewrite <- (enumerate_from_snd sorted 0).
      apply (in_map snd) in Hin. exact Hin. }
    assert (0 < stat_count kv)%Z as Hc
      by (rewrite Forall_forall in Hpos; apply Hpos; exact Hkv).
    destruct (percent_bounds (c := stat_count kv) (m := max_count)) as [H1 H2];
      [split; [exact Hc | apply Hmax; exact Hkv]|].
    assert (0 < stat_count kv <= Zsum (map stat_count cc))%Z as Ht.
    { apply Zsum_member_le.
      - apply Forall_forall. intros y Hy. apply in_map_iff in Hy as [kv' [<- Hkv']].
        rewrite Forall_forall in Hpos. apply Hpos. exact Hkv'.
      - apply in_map. exact Hkv. }
    assert ((Zsum (map stat_count cc) =? 0)%Z = false) as ->
      by (apply Z.eqb_neq; lia).
    destruct (percent_bounds Ht) as [H3 H4]. auto.
  - destruct sorted as [|kv0 rest] eqn:Es.
    + apply Permutation_nil in Hp. exact Hp.
    + cbn [enumerate_from_cons map]. rewrite enumerate_from_cons.
      cbn [map fst snd r_bar_w row_of]. subst max_count. cbn [first_count].
      cbn [first_count] in Hm. field.
      intros H. apply Hm. unfold Qeq in H. simpl in H. lia.
Qed.

(** X12 (the heat map is the head of the leaderboard): the heat map has a
    row for each of the first ten rows of the leaderboard and no other,
    with the same symbol and count, the row's bar width as its width, and
    the row's index as its colour. *)
Theorem heatmap_is_leaderboard_head (cc : dict coin_stat)
    (hot : list hot_thread) (n : nat) (rep : report) :
  generate_html cc hot n = Ok rep ->
  List.length (rp_heatmap rep) = Nat.min 10 (List.length cc)
  /\ Forall2
       (fun r h =>
          hm_sym h = r_sym r /\ hm_count h = r_count r
          /\ hm_w h = r_bar_w r /\ hm_color h = r_index r)
       (firstn 10 (rp_rows rep)) (rp_heatmap rep).
Proof.
  intros Hgen. destruct (generate_html_inv _ _ _ Hgen) as [Hm ->]. clear Hgen. cbn [rp_heatmap rp_rows].
  pose proof (sorted_desc_perm stat_count cc) as Hp.
  set (sorted := sorted_desc stat_count cc) in *.
  split.
  - rewrite length_map. unfold enumerate_from.
    rewrite length_combine, length_seq, Nat.min_id, length_firstn.
    rewrite (Permutation_length Hp). reflexivity.
  - rewrite firstn_map, enumerate_from_firstn.
    assert (forall p, In p (enumerate_from 0 (firstn 10 sorted)) -> fst p < 10)
      as Hb.
    { intros [j x] Hin. apply enumerate_from_bound in Hin.
      pose proof (firstn_le_length 10 sorted). simpl. lia. }
    induction (enumerate_from 0 (firstn 10 sorted)) as [|p l IH];
      cbn [map]; constructor.
    + cbn [hm_sym hm_count hm_w hm_color heat_of r_sym r_count r_bar_w r_index row_of].
      repeat split. specialize (Hb p (or_introl eq_refl)). lia.
    + apply IH. intros q Hq. apply Hb. right. exact Hq.
Qed.

(** X13 (the top coin): the report's top count is the largest count of the
    mapping, and its top symbol is the first symbol of the mapping, in
    insertion order, that has this count; for the empty mapping there is no
    top symbol and the top count is 0. *)
Theorem top_coin_is_first_largest (cc : dict coin_stat)
    (hot : list hot_thread) (n : nat) (rep : report) :
  generate_html cc hot n = Ok rep ->
  match cc with
  | [] => rp_top_sym rep = None /\ rp_top_cnt rep = 0%Z
  | _ :: _ =>
      (forall kv, In kv cc -> (stat_count kv <= rp_top_cnt rep)%Z)
      /\ exists kv,
           hd_error (filter (fun kv => (stat_count kv =? rp_top_cnt rep)%Z) cc)
           = Some kv
           /\ rp_top_sym rep = Some (fst kv)
  end.
Proof.
  intros Hgen. destruct (generate_html_inv _ _ _ Hgen) as [Hm ->]. clear Hgen. cbn [rp_top_sym rp_top_cnt].
  destruct cc as [|kv1 cc']; [split; reflexivity|].
  set (cc := kv1 :: cc') in *.
  pose proof (sorted_desc_perm stat_count cc) as Hp.
  destruct (first_count_sorted_max cc 0) as [Hmax _].
  pose proof (fun k => sorted_desc_stable stat_count k cc) as Hst.
  destruct (sorted_desc stat_count cc) as [|kv0 rest] eqn:Es.
  { apply Permutation_nil in Hp. discriminate Hp. }
  cbn [first_count hd_error option_map] in *.
  split; [exact Hmax|]. exists kv0. split; [|reflexivity].
  rewrite <- Hst. simpl. rewrite Z.eqb_refl. reflexivity.
Qed.

(** ** The fetch and the run *)

(** ** The text of the report and the surrogates *)

Lemma existsb_concat {A} (p : A -> bool) (l : list (list A)) :
  existsb p (List.concat l) = existsb (existsb p) l.
Proof.
  induction l as [|x l IH]; [reflexivity|].
  cbn [List.concat existsb]. rewrite existsb_app, IH. reflexivity.
Qed.

Lemma existsb_none {A} (p : A -> bool) (l : list A) :
  (forall x, In x l -> p x = false) -> existsb p l = false.
Proof.
  intros H. induction l as [|x l IH]; [reflexivity|].
  cbn [existsb]. rewrite (H x (or_introl eq_refl)), IH; [reflexivity|].
  intros y Hy. apply H. right. exact Hy.
Qed.

Lemma coins_table_clean :
  forallb (fun kv => negb (existsb is_surrogate (fst kv))
                     && negb (existsb is_surrogate (snd kv))) COINS = true.
Proof. vm_compute. reflexivity. Qed.

Lemma coin_key_clean (sym : pystr) :
  In sym (keys COINS) -> existsb is_surrogate sym = false.
Proof.
  intros H. apply in_map_iff in H as [[k v] [<- Hin]].
  pose proof (proj1 (forallb_forall _ _) coins_table_clean _ Hin) as Hc.
  cbn [fst snd] in *. apply andb_prop in Hc as [Hc _].
  apply negb_true_iff in Hc. exact Hc.
Qed.

Lemma dict_get_Some_In {V} (k : pystr) (v : V) (d : dict V) :
  dict_get k d = Some v -> In (k, v) d.
Proof.
  induction d as [|[k0 v0] d IH]; cbn [dict_get]; [discriminate|].
  destruct (pystr_eqb k k0) eqn:E.
  - apply pystr_eqb_eq in E. intros H. injection H as <-. left. congruence.
  - intros H. right. apply IH. exact H.
Qed.

Lemma coin_name_clean (sym : pystr) :
  existsb is_surrogate
    (match dict_get sym COINS with Some n => n | None => [] end) = false.
Proof.
  destruct (dict_get sym COINS) as [n|] eqn:E; [|reflexivity].
  apply dict_get_Some_In in E.
  pose proof (proj1 (forallb_forall _ _) coins_table_clean _ E) as Hc.
  cbn [fst snd] in Hc. apply andb_prop in Hc as [_ Hc].
  apply negb_true_iff in Hc. exact Hc.
Qed.

Lemma enumerate_from_In {A} (l : list A) :
  forall i p, In p (enumerate_from i l) -> In (snd p) l.
Proof.
  intros i [j x] H. unfold enumerate_from in H.
  apply in_combine_r in H. exact H.
Qed.

(** The symbols and the names of the report come from the coin table, so
    a surrogate can only come from the hot threads. *)
Lemma report_text_surrogate (cc : dict coin_stat) (hot : list hot_thread)
    (n : nat) (rep : report) :
  generate_html cc hot n = Ok rep ->
  (forall sym, In sym (keys cc) -> In sym (keys COINS)) ->
  (forall h sym, In h hot -> In sym (h_coins h) -> In sym (keys COINS)) ->
  existsb is_surrogate (report_text rep)
  = existsb (fun h => existsb is_surrogate
                        (firstn 70 (h_sub h) ++ json_text (h_no h)
                           ++ json_text (h_replies h)))
            hot.
Proof.
  intros Hgen Hcc Hhot.
  destruct (generate_html_inv _ _ _ Hgen) as [_ ->]. unfold report_text.
  cbn [rp_rows rp_heatmap rp_threads rp_top_sym].
  assert (forall kv, In kv (sorted_desc stat_count cc) ->
                     existsb is_surrogate (fst kv) = false) as Hkey.
  { intros kv Hin. apply coin_key_clean, Hcc, in_map.
    apply (Permutation_in _ (sorted_desc_perm stat_count cc)). exact Hin. }
  rewrite !existsb_app, !existsb_concat.
  rewrite (existsb_none (existsb is_surrogate)
             (map (fun r => r_sym r ++ r_full_name r) _)).
  2:{ intros x Hx. apply in_map_iff in Hx as [r [<- Hr]].
      apply in_map_iff in Hr as [p [<- Hp]]. apply enumerate_from_In in Hp.
      cbn [r_sym r_full_name row_of]. rewrite existsb_app, (Hkey _ Hp).
      apply coin_name_clean. }
  rewrite (existsb_none (existsb is_surrogate) (map hm_sym _)).
  2:{ intros x Hx. apply in_map_iff in Hx as [r [<- Hr]].
      apply in_map_iff in Hr as [p [<- Hp]]. apply enumerate_from_In in Hp.
      cbn [hm_sym heat_of]. apply Hkey. apply In_firstn in Hp. exact Hp. }
  cbn [orb].
  assert (existsb is_surrogate
            (match option_map fst (hd_error (sorted_desc stat_count cc)) with
             | Some sym => sym
             | None => []
             end) = false) as ->.
  { destruct (sorted_desc stat_count cc) as [|kv l] eqn:E; [reflexivity|].
    cbn [hd_error option_map]. apply Hkey. left. reflexivity. }
  rewrite orb_false_r. clear Hkey Hgen.
  induction hot as [|h hot IH]; [reflexivity|].
  cbn [map existsb]. rewrite IH.
  2:{ intros h' sym Hh'. apply Hhot. right. exact Hh'. }
  f_equal. cbn [ti_tags ti_sub ti_no ti_replies thread_entry].
  rewrite existsb_app, existsb_concat.
  rewrite (existsb_none (existsb is_surrogate) (firstn 4 (h_coins h)));
    [reflexivity|].
  intros sym Hs. apply In_firstn in Hs.
  apply coin_key_clean, (Hhot h sym); [left; reflexivity | exact Hs].
Qed.

(** ** The exceptions of the aggregation *)

Lemma py_lt_raises : forall (a b : json) (e : exn),
  py_lt a b = Raise e -> e = TypeError.
Proof.
  fix IH 1. intros a b e.
  destruct a as [|ba|na|xa|sa|la|ma], b as [|bb|nb|xb|sb|lb|mb]; cbn;
    try discriminate; try (intros H; injection H as <-; reflexivity).
  revert lb. induction la as [|u la IHla]; intros [|v lb]; try discriminate.
  destruct (py_eq u v); [apply IHla | apply IH].
Qed.

Lemma sort_by_raises {A} (key : A -> json) (l : list A) (e : exn) :
  sort_by key l = Raise e -> e = TypeError.
Proof.
  revert e. induction l as [|x r IH]; intros e; cbn [sort_by]; [discriminate|].
  destruct (sort_by key r) as [r'|e']; cbn [bind]; [|intros H; apply IH; exact H].
  clear IH. induction r' as [|y r' IH]; cbn [insert_by]; [discriminate|].
  destruct (py_lt (key x) (key y)) as [[|]|e'] eqn:E; cbn [bind].
  - destruct (insert_by key x r') as [r''|e'']; cbn [bind]; [discriminate|].
    intros H. apply IH. exact H.
  - discriminate.
  - intros H. injection H as <-. apply (py_lt_raises _ _ E).
Qed.

Section AnalyzeRaises.
Variable uni_alnum : char -> bool.
Variable uni_lower : pystr -> char -> pystr -> pystr.
Variable set_rank : pyset -> pystr -> Z.

Lemma analyze_loop_raises_shape (ts : list json) :
  forall acc e,
    analyze_loop uni_alnum uni_lower set_rank ts acc = Raise e ->
    exists t, In t ts /\ thread_shaped t = false /\ e = shape_error t.
Proof.
  induction ts as [|t ts IH]; intros acc e; cbn [analyze_loop]; [discriminate|].
  rewrite analyze_thread_eq. destruct (thread_shaped t) eqn:Et; cbn [bind].
  - intros H. apply IH in H as [t' [Hin H]]. exists t'. split; [right; exact Hin | exact H].
  - intros H. injection H as <-. exists t. split; [left; reflexivity | auto].
Qed.

Lemma analyze_raises (ts : list json) (e : exn) :
  analyze uni_alnum uni_lower set_rank ts = Raise e ->
  e = TypeError \/ e = AttributeError.
Proof.
  unfold analyze.
  destruct (analyze_loop uni_alnum uni_lower set_rank ts ([], [])) as [[d h]|e'] eqn:E;
    cbn [bind].
  - destruct (sort_by h_replies h) as [r|e'] eqn:Es; cbn [bind]; [discriminate|].
    intros H. injection H as <-. left. apply (sort_by_raises _ _ Es).
  - intros H. injection H as <-.
    apply analyze_loop_raises_shape in E as [t [_ [_ ->]]].
    destruct t; cbn; auto.
Qed.

(** X20 (when aggregation returns): aggregation returns only on values
    that all have the shape of a thread, objects whose subject and body are
    strings or count as false; on such values it returns when the reply
    counts of the threads that mention a coin are integers or missing, and
    also when at most one thread mentions a coin, whatever its reply count
    is, since nothing is then compared.  At the first value of another
    shape it raises: an [AttributeError] when the value is no object, a
    [TypeError] when its subject or body is, say, a number.  It raises no
    other exception. *)
Theorem analyze_returns_on_threads (ts : list json) :
  (forall cc hot,
      analyze uni_alnum uni_lower set_rank ts = Ok (cc, hot) ->
      forallb thread_shaped ts = true)
  /\ (forallb thread_shaped ts = true ->
      (forall t, In t ts ->
                 mentions_any uni_alnum uni_lower set_rank t = true ->
                 match field t (str "replies") with
                 | Some (JInt _) | None => True
                 | Some _ => False
                 end) ->
      exists cc hot, analyze uni_alnum uni_lower set_rank ts = Ok (cc, hot))
  /\ (forallb thread_shaped ts = true ->
      List.length (filter (mentions_any uni_alnum uni_lower set_rank) ts) <= 1 ->
      exists cc hot, analyze uni_alnum uni_lower set_rank ts = Ok (cc, hot))
  /\ (forall pre t post,
        ts = pre ++ t :: post ->
        forallb thread_shaped pre = true ->
        thread_shaped t = false ->
        analyze uni_alnum uni_lower set_rank ts
        = Raise (match t with
                 | JObject _ => TypeError
                 | _ => AttributeError
                 end))
  /\ (forall e,
        analyze uni_alnum uni_lower set_rank ts = Raise e ->
        e = TypeError \/ e = AttributeError).
Proof.
  split; [|split; [|split; [|split]]].
  - intros cc hot H. apply analyze_Ok in H as [H _]. exact H.
  - intros Hs Hint.
    eexists _, _. eapply analyze_returns; [exact Hs|].
    apply (sort_by_int h_replies (fun h => int_key (h_replies h))).
    apply Forall_forall. intros h Hh. apply in_map_iff in Hh as [t [<- Ht]].
    apply filter_In in Ht as [Ht Hm]. specialize (Hint t Ht Hm).
    cbn [h_replies hot_record]. unfold reply_value.
    destruct (field t (str "replies")) as [[]|]; try contradiction; reflexivity.
  - intros Hs Hone.
    assert (exists ranked,
               sort_by h_replies
                 (map (hot_record uni_alnum uni_lower set_rank)
                      (filter (mentions_any uni_alnum uni_lower set_rank) ts))
               = Ok ranked) as [ranked Hsort].
    { destruct (filter (mentions_any uni_alnum uni_lower set_rank) ts)
        as [|t [|t' l]]; [eexists; reflexivity | eexists; reflexivity|].
      cbn [List.length] in Hone. lia. }
    eexists _, _. eapply analyze_returns; [exact Hs | exact Hsort].
  - intros pre t post -> Hpre Ht. unfold analyze.
    rewrite (@analyze_loop_raises _ _ _ pre post t _ Hpre Ht).
    destruct t; reflexivity.
  - intros e. apply analyze_raises.
Qed.
End AnalyzeRaises.

Section RunFacts.
Variable uni_alnum : char -> bool.
Variable uni_lower : pystr -> char -> pystr -> pystr.
Variable set_rank : pyset -> pystr -> Z.

(** The console takes every line; the file system answers as it will. *)
Variable console : message -> option exn.
Hypothesis console_takes : forall m, console m = None.
Variable disk : disk_answer.

Local Abbreviation aggregate := (analyze uni_alnum uni_lower set_rank).
Local Abbreviation program net := (run uni_alnum uni_lower set_rank net console disk).

Lemma table_events_filter (p : event -> bool) (cc : dict coin_stat) :
  (forall m, p (Print m) = false) -> filter p (table_events cc) = [].
Proof.
  intros Hp. unfold table_events.
  induction (enumerate_from 1 (firstn 20 (sorted_desc stat_count cc)))
    as [|x l IH]; [reflexivity|].
  cbn [map filter]. rewrite Hp. exact IH.
Qed.

Lemma table_events_length (cc : dict coin_stat) :
  List.length (table_events cc) = Nat.min 20 (List.length cc).
Proof.
  unfold table_events, enumerate_from.
  rewrite length_map, length_combine, length_seq, Nat.min_id, length_firstn.
  rewrite (Permutation_length (sorted_desc_perm stat_count cc)). reflexivity.
Qed.

Lemma table_events_ok (cc : dict coin_stat) :
  Forall table_row_ok (table_events cc).
Proof.
  unfold table_events. apply Forall_forall. intros ev Hev.
  apply in_map_iff in Hev as [[i kv] [<- Hin]].
  apply enumerate_from_bound in Hin.
  pose proof (firstn_le_length 20 (sorted_desc stat_count cc)) as Hl.
  unfold table_row_ok, table_row. cbn [fst snd]. lia.
Qed.

(** The lines of a run up to the end of the console table. *)
Lemma run_shown (ts : list json) (cc : dict coin_stat) :
  ([Print MsgRule; Print MsgTitle; Print MsgRule]
     ++ [ Print MsgFetching; HttpGet catalog_url 20;
          Print (MsgFetched (List.length ts)); Print MsgAnalyzing ])
    ++ [ Print (MsgSummary (List.length cc) (sum_counts cc));
         Print MsgTableHeader; Print MsgTableRule ]
    ++ table_events cc
  = run_prefix
      ++ [ Print (MsgFetched (List.length ts)); Print MsgAnalyzing;
           Print (MsgSummary (List.length cc) (sum_counts cc));
           Print MsgTableHeader; Print MsgTableRule ]
      ++ table_events cc.
Proof. reflexivity. Qed.

(** Every run, by what the fetch, the aggregation and the file system
    return or raise. *)
Lemma run_cases (net : http_outcome) :
  let failed tr e :=
    if is_RequestException e
    then (tr ++ [Print (MsgNetworkError e)], Ok tt)
    else (tr ++ [Print (MsgError e)], Raise e) in
  program net
  = match fetch_result net with
    | Raise e => failed run_prefix e
    | Ok ts =>
        let tr1 := run_prefix ++ [ Print (MsgFetched (List.length ts));
                                   Print MsgAnalyzing ] in
        match aggregate ts with
        | Raise e => failed tr1 e
        | Ok ([], _) => (tr1 ++ [Print MsgNoCoins], Ok tt)
        | Ok (kv :: cc', hot) =>
            let cc := kv :: cc' in
            let shown :=
              run_prefix
                ++ [ Print (MsgFetched (List.length ts)); Print MsgAnalyzing;
                     Print (MsgSummary (List.length cc) (sum_counts cc));
                     Print MsgTableHeader; Print MsgTableRule ]
                ++ table_events cc in
            match generate_html cc hot (List.length ts) with
            | Raise e => failed shown e
            | Ok rep =>
                match disk with
                | OpenFails cause =>
                    (shown ++ [Print (MsgError (OSError cause))],
                     Raise (OSError cause))
                | _ =>
                    if existsb is_surrogate (report_text rep)
                    then (shown ++ [ OpenFile output_file;
                                     Print (MsgError UnicodeEncodeError) ],
                          Raise UnicodeEncodeError)
                    else match disk with
                         | WriteFails cause =>
                             (shown ++ [ OpenFile output_file;
                                         Print (MsgError (OSError cause)) ],
                              Raise (OSError cause))
                         | _ =>
                             (shown ++ [ OpenFile output_file;
                                         WriteFile output_file rep;
                                         Print (MsgReportWritten output_file) ],
                              Ok tt)
                         end
                end
            end
        end
    end.
Proof.
  cbv zeta.
  rewrite (@run_eq uni_alnum uni_lower set_rank console console_takes),
    (@main_body_eq uni_alnum uni_lower set_rank console console_takes).
  destruct (fetch_result net) as [ts | e]; [|reflexivity].
  cbv zeta. destruct (aggregate ts) as [[[|kv cc'] hot] | e];
    [reflexivity | | reflexivity].
  rewrite run_shown.
  destruct (generate_html (kv :: cc') hot (List.length ts)) as [rep | e];
    [|reflexivity].
  destruct disk as [|cause|cause];
    destruct (existsb is_surrogate (report_text rep)); cbn [is_RequestException];
    repeat rewrite <- app_assoc; reflexivity.
Qed.

(** X16 (a run that recognises coins): on a console that takes every
    line, when the fetch returns threads and aggregation returns a mapping
    with a coin, the report of the aggregates and of the number of threads
    fetched is produced without error, after the summary and the table of
    the first twenty coins.  What follows is decided by the file system and
    by the text: when [index.html] cannot be opened the run ends with that
    error; when the text of the report holds a surrogate, the file is
    opened, so emptied, and the run ends with the encoding error; when the
    file system fails at the writing, the run ends with that error;
    otherwise the report is written once and the run says so and returns
    normally.  The text holds a surrogate exactly when the first 70
    characters of the text of a hot thread do, or its id or its reply count
    is a string that does. *)
Theorem run_writes_report (net : http_outcome) (ts : list json)
    (cc : dict coin_stat) (hot : list hot_thread) :
  fetch_result net = Ok ts ->
  analyze uni_alnum uni_lower set_rank ts = Ok (cc, hot) ->
  cc <> [] ->
  exists rep,
    generate_html cc hot (List.length ts) = Ok rep
    /\ (let shown :=
          run_prefix
            ++ [ Print (MsgFetched (List.length ts)); Print MsgAnalyzing;
                 Print (MsgSummary (List.length cc) (sum_counts cc));
                 Print MsgTableHeader; Print MsgTableRule ]
            ++ table_events cc in
        program net
        = match disk with
          | OpenFails cause =>
              (shown ++ [Print (MsgError (OSError cause))],
               Raise (OSError cause))
          | _ =>
              if existsb is_surrogate (report_text rep)
              then (shown ++ [ OpenFile output_file;
                               Print (MsgError UnicodeEncodeError) ],
                    Raise UnicodeEncodeError)
              else match disk with
                   | WriteFails cause =>
                       (shown ++ [ OpenFile output_file;
                                   Print (MsgError (OSError cause)) ],
                        Raise (OSError cause))
                   | _ =>
                       (shown ++ [ OpenFile output_file;
                                   WriteFile output_file rep;
                                   Print (MsgReportWritten output_file) ],
                        Ok tt)
                   end
          end)
    /\ existsb is_surrogate (report_text rep)
       = existsb (fun h => existsb is_surrogate
                             (firstn 70 (h_sub h) ++ json_text (h_no h)
                                ++ json_text (h_replies h)))
                 hot
    /\ List.length (table_events cc) = Nat.min 20 (List.length cc).
Proof.
  intros Hf Hrun Hne.
  destruct (@generate_html_after_analyze _ _ _ _ _ _ (List.length ts) Hrun)
    as [rep Hrep].
  exists rep. split; [exact Hrep | split; [|split]].
  - pose proof (run_cases net) as H. cbv zeta in H. rewrite H, Hf, Hrun.
    destruct cc as [|kv cc']; [congruence|]. rewrite Hrep. reflexivity.
  - apply (@report_text_surrogate _ _ _ _ Hrep).
    + intros sym Hs.
      apply (proj1 (@aggregate_key _ _ _ _ _ _ sym Hrun)) in Hs as [t [_ Hs]].
      eapply extract_coins_keys. exact Hs.
    + intros h sym Hh Hs.
      apply analyze_Ok in Hrun as [_ [_ [ranked [Hsort ->]]]].
      apply In_firstn in Hh.
      apply (Permutation_in _ (sort_by_perm _ _ Hsort)) in Hh.
      apply in_map_iff in Hh as [t [<- _]].
      eapply extract_coins_keys. exact Hs.
  - apply table_events_length.
Qed.

(** X17 (one request, at most one document): on a console that takes
    every line, whatever the network and the file system answer, a run
    starts with the banner and the announcement of the fetch, makes exactly
    one request, and writes no document or writes one document to
    [index.html]; when it has written the document it returns normally. *)
Theorem run_one_request_one_write (net : http_outcome) :
  firstn 5 (fst (program net)) = run_prefix
  /\ List.length (filter is_request (fst (program net))) = 1
  /\ (filter is_write (fst (program net)) = []
      \/ exists rep,
           filter is_write (fst (program net)) = [WriteFile output_file rep]
           /\ snd (program net) = Ok tt).
Proof.
  pose proof (run_cases net) as H. cbv zeta in H. rewrite H. clear H.
  destruct (fetch_result net) as [ts | e];
    [|destruct (is_RequestException e); cbn; auto].
  destruct (aggregate ts) as [[[|kv cc'] hot] | e] eqn:Hrun;
    [cbn; auto | | destruct (is_RequestException e); cbn; auto].
  destruct (@generate_html_after_analyze _ _ _ _ _ _ (List.length ts) Hrun)
    as [rep Hrep].
  rewrite Hrep. set (cc := kv :: cc').
  destruct disk as [|cause|cause];
    destruct (existsb is_surrogate (report_text rep));
    cbn [fst snd]; (split; [reflexivity|]);
    rewrite !filter_app, !(table_events_filter _ cc) by reflexivity;
    (split; [reflexivity|]);
    try (left; reflexivity).
  right. exists rep. split; reflexivity.
Qed.

(** X18 (what leaves the run): on a console that takes every line, an
    exception that leaves [main] is no request exception, and the run has
    printed it as an error in its last line, after its one request, and
    written no document.  It was raised by the fetch; or by the
    aggregation, as a [TypeError] or an [AttributeError], on values that
    are not of the shape of a thread or whose reply counts cannot be
    compared; or at the writing of the report, by the file system or by the
    encoding of a text with a surrogate. *)
Theorem escaping_exception_is_not_a_request_exception
    (net : http_outcome) (e : exn) :
  snd (program net) = Raise e ->
  is_RequestException e = false
  /\ (exists shown, fst (program net) = run_prefix ++ shown ++ [Print (MsgError e)])
  /\ List.length (filter is_request (fst (program net))) = 1
  /\ filter is_write (fst (program net)) = []
  /\ (fetch_result net = Raise e
      \/ (exists ts,
             fetch_result net = Ok ts
             /\ analyze uni_alnum uni_lower set_rank ts = Raise e
             /\ (e = TypeError \/ e = AttributeError))
      \/ (exists ts cc hot rep,
             fetch_result net = Ok ts
             /\ analyze uni_alnum uni_lower set_rank ts = Ok (cc, hot)
             /\ generate_html cc hot (List.length ts) = Ok rep
             /\ ((existsb is_surrogate (report_text rep) = true
                  /\ e = UnicodeEncodeError /\ forall cause, disk <> OpenFails cause)
                 \/ (exists cause,
                        e = OSError cause
                        /\ (disk = OpenFails cause
                            \/ (disk = WriteFails cause
                                /\ existsb is_surrogate (report_text rep)
                                   = false)))))).
Proof.
  pose proof (run_cases net) as H. cbv zeta in H. rewrite H. clear H.
  destruct (fetch_result net) as [ts | e0].
  2:{ destruct (is_RequestException e0) eqn:Er; cbn [fst snd]; [discriminate|].
      intros H. injection H as <-.
      split; [exact Er | split; [exists []; reflexivity|]]. cbn. auto. }
  destruct (aggregate ts) as [[[|kv cc'] hot] | e0] eqn:Hrun; [discriminate | |].
  2:{ destruct (is_RequestException e0) eqn:Er; cbn [fst snd]; [discriminate|].
      intros H. injection H as <-.
      split; [exact Er | split; [|split; [reflexivity | split; [reflexivity|]]]].
      - exists [Print (MsgFetched (List.length ts)); Print MsgAnalyzing].
        reflexivity.
      - right. left. exists ts. split; [reflexivity | split; [exact Hrun|]].
        apply (analyze_raises _ _ _ _ Hrun). }
  destruct (@generate_html_after_analyze _ _ _ _ _ _ (List.length ts) Hrun)
    as [rep Hrep].
  rewrite Hrep. set (cc := kv :: cc') in *.
  assert (forall last,
             exists shown,
               (run_prefix
                  ++ [ Print (MsgFetched (List.length ts)); Print MsgAnalyzing;
                       Print (MsgSummary (List.length cc) (sum_counts cc));
                       Print MsgTableHeader; Print MsgTableRule ]
                  ++ table_events cc) ++ last ++ [Print (MsgError e)]
               = run_prefix ++ shown ++ [Print (MsgError e)]) as Hshown.
  { intros last.
    exists ([ Print (MsgFetched (List.length ts)); Print MsgAnalyzing;
              Print (MsgSummary (List.length cc) (sum_counts cc));
              Print MsgTableHeader; Print MsgTableRule ]
            ++ table_events cc ++ last).
    rewrite <- !app_assoc. reflexivity. }
  destruct disk as [|cause|cause] eqn:Hdisk;
    destruct (existsb is_surrogate (report_text rep)) eqn:Es;
    cbn [fst snd]; try discriminate;
    intros H; injection H as <-;
    (split; [reflexivity|]);
    (split; [first [apply (Hshown []) | apply (Hshown [OpenFile output_file])]|]);
    (split; [rewrite !filter_app, !(table_events_filter _ cc) by reflexivity;
             reflexivity|]);
    (split; [rewrite !filter_app, !(table_events_filter _ cc) by reflexivity;
             reflexivity|]);
    right; right; exists ts, cc, hot, rep;
    (split; [reflexivity|]); (split; [exact Hrun|]); (split; [exact Hrep|]).
  - left. split; [exact Es | split; [reflexivity | discriminate]].
  - right. exists cause. split; [reflexivity | left; reflexivity].
  - right. exists cause. split; [reflexivity | left; reflexivity].
  - left. split; [exact Es | split; [reflexivity | discriminate]].
  - right. exists cause. split; [reflexivity | right; split; [reflexivity | exact Es]].
Qed.

(** X19 (the console table): in every run on a console that takes every
    line the table has at most twenty rows, their ranks go from 1 to at
    most 20, and each bar has [min(count, 30)] glyphs, so at most 30. *)
Theorem console_table_is_bounded (net : http_outcome) :
  List.length (filter is_table_row (fst (program net))) <= 20
  /\ Forall table_row_ok (fst (program net)).
Proof.
  pose proof (run_cases net) as H. cbv zeta in H. rewrite H. clear H.
  destruct (fetch_result net) as [ts | e];
    [|destruct (is_RequestException e); cbn [fst];
       (split; [simpl; lia | repeat constructor])].
  destruct (aggregate ts) as [[[|kv cc'] hot] | e] eqn:Hrun;
    [cbn [fst]; split; [simpl; lia | repeat constructor] |
    |destruct (is_RequestException e); cbn [fst];
       (split; [simpl; lia | repeat constructor])].
  destruct (@generate_html_after_analyze _ _ _ _ _ _ (List.length ts) Hrun)
    as [rep Hrep].
  rewrite Hrep. set (cc := kv :: cc').
  assert (List.length (filter is_table_row (table_events cc)) <= 20) as Hrows.
  { pose proof (table_events_length cc) as Hl.
    assert (List.length (filter is_table_row (table_events cc))
            <= List.length (table_events cc)) as Hf; [|lia].
    clear. induction (table_events cc) as [|x l IH]; simpl; [lia|].
    destruct (is_table_row x); simpl; lia. }
  destruct disk as [|cause|cause];
    destruct (existsb is_surrogate (report_text rep));
    cbn [fst]; (split;
      [ rewrite !filter_app, !length_app; simpl; lia
      | repeat (apply Forall_app; split); try (repeat constructor);
        apply table_events_ok ]).
Qed.
End RunFacts.

(** ** The properties at sample data *)

Lemma leaderboard_rows_witness :
  exists rep,
    generate_html sample_counts sample_hot 3 = Ok rep
    /\ rp_coin_count rep = List.length sample_counts
    /\ List.length (rp_rows rep) = List.length sample_counts
    /\ map r_index (rp_rows rep) = seq 0 (List.length sample_counts)
    /\ StronglySorted (ge_key r_count) (rp_rows rep)
    /\ Permutation (map (fun r => (r_sym r, r_count r)) (rp_rows rep))
                   (map (fun kv => (fst kv, stat_count kv)) sample_counts)
    /\ Forall (fun r => r_full_name r
                        = match dict_get (r_sym r) COINS with
                          | Some name => name
                          | None => []
                          end)
              (rp_rows rep).
Proof.
  eexists. split; [reflexivity|].
  exact (@leaderboard_rows sample_counts sample_hot 3 _ eq_refl).
Defined.

Lemma leaderboard_values_in_range_witness :
  Forall (fun kv => (0 < stat_count kv)%Z) sample_counts
  /\ exists rep,
       generate_html sample_counts sample_hot 3 = Ok rep
       /\ Forall (fun r => (0 < r_bar_w r /\ r_bar_w r <= 100
                            /\ 0 < r_pct r /\ r_pct r <= 100)%Q)
                 (rp_rows rep)
       /\ match rp_rows rep with
          | [] => sample_counts = []
          | r :: _ => (r_bar_w r == 100)%Q
          end.
Proof.
  assert (Forall (fun kv => (0 < stat_count kv)%Z) sample_counts) as H
    by (repeat constructor).
  split; [exact H|]. eexists. split; [reflexivity|].
  exact (@leaderboard_values_in_range sample_counts sample_hot 3 _ H eq_refl).
Defined.

Lemma heatmap_is_leaderboard_head_witness :
  exists rep,
    generate_html sample_counts sample_hot 3 = Ok rep
    /\ List.length (rp_heatmap rep) = Nat.min 10 (List.length sample_counts)
    /\ Forall2
         (fun r h =>
            hm_sym h = r_sym r /\ hm_count h = r_count r
            /\ hm_w h = r_bar_w r /\ hm_color h = r_index r)
         (firstn 10 (rp_rows rep)) (rp_heatmap rep).
Proof.
  eexists. split; [reflexivity|].
  exact (@heatmap_is_leaderboard_head sample_counts sample_hot 3 _ eq_refl).
Defined.

Lemma top_coin_is_first_largest_witness :
  exists rep,
    generate_html sample_counts sample_hot 3 = Ok rep
    /\ rp_top_sym rep = Some (str "ETH")
    /\ (forall kv, In kv sample_counts -> (stat_count kv <= rp_top_cnt rep)%Z)
    /\ exists kv,
         hd_error (filter (fun kv => (stat_count kv =? rp_top_cnt rep)%Z)
                          sample_counts) = Some kv
         /\ rp_top_sym rep = Some (fst kv).
Proof.
  eexists. split; [reflexivity|]. split; [reflexivity|].
  exact (@top_coin_is_first_largest sample_counts sample_hot 3 _ eq_refl).
Defined.

(** ** The aggregation at sample data *)

Lemma count_is_number_of_mentioning_threads_witness :
  forallb thread_record sample_threads = true
  /\ analyze no_alnum same_lower equal_rank sample_threads
     = Ok (sample_counts, sample_hot)
  /\ NoDup sample_threads
  /\ distinct_count
       (filter (mentions no_alnum same_lower equal_rank (str "ETH"))
               sample_threads) 2
  /\ dict_get (str "ETH") sample_counts
     = Some {| count := 2; threads := [JInt 7; JInt 9] |}
  /\ count (stat_or_default sample_counts (str "ETH")) = 2%Z.
Proof.
  assert (analyze no_alnum same_lower equal_rank sample_threads
          = Ok (sample_counts, sample_hot)) as H by (vm_compute; reflexivity).
  assert (NoDup sample_threads) as Hnd.
  { repeat constructor; cbn; intuition discriminate. }
  assert (distinct_count
            (filter (mentions no_alnum same_lower equal_rank (str "ETH"))
                    sample_threads) 2) as Hd.
  { eexists. split; [|split; [intros x; reflexivity | reflexivity]].
    apply NoDup_filter. exact Hnd. }
  split; [reflexivity | split; [exact H | split; [exact Hnd | split; [exact Hd|]]]].
  destruct (@count_is_number_of_mentioning_threads no_alnum same_lower
              equal_rank sample_threads (str "ETH")) as [_ [_ Hc]].
  destruct (Hc sample_counts sample_hot H) as [_ Hn].
  split; [reflexivity|]. exact (Hn Hnd 2 Hd).
Defined.

(** C1 as stated fails on a sequence that lists a thread twice: one
    thread mentions the symbol, and the count is 2. *)
Lemma count_counts_a_repeated_thread :
  exists t cc hot st,
    analyze no_alnum same_lower equal_rank [t; t] = Ok (cc, hot)
    /\ dict_get (str "BTC") cc = Some st
    /\ count st = 2%Z
    /\ distinct_count
         (filter (mentions no_alnum same_lower equal_rank (str "BTC")) [t; t]) 1.
Proof.
  exists (JObject [(str "no", JInt 1); (str "sub", JStr (str "BTC"))]).
  do 3 eexists.
  split; [vm_compute; reflexivity | split; [reflexivity | split; [reflexivity|]]].
  exists [JObject [(str "no", JInt 1); (str "sub", JStr (str "BTC"))]].
  split; [repeat constructor; intros []|].
  split; [|reflexivity].
  intros x.
  change (filter (mentions no_alnum same_lower equal_rank (str "BTC"))
            [JObject [(str "no", JInt 1); (str "sub", JStr (str "BTC"))];
             JObject [(str "no", JInt 1); (str "sub", JStr (str "BTC"))]])
    with [JObject [(str "no", JInt 1); (str "sub", JStr (str "BTC"))];
          JObject [(str "no", JInt 1); (str "sub", JStr (str "BTC"))]].
  simpl. tauto.
Qed.

Lemma hot_threads_sorted_top10_witness :
  forallb thread_record sample_threads = true
  /\ let replies t :=
       match field t (str "replies") with Some (JInt r) => r | _ => 0%Z end in
     let candidates :=
       filter (fun t => match extract_coins no_alnum same_lower equal_rank
                                (Some (subject t ++ 32%N :: body_text t)) with
                        | [] => false
                        | _ :: _ => true
                        end) sample_threads in
     exists cc hot,
       analyze no_alnum same_lower equal_rank sample_threads = Ok (cc, hot)
       /\ List.length hot <= 10
       /\ StronglySorted
            (fun a b => exists x y, h_replies a = JInt x /\ h_replies b = JInt y
                                    /\ (y <= x)%Z) hot
       /\ exists ranked : list json,
            Permutation ranked candidates
            /\ StronglySorted (fun a b => (replies b <= replies a)%Z) ranked
            /\ (forall r : Z,
                  filter (fun t => (replies t =? r)%Z) ranked
                  = filter (fun t => (replies t =? r)%Z) candidates)
            /\ Forall2
                 (fun t h =>
                    h_no h = match field t (str "no") with
                             | Some v => v
                             | None => JNull
                             end
                    /\ h_replies h = JInt (replies t)
                    /\ h_coins h = extract_coins no_alnum same_lower equal_rank
                                     (Some (subject t ++ 32%N :: body_text t)))
                 (firstn 10 ranked) hot.
Proof.
  split; [reflexivity|].
  exact (@hot_threads_sorted_top10 no_alnum same_lower equal_rank
           sample_threads eq_refl).
Defined.

Lemma hot_thread_display_text_witness :
  forallb thread_record sample_threads = true
  /\ analyze no_alnum same_lower equal_rank sample_threads
     = Ok (sample_counts, sample_hot)
  /\ exists working ranked,
       sort_by h_replies working = Ok ranked
       /\ sample_hot = firstn 10 ranked
       /\ Forall2
            (fun t h =>
               h_no h = match field t (str "no") with
                        | Some v => v
                        | None => JNull
                        end
               /\ h_coins h = coins_of no_alnum same_lower equal_rank t
               /\ h_replies h = match field t (str "replies") with
                                | Some v => v
                                | None => JInt 0
                                end
               /\ h_sub h = match field t (str "sub") with
                            | Some (JStr (c :: s)) => c :: s
                            | _ => firstn 80 (match field t (str "com") with
                                              | Some (JStr body) => body
                                              | _ => []
                                              end)
                            end)
            (filter (mentions_any no_alnum same_lower equal_rank) sample_threads)
            working.
Proof.
  assert (analyze no_alnum same_lower equal_rank sample_threads
          = Ok (sample_counts, sample_hot)) as H by (vm_compute; reflexivity).
  split; [reflexivity | split; [exact H|]].
  exact (proj2 (@hot_thread_display_text no_alnum same_lower equal_rank
                  sample_threads) sample_counts sample_hot H).
Defined.

(** C9 on the sample threads. *)
Lemma symbols_are_coin_keys_witness :
  analyze no_alnum same_lower equal_rank sample_threads
  = Ok (sample_counts, sample_hot)
  /\ (forall sym, In sym (keys sample_counts) -> In sym (keys COINS))
  /\ (forall h sym, In h sample_hot -> In sym (h_coins h) -> In sym (keys COINS)).
Proof.
  assert (analyze no_alnum same_lower equal_rank sample_threads
          = Ok (sample_counts, sample_hot)) as H by (vm_compute; reflexivity).
  destruct (symbols_are_coin_keys no_alnum same_lower equal_rank)
    as [_ [_ [Hcc Hhot]]].
  split; [exact H | split].
  - intros sym. exact (Hcc sample_threads sample_counts sample_hot sym H).
  - intros h sym. exact (Hhot sample_threads sample_counts sample_hot h sym H).
Defined.

Lemma aggregate_mapping_keys_witness :
  analyze no_alnum same_lower equal_rank sample_threads
  = Ok (sample_counts, sample_hot)
  /\ NoDup (keys sample_counts)
  /\ (forall sym,
         In sym (keys sample_counts)
         <-> exists t, In t sample_threads
                       /\ In sym (coins_of no_alnum same_lower equal_rank t))
  /\ (forall sym st,
         In (sym, st) sample_counts
         <-> dict_get sym sample_counts = Some st).
Proof.
  assert (analyze no_alnum same_lower equal_rank sample_threads
          = Ok (sample_counts, sample_hot)) as H by (vm_compute; reflexivity).
  split; [exact H|].
  exact (@aggregate_mapping_keys no_alnum same_lower equal_rank
           sample_threads sample_counts sample_hot H).
Defined.

Lemma total_mentions_counts_pairs_witness :
  analyze no_alnum same_lower equal_rank sample_threads
  = Ok (sample_counts, sample_hot)
  /\ sum_counts sample_counts
     = Z.of_nat (List.length
                   (flat_map (coins_of no_alnum same_lower equal_rank)
                             sample_threads)).
Proof.
  assert (analyze no_alnum same_lower equal_rank sample_threads
          = Ok (sample_counts, sample_hot)) as H by (vm_compute; reflexivity).
  split; [exact H|].
  exact (@total_mentions_counts_pairs no_alnum same_lower equal_rank
           sample_threads sample_counts sample_hot H).
Defined.

Lemma empty_mapping_iff_no_hot_thread_witness :
  analyze no_alnum same_lower equal_rank sample_threads
  = Ok (sample_counts, sample_hot)
  /\ (sample_counts = [] <-> sample_hot = [])
  /\ (sample_hot = []
      <-> Forall (fun t => coins_of no_alnum same_lower equal_rank t = [])
                 sample_threads)
  /\ List.length sample_hot
     = Nat.min 10
         (List.length
            (filter (mentions_any no_alnum same_lower equal_rank)
                    sample_threads)).
Proof.
  assert (analyze no_alnum same_lower equal_rank sample_threads
          = Ok (sample_counts, sample_hot)) as H by (vm_compute; reflexivity).
  split; [exact H|].
  exact (@empty_mapping_iff_no_hot_thread no_alnum same_lower equal_rank
           sample_threads sample_counts sample_hot H).
Defined.

Lemma hot_threads_are_counted_witness :
  analyze no_alnum same_lower equal_rank sample_threads
  = Ok (sample_counts, sample_hot)
  /\ Forall
       (fun h =>
          h_coins h <> []
          /\ NoDup (h_coins h)
          /\ forall sym,
               In sym (h_coins h) ->
               exists st,
                 dict_get sym sample_counts = Some st
                 /\ In (h_no h) (threads st)
                 /\ (1 <= count st)%Z)
       sample_hot.
Proof.
  assert (analyze no_alnum same_lower equal_rank sample_threads
          = Ok (sample_counts, sample_hot)) as H by (vm_compute; reflexivity).
  split; [exact H|].
  exact (@hot_threads_are_counted no_alnum same_lower equal_rank
           sample_threads sample_counts sample_hot H).
Defined.

(** The first sample thread, the other two, and all three. *)
Lemma analyze_app_witness :
  exists cc1 hot1 cc2 hot2,
    analyze no_alnum same_lower equal_rank (firstn 1 sample_threads)
    = Ok (cc1, hot1)
    /\ analyze no_alnum same_lower equal_rank (skipn 1 sample_threads)
       = Ok (cc2, hot2)
    /\ analyze no_alnum same_lower equal_rank
         (firstn 1 sample_threads ++ skipn 1 sample_threads)
       = Ok (sample_counts, sample_hot)
    /\ stat_or_default sample_counts (str "ETH")
       = {| count := (count (stat_or_default cc1 (str "ETH"))
                      + count (stat_or_default cc2 (str "ETH")))%Z;
            threads := threads (stat_or_default cc1 (str "ETH"))
                       ++ threads (stat_or_default cc2 (str "ETH")) |}.
Proof.
  let r := eval vm_compute in
    (analyze no_alnum same_lower equal_rank (firstn 1 sample_threads)) in
  match r with Ok (?c, ?h) => exists c, h end.
  let r := eval vm_compute in
    (analyze no_alnum same_lower equal_rank (skipn 1 sample_threads)) in
  match r with Ok (?c, ?h) => exists c, h end.
  match goal with
  | |- ?A /\ ?B /\ ?C /\ _ =>
      assert A as H1 by (vm_compute; reflexivity);
      assert B as H2 by (vm_compute; reflexivity);
      assert C as H by (vm_compute; reflexivity)
  end.
  split; [exact H1 | split; [exact H2 | split; [exact H|]]].
  exact (@analyze_app no_alnum same_lower equal_rank _ _ _ _ _ _ _ _
           (str "ETH") H1 H2 H).
Defined.


(** ** The run at sample data *)

(** The sample catalog on a disk that takes the file: the report is
    written. *)
Lemma run_writes_report_witness :
  fetch_result sample_net = Ok sample_threads
  /\ analyze no_alnum same_lower equal_rank sample_threads
     = Ok (sample_counts, sample_hot)
  /\ sample_counts <> []
  /\ exists rep,
       generate_html sample_counts sample_hot 3 = Ok rep
       /\ run no_alnum same_lower equal_rank sample_net utf8_console DiskTakes
          = (run_prefix
               ++ [ Print (MsgFetched 3); Print MsgAnalyzing;
                    Print (MsgSummary 3 5);
                    Print MsgTableHeader; Print MsgTableRule ]
               ++ table_events sample_counts
               ++ [ OpenFile output_file; WriteFile output_file rep;
                    Print (MsgReportWritten output_file) ],
             Ok tt).
Proof.
  assert (fetch_result sample_net = Ok sample_threads) as Hf by reflexivity.
  assert (analyze no_alnum same_lower equal_rank sample_threads
          = Ok (sample_counts, sample_hot)) as H by (vm_compute; reflexivity).
  assert (sample_counts <> []) as Hne by discriminate.
  split; [exact Hf | split; [exact H | split; [exact Hne|]]].
  destruct (@run_writes_report no_alnum same_lower equal_rank
              utf8_console (fun _ => eq_refl) DiskTakes
              sample_net sample_threads sample_counts sample_hot Hf H Hne)
    as [rep [Hrep [Hrun [Hsur _]]]].
  exists rep. split; [exact Hrep|].
  cbv zeta in Hrun. rewrite Hrun, Hsur. reflexivity.
Defined.

Lemma run_one_request_one_write_witness :
  (forall m, utf8_console m = None)
  /\ firstn 5 (fst (run no_alnum same_lower equal_rank sample_net
                      utf8_console DiskTakes)) = run_prefix
  /\ List.length
       (filter is_request
          (fst (run no_alnum same_lower equal_rank sample_net
                  utf8_console DiskTakes))) = 1
  /\ (filter is_write
        (fst (run no_alnum same_lower equal_rank sample_net
                utf8_console DiskTakes)) = []
      \/ exists rep,
           filter is_write
             (fst (run no_alnum same_lower equal_rank sample_net
                     utf8_console DiskTakes))
           = [WriteFile output_file rep]
           /\ snd (run no_alnum same_lower equal_rank sample_net
                     utf8_console DiskTakes) = Ok tt).
Proof.
  split; [intros m; reflexivity|].
  exact (@run_one_request_one_write no_alnum same_lower equal_rank
           utf8_console (fun _ => eq_refl) DiskTakes sample_net).
Defined.

Lemma console_table_is_bounded_witness :
  (forall m, utf8_console m = None)
  /\ List.length
       (filter is_table_row
          (fst (run no_alnum same_lower equal_rank sample_net
                  utf8_console DiskTakes))) <= 20
  /\ Forall table_row_ok
       (fst (run no_alnum same_lower equal_rank sample_net
               utf8_console DiskTakes)).
Proof.
  split; [intros m; reflexivity|].
  exact (@console_table_is_bounded no_alnum same_lower equal_rank
           utf8_console (fun _ => eq_refl) DiskTakes sample_net).
Defined.

(** A subject with a lone surrogate: the file is opened, so emptied, and
    the run ends with the encoding error. *)
Example run_surrogate_in_subject :
  let catalog :=
    JArray [ JObject [ (str "threads",
                        JArray [ JObject [ (str "no", JInt 1);
                                           (str "sub", JStr (str "BTC " ++ [55296%N])) ] ]) ] ] in
  let (trace, res) :=
    run no_alnum same_lower equal_rank (GetReturns 200 (Ok catalog))
      utf8_console DiskTakes in
  res = Raise UnicodeEncodeError
  /\ filter is_write trace = []
  /\ In (OpenFile output_file) trace
  /\ last trace (Print MsgRule) = Print (MsgError UnicodeEncodeError).
Proof. vm_compute. repeat split. do 11 right. left. reflexivity. Qed.

(** A body that is no JSON: with requests from 2.27 on, [resp.json()]
    raises a request exception, and the run ends cleanly. *)
Example run_body_not_json :
  run no_alnum same_lower equal_rank
    (GetReturns 200 (Raise (JSONDecodeError (str "Expecting value"))))
    utf8_console DiskTakes
  = (run_prefix
       ++ [Print (MsgNetworkError (JSONDecodeError (str "Expecting value")))],
     Ok tt).
Proof. reflexivity. Qed.

(** A console whose encoding has ASCII only: the announcement of the
    fetch is refused, so no request is made, and the error message of the
    handler is refused as well. *)
Example run_ascii_console :
  let ascii_only m :=
    match m with
    | MsgRule | MsgTitle | MsgTableRule => None
    | _ => Some UnicodeEncodeError
    end in
  run no_alnum same_lower equal_rank sample_net ascii_only DiskTakes
  = ([Print MsgRule; Print MsgTitle; Print MsgRule], Raise UnicodeEncodeError).
Proof. reflexivity. Qed.

(** A catalog that is an object, not a list of pages: its keys are taken
    for pages, and [page.get] raises an [AttributeError], which leaves the
    run. *)
Lemma escaping_exception_witness :
  snd (run no_alnum same_lower equal_rank
         (GetReturns 200 (Ok (JObject [(str "error", JStr (str "not found"))])))
         utf8_console DiskTakes)
  = Raise AttributeError
  /\ is_RequestException AttributeError = false
  /\ (exists shown,
         fst (run no_alnum same_lower equal_rank
                (GetReturns 200
                   (Ok (JObject [(str "error", JStr (str "not found"))])))
                utf8_console DiskTakes)
         = run_prefix ++ shown ++ [Print (MsgError AttributeError)])
  /\ List.length
       (filter is_request
          (fst (run no_alnum same_lower equal_rank
                  (GetReturns 200
                     (Ok (JObject [(str "error", JStr (str "not found"))])))
                  utf8_console DiskTakes))) = 1
  /\ filter is_write
       (fst (run no_alnum same_lower equal_rank
               (GetReturns 200
                  (Ok (JObject [(str "error", JStr (str "not found"))])))
               utf8_console DiskTakes)) = []
  /\ fetch_result
       (GetReturns 200 (Ok (JObject [(str "error", JStr (str "not found"))])))
     = Raise AttributeError.
Proof.
  split; [reflexivity|].
  destruct (@escaping_exception_is_not_a_request_exception
              no_alnum same_lower equal_rank
              utf8_console (fun _ => eq_refl) DiskTakes
              (GetReturns 200
                 (Ok (JObject [(str "error", JStr (str "not found"))])))
              AttributeError eq_refl)
    as [H1 [H2 [H3 [H4 _]]]].
  split; [exact H1 | split; [exact H2 | split; [exact H3 | split; [exact H4|]]]].
  reflexivity.
Defined.
